(** * np-socket: the session and collaboration engine

    A shallow embedding of the WebSocket server of the repository
    (the dispatcher [handleWebSocketMessage], the class
    [ContainerSessionManager] and the key-value adapter of [redis.js])
    and of the classes of [DatabaseClasses.ts], together with the
    properties its specification states about it and further properties
    of the code.

    Conventions of the embedding:
    - JavaScript strings are [string]; arrays are [list]; a [Map] from
      strings is a [gmap string _]; a [Set] of client handles is a
      duplicate-free [list] in insertion order, which is the order in
      which [forEach] visits a [Set];
    - line numbers and counts are the non-negative integers of a
      zero-based index ([nat]); a [count] that may be absent or
      non-positive is an [option Z];
    - line values are strings; the store holds text and is seen through
      the adapter's [get], which returns what [JSON.parse] makes of the
      text and the text itself when that throws, its [set] and [del];
    - [JSON.parse], [path.join], the glob matching of Redis and the
      coercion of [fs.writeFileSync] belong to the platform, a class the
      development is parametric in;
    - the calls on a pseudo-terminal and the messages sent on a socket
      are recorded in a trace, and an oracle decides which calls to the
      store, the file system and the pseudo-terminal throw;
    - a handler runs from its start to its end: the interleaving of two
      handlers at an [await] is not modelled;
    - the pool of [pg] is a function of its own state: a query resolves
      to a result or rejects with a message. *)

From stdpp Require Import base strings list gmap pretty.

Open Scope string_scope.
Open Scope list_scope.
Open Scope nat_scope.
Open Scope stdpp_scope.

(** ** JavaScript built-ins used by the server *)

Module Js.

Definition newline : Ascii.ascii := Ascii.ascii_of_nat 10.

Definition nl : string := String newline "".

(** [s.split("\n")]: never the empty array; the empty string gives [[""]]. *)
Fixpoint split_nl (s : string) : list string :=
  match s with
  | EmptyString => [""]
  | String c s' =>
      if Ascii.eqb c newline then "" :: split_nl s'
      else match split_nl s' with
           | x :: r => String c x :: r
           | [] => [String c ""]
           end
  end.

(** [lines.join("\n")]: the empty array gives the empty string. *)
Fixpoint join_nl (l : list string) : string :=
  match l with
  | [] => ""
  | x :: r =>
      match r with
      | [] => x
      | _ :: _ => x +:+ nl +:+ join_nl r
      end
  end.

(** [arr.splice(start, deleteCount, ...items)] for a non-negative
    [start]: both the start and the number of removed elements are
    clamped to the array, so a start beyond the end appends. *)
Definition splice {A} (start deleteCount : nat) (items l : list A) : list A :=
  take start l ++ items ++ drop (start + deleteCount) l.

(** A string without the newline character. *)
Fixpoint nl_free (s : string) : bool :=
  match s with
  | EmptyString => true
  | String c s' => negb (Ascii.eqb c newline) && nl_free s'
  end.

(** [s.lastIndexOf(".")], with [None] for JavaScript's [-1]. *)
Fixpoint lastIndexOf (c : Ascii.ascii) (s : string) : option nat :=
  match s with
  | EmptyString => None
  | String d s' =>
      match lastIndexOf c s' with
      | Some i => Some (S i)
      | None => if Ascii.eqb d c then Some 0 else None
      end
  end.

(** [s.slice(0, n)] and [s.slice(n)] for [0 <= n]. *)
Fixpoint slice_to (n : nat) (s : string) : string :=
  match n, s with
  | S n', String c s' => String c (slice_to n' s')
  | _, _ => ""
  end.

Fixpoint slice_from (n : nat) (s : string) : string :=
  match n, s with
  | S n', String _ s' => slice_from n' s'
  | _, _ => s
  end.

(** [s.endsWith("\n")]. *)
Fixpoint endsWith_nl (s : string) : bool :=
  match s with
  | EmptyString => false
  | String c s' =>
      match s' with
      | EmptyString => Ascii.eqb c newline
      | String _ _ => endsWith_nl s'
      end
  end.

(** What the adapter's [get] can return: [null], a boolean, a number,
    a string, or an object or array. The server only tests such a value,
    passes it on and writes it back: a number is kept as its text
    [String(n)], an object or array as its text [JSON.stringify(o)]. *)
Inductive value :=
| VNull
| VBool (b : bool)
| VNum (text : string)
| VStr (s : string)
| VObj (text : string).

(** What the server runs on and does not define: [JSON.parse] ([None]
    when it throws), [path.join] of Node, the glob test of a Redis
    [SCAN ... MATCH pattern] against a key, and the text
    [fs.writeFileSync] writes for data that is not a string (where it
    takes such data at all). *)
Class Platform := {
  JSON_parse : string → option value;
  path_join : string → string → string;
  scan_match : string → string → bool;
  data_text : value → string;
}.

End Js.

(** ** The collaborative edit engine ([diffLine]) *)

Module Edit.
Import Js.

Inductive edit_op := Insert | Delete | Replace.

(** The test [["insert", "delete", "replace"].includes(op)]. *)
Definition parse_op (op : string) : option edit_op :=
  if String.eqb op "insert" then Some Insert
  else if String.eqb op "delete" then Some Delete
  else if String.eqb op "replace" then Some Replace
  else None.

(** One element of [updates]; [lineContent] is [null] for a delete. *)
Record update := Update {
  u_fileName : string;
  u_op : edit_op;
  u_lineNumber : nat;
  u_lineContent : option string
}.

(** The field [lineContent] of a request: one value or an array. *)
Inductive line_arg :=
| LineOne (v : string)
| LineMany (vs : list string).

(** [Array.isArray(lineContent) ? lineContent : [lineContent]] *)
Definition to_array (a : line_arg) : list string :=
  match a with
  | LineOne v => [v]
  | LineMany vs => vs
  end.

(** [typeof count === "number" && count > 0 ? count : 1] *)
Definition deleteCount (count : option Z) : nat :=
  match count with
  | Some c => if (0 <? c)%Z then Z.to_nat c else 1
  | None => 1
  end.

(** The updates pushed by the loop of the insert branch, [i] being
    the loop counter at the head of [vs]. *)
Fixpoint insert_updates (fileName : string) (lineNumber i : nat)
    (vs : list string) : list update :=
  match vs with
  | [] => []
  | v :: vs' =>
      Update fileName Insert (lineNumber + i) (Some v)
        :: insert_updates fileName lineNumber (S i) vs'
  end.

(** The loop of the replace branch: [lines.length] is read again at
    every iteration. *)
Fixpoint replace_loop (fileName : string) (lineNumber i : nat)
    (vs lines : list string) (updates : list update)
    : list string * list update :=
  match vs with
  | [] => (lines, updates)
  | v :: vs' =>
      if lineNumber + i <? length lines then
        replace_loop fileName lineNumber (S i) vs'
          (<[lineNumber + i := v]> lines)
          (updates ++ [Update fileName Replace (lineNumber + i) (Some v)])
      else
        replace_loop fileName lineNumber (S i) vs'
          (splice (lineNumber + i) 0 [v] lines)
          (updates ++ [Update fileName Insert (lineNumber + i) (Some v)])
  end.

(** The three branches of the [diffLine] case, on the array [lines]. *)
Definition edit_lines (fileName : string) (op : edit_op) (lineNumber : nat)
    (lineContent : line_arg) (count : option Z) (lines : list string)
    : list string * list update :=
  match op with
  | Insert =>
      let linesToInsert := to_array lineContent in
      (splice lineNumber 0 linesToInsert lines,
       insert_updates fileName lineNumber 0 linesToInsert)
  | Delete =>
      let n := deleteCount count in
      (splice lineNumber n [] lines,
       replicate n (Update fileName Delete lineNumber None))
  | Replace =>
      replace_loop fileName lineNumber 0 (to_array lineContent) lines []
  end.

(** From the content read from the store to the content written back:
    [split], the branch, [join]. *)
Definition edit_content (fileName : string) (op : edit_op) (lineNumber : nat)
    (lineContent : line_arg) (count : option Z) (fileContent : string)
    : string * list update :=
  let '(lines, updates) :=
    edit_lines fileName op lineNumber lineContent count (split_nl fileContent) in
  (join_nl lines, updates).

End Edit.

(** ** The world around the handlers *)

Module Sys.
Import Js Edit.

(** A WebSocket object [ws] and a handle returned by [pty.spawn], by
    identity. *)
Definition client := nat.
Definition pty := nat.

(** A JSON value the server forwards without looking at it, as text. *)
Definition json := string.

(** The outbound envelopes [JSON.stringify({ event, data })]. *)
Inductive message :=
| MConnected (sessionId : string)
| MFiles (files : list (string * value))
| MOutput (output : string)
| MExit (exitCode : Z)
| MRunStatus (success : bool)
| MRunRan
| MStopped (environmentId : string) (success : bool) (reason : option string)
| MLineUpdated (u : update)
| MMovedCursor (id : string) (line ch file : json)
| MDeleteCursor (sessionId : string)
| MInputChanged (input : json)
| MRenameFileStatus (success : bool) (oldName newName : string)
| MDeleteFileStatus (success : bool) (fileName : string)
| MDuplicateFileStatus (success : bool) (oldName newName : string)
| MError (msg : string) (details : option string).

(** The calls that leave the process and may throw. An argument of
    [pty.spawn] is [None] when the script passes [undefined]. *)
Inductive call :=
| RedisGet (key : string)
| RedisSet (key value : string)
| RedisDel (key : string)
| RedisScan (pattern : string)
| FsMkdir (dir : string)
| FsWriteFile (path : string) (data : value)
| PtySpawn (file : string) (args : list (option string))
| PtyKill (h : pty)
| PtyWrite (h : pty) (data : string).

(** What an observer of the process sees, in order. *)
Inductive effect :=
| ESpawn (h : pty) (file : string) (args : list (option string))
| EKill (h : pty)
| EWrite (h : pty) (data : string)
| ESend (c : client) (m : message).

(** An entry of [manager.sessions]. *)
Record session := Session {
  ptyProcess : pty;
  sessionDir : string;
  containerName : string
}.

(** The fields of a [ws] object the server reads and writes. *)
Record socket := Socket {
  sessionId : string;
  environmentId : option string;
  readyState_open : bool
}.

Record world := World {
  redis : gmap string string;
  fs_dirs : gset string;
  fs_files : gmap string string;
  sessions : gmap string session;
  clientsMap : gmap string (list client);
  sockets : gmap client socket;
  wss_clients : list client;
  listeners : gmap pty string;
  next_pty : pty;
  trace : list effect
}.

Definition with_redis (f : gmap string string → gmap string string) (w : world) : world :=
  World (f (redis w)) (fs_dirs w) (fs_files w) (sessions w) (clientsMap w)
        (sockets w) (wss_clients w) (listeners w) (next_pty w) (trace w).

Definition with_fs_dirs (f : gset string → gset string) (w : world) : world :=
  World (redis w) (f (fs_dirs w)) (fs_files w) (sessions w) (clientsMap w)
        (sockets w) (wss_clients w) (listeners w) (next_pty w) (trace w).

Definition with_fs_files (f : gmap string string → gmap string string) (w : world) : world :=
  World (redis w) (fs_dirs w) (f (fs_files w)) (sessions w) (clientsMap w)
        (sockets w) (wss_clients w) (listeners w) (next_pty w) (trace w).

Definition with_sessions (f : gmap string session → gmap string session) (w : world) : world :=
  World (redis w) (fs_dirs w) (fs_files w) (f (sessions w)) (clientsMap w)
        (sockets w) (wss_clients w) (listeners w) (next_pty w) (trace w).

Definition with_clientsMap
    (f : gmap string (list client) → gmap string (list client)) (w : world) : world :=
  World (redis w) (fs_dirs w) (fs_files w) (sessions w) (f (clientsMap w))
        (sockets w) (wss_clients w) (listeners w) (next_pty w) (trace w).

Definition with_sockets (f : gmap client socket → gmap client socket) (w : world) : world :=
  World (redis w) (fs_dirs w) (fs_files w) (sessions w) (clientsMap w)
        (f (sockets w)) (wss_clients w) (listeners w) (next_pty w) (trace w).

Definition with_wss_clients (f : list client → list client) (w : world) : world :=
  World (redis w) (fs_dirs w) (fs_files w) (sessions w) (clientsMap w)
        (sockets w) (f (wss_clients w)) (listeners w) (next_pty w) (trace w).

Definition with_listeners (f : gmap pty string → gmap pty string) (w : world) : world :=
  World (redis w) (fs_dirs w) (fs_files w) (sessions w) (clientsMap w)
        (sockets w) (wss_clients w) (f (listeners w)) (next_pty w) (trace w).

Definition with_next_pty (f : pty → pty) (w : world) : world :=
  World (redis w) (fs_dirs w) (fs_files w) (sessions w) (clientsMap w)
        (sockets w) (wss_clients w) (listeners w) (f (next_pty w)) (trace w).

Definition with_trace (f : list effect → list effect) (w : world) : world :=
  World (redis w) (fs_dirs w) (fs_files w) (sessions w) (clientsMap w)
        (sockets w) (wss_clients w) (listeners w) (next_pty w) (f (trace w)).

(** A computation on the world that returns or throws [Error(msg)];
    what it did before throwing stays done. *)
Definition M (A : Type) : Type := world → (string + A) * world.

Definition ret {A} (a : A) : M A := fun w => (inr a, w).

Definition throw {A} (msg : string) : M A := fun w => (inl msg, w).

Definition bind {A B} (m : M A) (k : A → M B) : M B :=
  fun w =>
    match m w with
    | (inr a, w') => k a w'
    | (inl e, w') => (inl e, w')
    end.

(** [try { m } catch (error) { h(error.message) }] *)
Definition try_catch {A} (m : M A) (h : string → M A) : M A :=
  fun w =>
    match m w with
    | (inr a, w') => (inr a, w')
    | (inl e, w') => h e w'
    end.

Definition gets {A} (f : world → A) : M A := fun w => (inr (f w), w).

Definition modify (f : world → world) : M unit := fun w => (inr tt, f w).

(** The trace grows at its end. *)
Definition add_trace (t' : list effect) (w : world) : world :=
  with_trace (fun t => t ++ t') w.

Definition emit (e : effect) : M unit := modify (add_trace [e]).

Declare Scope js_scope.
Delimit Scope js_scope with js.
Notation "x <- m ;; k" := (bind m (fun x => k))
  (at level 100, m at next level, right associativity) : js_scope.
Notation "m >> k" := (bind m (fun _ => k))
  (at level 100, right associativity) : js_scope.

(** [for (const x of l) { f(x) }] *)
Fixpoint for_each {A} (l : list A) (f : A → M unit) : M unit :=
  match l with
  | [] => ret tt
  | x :: l' => bind (f x) (fun _ => for_each l' f)
  end.

(** [await Promise.all(l.map(async (x) => f(x)))]: the results in the
    order of [l]; of several rejections the one of the earliest element
    is taken. *)
Fixpoint map_all {A B} (l : list A) (f : A → M B) : M (list B) :=
  match l with
  | [] => ret []
  | x :: l' => bind (f x) (fun y => bind (map_all l' f) (fun ys => ret (y :: ys)))
  end.

End Sys.

(** ** [redis.js], [node-pty], [fs] and [ContainerSessionManager] *)

Module Manager.
Import Js Edit Sys.
Open Scope js_scope.

(** [obj[k] = v] on a plain object kept as its own entries in insertion
    order: a key already present keeps its place, and the key
    [__proto__] gets no entry (the assignment sets the prototype or does
    nothing). (The reordering of integer-like keys by [Object.entries]
    is not modelled.) *)
Fixpoint obj_put {V} (k : string) (v : V) (obj : list (string * V)) : list (string * V) :=
  match obj with
  | [] => [(k, v)]
  | (k', v') :: obj' =>
      if String.eqb k' k then (k, v) :: obj' else (k', v') :: obj_put k v obj'
  end.

Definition obj_set {V} (k : string) (v : V) (obj : list (string * V)) : list (string * V) :=
  if String.eqb k "__proto__" then obj else obj_put k v obj.

(** [set.add(c)] and [set.delete(c)] on a [Set] in insertion order. *)
Definition set_add (c : client) (cs : list client) : list client :=
  if bool_decide (c ∈ cs) then cs else cs ++ [c].

Definition set_delete (c : client) (cs : list client) : list client :=
  List.filter (fun c' => negb (Nat.eqb c' c)) cs.

(** The character [.]. *)
Definition dot : Ascii.ascii := Ascii.ascii_of_nat 46.

(** The double-quote character. *)
Definition dq : string := String (Ascii.ascii_of_nat 34) EmptyString.

(** The body given to a [main.py] the store has no content for. *)
Definition default_main_py : string :=
  "import time" +:+ nl +:+ "while True:" +:+ nl +:+
  " print(" +:+ dq +:+ "hello world" +:+ dq +:+ ")" +:+ nl +:+ " time.sleep(1)".

(** JavaScript falsiness: [null], [false], the numbers zero and [NaN],
    the empty string. *)
Definition falsy (v : value) : bool :=
  match v with
  | VNull => true
  | VBool b => negb b
  | VNum text => String.eqb text "0" || String.eqb text "NaN"
  | VStr s => String.eqb s EmptyString
  | VObj _ => false
  end.

(** The text Redis is sent for a value given to the adapter's [set]: an
    object, an array or [null] through [JSON.stringify], a string as it
    is, a number or a boolean as the client library's [String(arg)]. *)
Definition store_text (v : value) : string :=
  match v with
  | VNull => "null"
  | VBool b => if b then "true" else "false"
  | VNum text => text
  | VStr s => s
  | VObj text => text
  end.

(** What [fs.writeFileSync] writes for [data]. *)
Definition written `{!Platform} (data : value) : string :=
  match data with
  | VStr s => s
  | _ => data_text data
  end.

Definition dockerArgs (containerName sessionDir : string) (mainFile : option string)
    : list (option string) :=
  [Some "run"; Some "--rm"; Some "-it"; Some "--name"; Some containerName;
   Some "--network=none"; Some "--memory=256m"; Some "--cpus=0.5";
   Some "-v"; Some (sessionDir +:+ ":/workspace"); Some "-w"; Some "/workspace";
   Some "python:3.9-slim"; Some "python3"; Some "-u"; mainFile].

Section WithEnvironment.

Context {platform : Platform}.

(** Which calls out of the process throw, and with which message, given
    the world at the moment of the call. *)
Variable throws : world → call → option string.

(** The hex SHA-256 digest of [JSON.stringify(files)]. *)
Variable sha256_json : list (string * value) → string.

(** [path.join(os.tmpdir(), "nixpackpy")] *)
Variable baseTmpDir : string.

Definition ext (c : call) : M unit :=
  fun w =>
    match throws w c with
    | Some msg => (inl msg, w)
    | None => (inr tt, w)
    end.

(** *** The adapter of [redis.js]

    The store holds the text Redis holds under each key. *)

(** What [get] makes of the reply of Redis, [None] for its [null]:
    [JSON.parse] of it ([JSON.parse(null)] is [null]), and the text
    itself when that throws. *)
Definition parsed (reply : option string) : value :=
  match reply with
  | None => VNull
  | Some text =>
      match JSON_parse text with
      | Some v => v
      | None => VStr text
      end
  end.

Definition get (key : string) : M value :=
  ext (RedisGet key) >> gets (fun w => parsed (redis w !! key)).

Definition set (key : string) (value : value) : M unit :=
  let stringValue := store_text value in
  ext (RedisSet key stringValue) >> modify (with_redis (insert key stringValue)).

Definition redis_del (key : string) : M unit :=
  ext (RedisDel key) >> modify (with_redis (delete key)).

(** The whole [do ... while (cursor !== "0")] scan with
    [MATCH pattern]: every key the pattern matches, once. *)
Definition redis_scan (pattern : string) : M (list string) :=
  ext (RedisScan pattern) >>
  gets (fun w => List.filter (scan_match pattern) (map fst (map_to_list (redis w)))).

(** *** [node-pty] and the sockets *)

(** [pty.spawn(file, args, ...)]: a fresh handle. *)
Definition pty_spawn (file : string) (args : list (option string)) : M pty :=
  ext (PtySpawn file args) >>
  h <- gets next_pty ;;
  modify (with_next_pty S) >>
  emit (ESpawn h file args) >>
  ret h.

(** [h.kill()]: the handle receives the call, which may then throw. *)
Definition pty_kill (h : pty) : M unit :=
  emit (EKill h) >> ext (PtyKill h).

Definition pty_write (h : pty) (data : string) : M unit :=
  emit (EWrite h data) >> ext (PtyWrite h data).

Definition ws_send (c : client) (m : message) : M unit :=
  emit (ESend c m).

(** [client.readyState === client.OPEN] *)
Definition is_open (c : client) (w : world) : bool :=
  match sockets w !! c with
  | Some s => readyState_open s
  | None => false
  end.

(** A call of an [async] function whose promise is dropped: the callee
    runs up to its first [await], a rejection does not reach the caller. *)
Definition detached {A} (m : M A) : M unit :=
  try_catch (m >> ret tt) (fun _ => ret tt).

(** *** [ContainerSessionManager] *)

Definition registerClient (environmentId : string) (c : client) : M unit :=
  has <- gets (fun w => bool_decide (is_Some (clientsMap w !! environmentId))) ;;
  (if has then ret tt
   else modify (with_clientsMap (insert environmentId []))) >>
  modify (with_clientsMap (fun m =>
    match m !! environmentId with
    | Some cs => <[environmentId := set_add c cs]> m
    | None => m
    end)).

Definition stopSession (environmentId : string) : M bool :=
  session <- gets (fun w => sessions w !! environmentId) ;;
  match session with
  | None => ret false
  | Some s =>
      try_catch
        (pty_spawn "docker" [Some "kill"; Some (containerName s)] >>
         pty_kill (ptyProcess s) >>
         modify (with_sessions (delete environmentId)) >>
         ret true)
        (fun _ =>
           modify (with_sessions (delete environmentId)) >>
           ret false)
  end.

Definition unregisterClient (environmentId : string) (c : client) : M unit :=
  has <- gets (fun w => bool_decide (is_Some (clientsMap w !! environmentId))) ;;
  if has then
    modify (with_clientsMap (fun m =>
      match m !! environmentId with
      | Some cs => <[environmentId := set_delete c cs]> m
      | None => m
      end)) >>
    size <- gets (fun w => length (default [] (clientsMap w !! environmentId))) ;;
    if Nat.eqb size 0 then
      detached (stopSession environmentId) >>
      modify (with_clientsMap (delete environmentId))
    else ret tt
  else ret tt.

Definition broadcastToEnvironment (environmentId : string) (m : message) : M unit :=
  clients <- gets (fun w => clientsMap w !! environmentId) ;;
  match clients with
  | Some cs =>
      for_each cs (fun c =>
        open <- gets (is_open c) ;;
        if open then ws_send c m else ret tt)
  | None => ret tt
  end.

Definition buildFileObject (fileNames : list string) (environmentId : string)
    : M (list (string * value) * string) :=
  fileResults <- map_all fileNames (fun fileName =>
    let fileKey := environmentId +:+ "_" +:+ fileName in
    fileContent <- get fileKey ;;
    let fileContent :=
      if falsy fileContent && String.eqb fileName "main.py"
      then VStr default_main_py else fileContent in
    ret (fileName, if falsy fileContent then VStr EmptyString else fileContent)) ;;
  let files :=
    fold_left (fun acc r => obj_set (fst r) (snd r) acc) fileResults [] in
  let hash := sha256_json files in
  ret (files, hash).

Definition writeFilesToDir (environmentId : string) (files : list (string * value))
    : M string :=
  let sessionDir := path_join baseTmpDir environmentId in
  there <- gets (fun w => bool_decide (sessionDir ∈ fs_dirs w)) ;;
  (if there then ret tt
   else ext (FsMkdir sessionDir) >>
        modify (with_fs_dirs (fun d => {[sessionDir]} ∪ d))) >>
  for_each files (fun entry =>
    let path := path_join sessionDir (fst entry) in
    ext (FsWriteFile path (snd entry)) >>
    modify (with_fs_files (insert path (written (snd entry))))) >>
  ret sessionDir.

(** The two listeners [startSession] attaches to a new handle, which a
    later event of the handle runs. *)
Definition on_data (environmentId : string) (data : string) : M unit :=
  broadcastToEnvironment environmentId (MOutput data).

Definition on_exit (environmentId : string) (code : Z) : M unit :=
  broadcastToEnvironment environmentId (MExit code) >>
  modify (with_sessions (delete environmentId)).

(** A [data] or [exit] event of handle [h]: the listener attached to it,
    if any, runs with the environment it closed over. *)
Definition deliver_data (h : pty) (data : string) : M unit :=
  attached <- gets (fun w => listeners w !! h) ;;
  match attached with
  | Some environmentId => on_data environmentId data
  | None => ret tt
  end.

Definition deliver_exit (h : pty) (code : Z) : M unit :=
  attached <- gets (fun w => listeners w !! h) ;;
  match attached with
  | Some environmentId => on_exit environmentId code
  | None => ret tt
  end.

(** The [try] block of [startSession]. The value chosen for [files]
    after the hash comparison is bound and read by nothing that follows:
    the directory was written two statements earlier. *)
Definition startSession_try (environmentId : string) (fileNames : list string)
    (hash : option string) (clientFiles : option (list (string * value))) : M bool :=
  filesObj <- buildFileObject fileNames environmentId ;;
  let files := fst filesObj in
  let serverHash := snd filesObj in
  sessionDir <- writeFilesToDir environmentId files ;;
  let mainFile :=
    if bool_decide ("main.py" ∈ fileNames) then Some "main.py" else head fileNames in
  let files :=
    if bool_decide (hash ≠ Some serverHash) then clientFiles else Some files in
  let containerName := "nixpackpy_" +:+ environmentId in
  let dockerArgs := dockerArgs containerName sessionDir mainFile in
  ptyProcess <- pty_spawn "docker" dockerArgs ;;
  modify (with_listeners (insert ptyProcess environmentId)) >>
  modify (with_sessions
            (insert environmentId (Session ptyProcess sessionDir containerName))) >>
  ret true.

(** The block before the [try]: an existing session is stopped and the
    clients are told. *)
Definition startSession_restart (environmentId : string) : M unit :=
  has <- gets (fun w => bool_decide (is_Some (sessions w !! environmentId))) ;;
  if has then
    stopSession environmentId >>
    broadcastToEnvironment environmentId
      (MStopped environmentId true (Some "restarted"))
  else ret tt.

(** The [catch] block, given [error.message]. *)
Definition startSession_catch (environmentId : string) (error : string) : M bool :=
  let errorMsg := "Error starting session: " +:+ error in
  broadcastToEnvironment environmentId (MOutput errorMsg) >>
  broadcastToEnvironment environmentId (MExit 1) >>
  ret false.

Definition startSession (environmentId : string) (fileNames : list string)
    (hash : option string) (clientFiles : option (list (string * value))) : M bool :=
  startSession_restart environmentId >>
  try_catch
    (startSession_try environmentId fileNames hash clientFiles)
    (startSession_catch environmentId).

Definition sendInput (environmentId : string) (input : string) : M bool :=
  session <- gets (fun w => sessions w !! environmentId) ;;
  match session with
  | None => ret false
  | Some s =>
      try_catch
        (pty_write (ptyProcess s)
           (if endsWith_nl input then input else input +:+ nl) >>
         ret true)
        (fun _ => ret false)
  end.

Definition renameFile (environmentId oldName newName : string) : M bool :=
  let oldKey := environmentId +:+ "_" +:+ oldName in
  let newKey := environmentId +:+ "_" +:+ newName in
  content <- get oldKey ;;
  match content with
  | VNull => throw "File does not exist"
  | _ =>
      set newKey content >>
      redis_del oldKey >>
      ret true
  end.

Definition deleteFile (environmentId fileName : string) : M bool :=
  let fileKey := environmentId +:+ "_" +:+ fileName in
  redis_del fileKey >>
  ret true.

(** The name [duplicateFile] gives the copy. *)
Definition copy_name (fileName : string) : string :=
  match lastIndexOf dot fileName with
  | Some (S i) => slice_to (S i) fileName +:+ "_copy" +:+ slice_from (S i) fileName
  | _ => fileName +:+ "_copy"
  end.

Definition duplicateFile (environmentId fileName : string) : M string :=
  let fileKey := environmentId +:+ "_" +:+ fileName in
  content <- get fileKey ;;
  match content with
  | VNull => throw "File does not exist"
  | _ =>
      let newName := copy_name fileName in
      let newKey := environmentId +:+ "_" +:+ newName in
      set newKey content >>
      ret newName
  end.

Definition saveFile (environmentId fileName : string) (content : value) : M bool :=
  let fileKey := environmentId +:+ "_" +:+ fileName in
  set fileKey content >>
  ret true.

Definition getAllFilesForEnvironment (environmentId : string)
    : M (list (string * value)) :=
  keys <- redis_scan (environmentId +:+ "_*") ;;
  fileResults <- map_all keys (fun key =>
    let fileName := slice_from (String.length environmentId + 1) key in
    v <- get key ;;
    ret (fileName, v)) ;;
  ret (fold_left (fun acc r => obj_set (fst r) (snd r) acc) fileResults []).

End WithEnvironment.
End Manager.

(** ** The protocol dispatcher ([handleWebSocketMessage]) *)

Module Dispatcher.
Import Js Edit Sys.
Open Scope js_scope.

(** A field that must be truthy: [None] when it is missing or empty. *)
Definition truthy (v : option string) : option string :=
  match v with
  | Some s => if String.eqb s EmptyString then None else Some s
  | None => None
  end.

(** A parsed envelope [{ event, data }], by event name, with the fields
    the handler destructures; a field is [None] when it is missing or of
    another type than the handler tests for. In a [diffLine] request
    [lineNumber] is a non-negative integer and [lineContent] a string or
    an array of strings. *)
Inductive request :=
| ReqGetFiles (environmentId : option string)
| ReqDiffLine (environmentId fileName op : option string) (lineNumber : option nat)
    (lineContent : line_arg) (count : option Z)
| ReqRun (fileNames : option (list string)) (environmentId hash : option string)
    (files : option (list (string * value)))
| ReqInput (input : option string)
| ReqStop
| ReqRenameFile (environmentId oldName newName : option string)
| ReqDeleteFile (environmentId fileName : option string)
| ReqDuplicateFile (environmentId fileName : option string)
| ReqCursorMove (line ch file : json) (environmentId : option string)
| ReqInputChange (input : json)
| ReqUnknown (event : string).

(** [ws.environmentId] and [ws.sessionId] *)
Definition ws_environmentId (c : client) (w : world) : option string :=
  sockets w !! c ≫= environmentId.

Definition ws_sessionId (c : client) (w : world) : string :=
  default EmptyString (sessionId <$> sockets w !! c).

(** [ws.environmentId = e] *)
Definition set_environmentId (c : client) (e : string) : M unit :=
  modify (with_sockets
            (alter (fun s => Socket (sessionId s) (Some e) (readyState_open s)) c)).

Section WithEnvironment.

Context {platform : Platform}.

Variable throws : world → call → option string.
Variable sha256_json : list (string * value) → string.
Variable baseTmpDir : string.

Local Abbreviation get := (Manager.get throws).
Local Abbreviation set := (Manager.set throws).
Local Abbreviation manager_registerClient := Manager.registerClient.
Local Abbreviation manager_unregisterClient := (Manager.unregisterClient throws).
Local Abbreviation manager_broadcastToEnvironment := Manager.broadcastToEnvironment.
Local Abbreviation manager_startSession := (Manager.startSession throws sha256_json baseTmpDir).
Local Abbreviation manager_stopSession := (Manager.stopSession throws).
Local Abbreviation manager_sendInput := (Manager.sendInput throws).
Local Abbreviation manager_renameFile := (Manager.renameFile throws).
Local Abbreviation manager_deleteFile := (Manager.deleteFile throws).
Local Abbreviation manager_duplicateFile := (Manager.duplicateFile throws).
Local Abbreviation manager_getAllFilesForEnvironment :=
  (Manager.getAllFilesForEnvironment throws).

(** The loop over [wss.clients] that skips the sender, the sockets that
    are not open and those bound to another environment. *)
Definition send_to_others (ws : client) (envId : option string) (m : message) : M unit :=
  clients <- gets wss_clients ;;
  for_each clients (fun c =>
    ok <- gets (fun w =>
      negb (Nat.eqb c ws) && Manager.is_open c w
      && bool_decide (ws_environmentId c w = envId)) ;;
    if ok then Manager.ws_send c m else ret tt).

Definition handle_getFiles (ws : client) (environmentId : option string) : M unit :=
  match truthy environmentId with
  | None => throw "environmentId is required"
  | Some environmentId =>
      set_environmentId ws environmentId >>
      manager_registerClient environmentId ws >>
      files <- manager_getAllFilesForEnvironment environmentId ;;
      Manager.ws_send ws (MFiles files)
  end.

Definition handle_diffLine (ws : client) (environmentId fileName op : option string)
    (lineNumber : option nat) (lineContent : line_arg) (count : option Z) : M unit :=
  match truthy environmentId, truthy fileName, lineNumber, op ≫= parse_op with
  | Some environmentId, Some fileName, Some lineNumber, Some op =>
      let fileKey := environmentId +:+ "_" +:+ fileName in
      stored <- get fileKey ;;
      match (if Manager.falsy stored then VStr EmptyString else stored) with
      | VStr fileContent =>
          let edited :=
            edit_content fileName op lineNumber lineContent count fileContent in
          let newContent := fst edited in
          let updates := snd edited in
          set fileKey (VStr newContent) >>
          for_each updates (fun u =>
            send_to_others ws (Some environmentId) (MLineUpdated u))
      | _ => throw "fileContent.split is not a function"
      end
  | _, _, _, _ => throw "environmentId, fileName, op, and lineNumber are required"
  end.

Definition handle_run (ws : client) (fileNames : option (list string))
    (environmentId hash : option string) (clientFiles : option (list (string * value)))
    : M unit :=
  match fileNames, truthy environmentId with
  | Some fileNames, Some environmentId =>
      envId <- gets (ws_environmentId ws) ;;
      send_to_others ws envId MRunRan >>
      bound <- gets (ws_environmentId ws) ;;
      (if bool_decide (bound ≠ Some environmentId) then
         set_environmentId ws environmentId >>
         manager_registerClient environmentId ws
       else ret tt) >>
      success <- manager_startSession environmentId fileNames hash clientFiles ;;
      Manager.ws_send ws (MRunStatus success)
  | _, _ => throw "fileNames (array) and environmentId are required"
  end.

Definition handle_input (ws : client) (input : option string) : M unit :=
  match input with
  | None => throw "Input data is required"
  | Some input =>
      environmentId <- gets (ws_environmentId ws) ;;
      match truthy environmentId with
      | None => throw "No active environment"
      | Some environmentId =>
          ok <- manager_sendInput environmentId input ;;
          if ok then ret tt else throw "Failed to send input"
      end
  end.

Definition handle_stop (ws : client) : M unit :=
  environmentId <- gets (ws_environmentId ws) ;;
  match truthy environmentId with
  | None => throw "No active environment"
  | Some environmentId =>
      success <- manager_stopSession environmentId ;;
      manager_broadcastToEnvironment environmentId
        (MStopped environmentId success None)
  end.

Definition handle_renameFile (ws : client) (environmentId oldName newName : option string)
    : M unit :=
  match truthy environmentId, truthy oldName, truthy newName with
  | Some environmentId, Some oldName, Some newName =>
      manager_renameFile environmentId oldName newName >>
      Manager.ws_send ws (MRenameFileStatus true oldName newName) >>
      files <- manager_getAllFilesForEnvironment environmentId ;;
      manager_broadcastToEnvironment environmentId (MFiles files)
  | _, _, _ => throw "environmentId, oldName, and newName are required"
  end.

Definition handle_deleteFile (ws : client) (environmentId fileName : option string)
    : M unit :=
  match truthy environmentId, truthy fileName with
  | Some environmentId, Some fileName =>
      manager_deleteFile environmentId fileName >>
      Manager.ws_send ws (MDeleteFileStatus true fileName) >>
      files <- manager_getAllFilesForEnvironment environmentId ;;
      manager_broadcastToEnvironment environmentId (MFiles files)
  | _, _ => throw "environmentId and fileName are required"
  end.

Definition handle_duplicateFile (ws : client) (environmentId fileName : option string)
    : M unit :=
  match truthy environmentId, truthy fileName with
  | Some environmentId, Some fileName =>
      newName <- manager_duplicateFile environmentId fileName ;;
      Manager.ws_send ws (MDuplicateFileStatus true fileName newName) >>
      files <- manager_getAllFilesForEnvironment environmentId ;;
      manager_broadcastToEnvironment environmentId (MFiles files)
  | _, _ => throw "environmentId and fileName are required"
  end.

Definition handle_cursorMove (ws : client) (line ch file : json)
    (environmentId : option string) : M unit :=
  bound <- gets (ws_environmentId ws) ;;
  let envId := match truthy environmentId with
               | Some e => Some e
               | None => truthy bound
               end in
  match envId with
  | None => throw "environmentId is required for cursorMove"
  | Some envId =>
      set_environmentId ws envId >>
      sessionId <- gets (ws_sessionId ws) ;;
      send_to_others ws (Some envId) (MMovedCursor sessionId line ch file)
  end.

Definition handle_inputChange (ws : client) (input : json) : M unit :=
  envId <- gets (ws_environmentId ws) ;;
  send_to_others ws envId (MInputChanged input).

Definition handleWebSocketMessage (ws : client) (data : request) : M unit :=
  match data with
  | ReqGetFiles environmentId => handle_getFiles ws environmentId
  | ReqDiffLine environmentId fileName op lineNumber lineContent count =>
      handle_diffLine ws environmentId fileName op lineNumber lineContent count
  | ReqRun fileNames environmentId hash files =>
      handle_run ws fileNames environmentId hash files
  | ReqInput input => handle_input ws input
  | ReqStop => handle_stop ws
  | ReqRenameFile environmentId oldName newName =>
      handle_renameFile ws environmentId oldName newName
  | ReqDeleteFile environmentId fileName => handle_deleteFile ws environmentId fileName
  | ReqDuplicateFile environmentId fileName =>
      handle_duplicateFile ws environmentId fileName
  | ReqCursorMove line ch file environmentId =>
      handle_cursorMove ws line ch file environmentId
  | ReqInputChange input => handle_inputChange ws input
  | ReqUnknown event => throw ("Unknown event: " +:+ event)
  end.

(** The [message] listener: [data] is [inl details] when [JSON.parse]
    throws. *)
Definition on_message (ws : client) (data : string + request) : M unit :=
  match data with
  | inl details => Manager.ws_send ws (MError "Invalid JSON" (Some details))
  | inr data =>
      sessionId <- gets (ws_sessionId ws) ;;
      if String.eqb sessionId EmptyString then
        Manager.ws_send ws (MError "No active session" None)
      else
        try_catch (handleWebSocketMessage ws data)
          (fun error =>
             Manager.ws_send ws (MError "Error processing request" (Some error)))
  end.

(** The [connection] listener for a connection whose session token
    verifies: [sessionId] is the fresh UUID. *)
Definition on_connection (ws : client) (sessionId : string) : M unit :=
  modify (with_sockets (insert ws (Socket sessionId None true))) >>
  modify (with_wss_clients (Manager.set_add ws)) >>
  Manager.ws_send ws (MConnected sessionId).

(** The [close] listener. When it runs the socket is no longer open and
    the server has dropped it from [wss.clients]. *)
Definition on_close (ws : client) : M unit :=
  modify (with_sockets
            (alter (fun s => Socket (sessionId s) (environmentId s) false) ws)) >>
  modify (with_wss_clients (Manager.set_delete ws)) >>
  environmentId <- gets (ws_environmentId ws) ;;
  match truthy environmentId with
  | None => ret tt
  | Some e =>
      manager_unregisterClient e ws >>
      sessionId <- gets (ws_sessionId ws) ;;
      send_to_others ws environmentId (MDeleteCursor sessionId)
  end.

End WithEnvironment.
End Dispatcher.

(** ** Replaying an update stream *)

Module Replay.
Import Js Edit Sys.

(** Modelled from the spec: the receiver of [lineUpdated] events is not
    part of this repository. An event is applied to a copy of the content
    the way section 4.2 words the operation it reports: split on the
    newline character, then an [insert] splices the line in at
    [lineNumber], a [delete] removes the line at [lineNumber], a
    [replace] overwrites the line at [lineNumber]; then the lines are
    rejoined. *)
Definition replay_lines (u : update) (lines : list string) : list string :=
  match u_op u with
  | Insert => splice (u_lineNumber u) 0 [default EmptyString (u_lineContent u)] lines
  | Delete => splice (u_lineNumber u) 1 [] lines
  | Replace => <[u_lineNumber u := default EmptyString (u_lineContent u)]> lines
  end.

Definition replay_update (content : string) (u : update) : string :=
  join_nl (replay_lines u (split_nl content)).

Definition replay (updates : list update) (content : string) : string :=
  fold_left replay_update updates content.

(** A receiver that splits the content once and keeps the array between
    events, for comparison. *)
Definition replay_kept (updates : list update) (content : string) : string :=
  join_nl (fold_left (fun lines u => replay_lines u lines) updates (split_nl content)).

(** One edit of a file: the operation-specific fields of a [diffLine]
    request. *)
Record edit := Edit {
  e_op : edit_op;
  e_lineNumber : nat;
  e_lineContent : line_arg;
  e_count : option Z
}.



(** A valid edit: every line value it carries is a single line. *)
Definition valid_edit (e : edit) : Prop :=
  match e_op e with
  | Delete => True
  | _ => Forall (fun v => nl_free v = true) (to_array (e_lineContent e))
  end.

(** The edits applied one after the other to a content, each to what the
    one before persisted, with the updates in the order they are pushed. *)
Definition run_step (fileName : string) (acc : string * list update) (e : edit)
    : string * list update :=
  let r := edit_content fileName (e_op e) (e_lineNumber e) (e_lineContent e)
             (e_count e) (fst acc) in
  (fst r, snd acc ++ snd r).

Definition run_edits (fileName : string) (es : list edit) (content : string)
    : string * list update :=
  fold_left (run_step fileName) es (content, []).

(** The arrays [split] produces and the loops keep: every element is a
    single line. *)
Definition single_lines (l : list string) : Prop :=
  Forall (fun x => nl_free x = true) l.



End Replay.

(** ** Closed forms of the replace branch *)

Module EditSpec.
Import Js Edit.

(** The updates of a replace, read off the length [len] the array had
    before the loop: a [replace] while the target index is inside, an
    [insert] from there on. *)
Fixpoint replace_updates (fileName : string) (lineNumber i : nat)
    (vs : list string) (len : nat) : list update :=
  match vs with
  | [] => []
  | v :: vs' =>
      Update fileName (if lineNumber + i <? len then Replace else Insert)
             (lineNumber + i) (Some v)
        :: replace_updates fileName lineNumber (S i) vs' len
  end.

(** The array after a replace: the values overwrite and then extend the
    array from [lineNumber] when it is inside or at the end; a
    [lineNumber] beyond the end appends them. *)
Definition replace_result (lineNumber : nat) (vs lines : list string) : list string :=
  if lineNumber <=? length lines
  then take lineNumber lines ++ vs ++ drop (lineNumber + length vs) lines
  else lines ++ vs.

End EditSpec.

(** ** What the manager's operations leave in the trace *)

Module ManagerSpec.
Import Js Edit Sys Manager.

(** The clients registered for an environment ([[]] without an entry). *)
Definition clients_of (environmentId : string) (w : world) : list client :=
  default [] (clientsMap w !! environmentId).

(** The sends of one [broadcastToEnvironment]. *)
Definition broadcast_sends (environmentId : string) (m : message) (w : world)
    : list effect :=
  map (fun c => ESend c m)
      (List.filter (fun c => is_open c w) (clients_of environmentId w)).

(** The world after the [delete] of [unregisterClient]. *)
Definition unregistered (environmentId : string) (c : client) (cs : list client)
    (w : world) : world :=
  with_clientsMap (fun m => <[environmentId := set_delete c cs]> m) w.


(** The arguments of the [docker kill] that [stopSession] launches. *)
Definition docker_kill_args (s : session) : list (option string) :=
  [Some "kill"; Some (containerName s)].

(** Every event [Q] of [t] comes after every event [P] of [t]. *)
Definition all_before (P Q : effect → Prop) (t : list effect) : Prop :=
  ∀ i j e1 e2, t !! i = Some e1 → t !! j = Some e2 → P e1 → Q e2 → i < j.

Definition is_run_spawn (e : effect) : Prop :=
  ∃ h args, e = ESpawn h "docker" (Some "run" :: args).

Definition is_output (e : effect) : Prop :=
  ∃ c output, e = ESend c (MOutput output).

Definition is_restarted (environmentId : string) (e : effect) : Prop :=
  ∃ c, e = ESend c (MStopped environmentId true (Some "restarted")).

Definition is_exit (e : effect) : Prop :=
  ∃ c code, e = ESend c (MExit code).

(** The trace of [w'] is the trace of [w] followed by events that all
    satisfy [P]. *)
Definition extends_with (P : effect → Prop) (w w' : world) : Prop :=
  ∃ t, trace w' = trace w ++ t ∧ Forall P t.

Definition same_sessions (w w' : world) : Prop := sessions w' = sessions w.

(** The sockets and the registry are as before. *)
Definition same_registry (w w' : world) : Prop :=
  sockets w' = sockets w ∧ wss_clients w' = wss_clients w
  ∧ clientsMap w' = clientsMap w.

(** Client [c], if registered for [e], still is. *)
Definition keeps_client (e : string) (c : client) (w w' : world) : Prop :=
  c ∈ clients_of e w → c ∈ clients_of e w'.

End ManagerSpec.

(** ** The receivers of a relayed message *)

Module DispatcherSpec.
Import Js Edit Sys Manager Dispatcher.

(** The test of the loops over [wss.clients]. *)
Definition is_other (ws : client) (envId : option string) (c : client) (w : world)
    : bool :=
  negb (Nat.eqb c ws) && is_open c w && bool_decide (ws_environmentId c w = envId).

(** The clients such a loop sends to. *)
Definition others (ws : client) (envId : option string) (w : world) : list client :=
  List.filter (fun c => is_other ws envId c w) (wss_clients w).




End DispatcherSpec.

(** ** Scenarios *)

Module Scenario.
Import Js Edit Sys Manager.

(** No call out of the process throws. *)
Definition never : world → call → option string := fun _ _ => None.

(** Launching [docker kill] throws; every other call succeeds. *)
Definition kill_launch_fails : world → call → option string :=
  fun _ c =>
    match c with
    | PtySpawn _ (Some "kill" :: _) => Some "spawn failed"
    | _ => None
    end.

(** Launching [docker run] throws; every other call succeeds. *)
Definition run_launch_fails : world → call → option string :=
  fun _ c =>
    match c with
    | PtySpawn _ (Some "run" :: _) => Some "spawn failed"
    | _ => None
    end.

(** A stand-in for the digest: the entries written out. The properties
    below hold for every digest function; the scenarios need one to run. *)
Definition entries_digest (files : list (string * value)) : string :=
  String.concat ";" (map (fun e => fst e +:+ "=" +:+ store_text (snd e)) files).

(** The platform of the scenarios. The properties below hold for every
    platform; the scenarios need one to run, and these stand-ins agree
    with the real functions on what the scenarios give them: the stored
    texts are the literals below or text that is no JSON ([print(1)],
    [all:], [a], a line followed by a newline, and the like), the path
    segments need no normalisation, the environment identifiers hold no
    special character of a glob, and no scenario writes a file from data
    that is not a string.

    [JSON.parse] on the texts the scenarios store: the literals [null],
    [true], [false] and [0] parse, and no other text of a scenario is
    JSON. *)
Definition parse_literal (text : string) : option value :=
  if String.eqb text "null" then Some VNull
  else if String.eqb text "true" then Some (VBool true)
  else if String.eqb text "false" then Some (VBool false)
  else if String.eqb text "0" then Some (VNum "0")
  else None.

(** [path.join] of two segments that need no normalisation. *)
Definition join_plain (a b : string) : string := a +:+ "/" +:+ b.

(** [MATCH] for a pattern whose only special character is the [*] it
    ends in: the test for the prefix before it. *)
Definition match_prefix (pattern key : string) : bool :=
  String.prefix (slice_to (String.length pattern - 1) pattern) key.

#[export] Instance platform : Platform := {|
  JSON_parse := parse_literal;
  path_join := join_plain;
  scan_match := match_prefix;
  data_text := store_text
|}.

Definition tmp : string := "/tmp/nixpackpy".

(** Environment [env1] with three stored files and one open client,
    client 1, registered and bound to it; nothing runs. *)
Definition idle : world :=
  World
    (<["env1_main.py" := "print(1)"]>
       (<["env1_Makefile" := "all:"]> (<["env1_.bashrc" := "alias l=ls"]> ∅)))
    ∅ ∅ ∅
    (<["env1" := [1]]> ∅)
    (<[1 := Socket "s1" (Some "env1") true]> ∅)
    [1] ∅ 0 [].

(** The same with a session for [env1] on handle 0. *)
Definition running : world :=
  with_next_pty (fun _ => 1)
    (with_listeners (insert 0 "env1")
       (with_sessions
          (insert "env1" (Session 0 "/tmp/nixpackpy/env1" "nixpackpy_env1")) idle)).

(** The same with a second open client, client 2, registered and bound
    to [env1]. *)
Definition shared : world :=
  with_wss_clients (fun _ => [1; 2])
    (with_sockets (insert 2 (Socket "s2" (Some "env1") true))
       (with_clientsMap (insert "env1" [1; 2]) running)).

End Scenario.

(** ** [DatabaseClasses.ts] *)

Module Pg.

Section WithPool.

(** The values a query carries and a result holds ([any] in the source). *)
Variable value : Type.

(** What the pool is connected to. *)
Variable pool_state : Type.

(** The part of a [QueryResult] of [pg] that the classes read. *)
Record QueryResult := mkQueryResult {
  res_rowCount : option nat;
  res_rows : list value;
  res_command : string;
  res_fields : value;
  res_oid : value;
}.

(** [pool.query(text, values)]: the promise resolves to a result or
    rejects, here with the message of the error. *)
Variable pool_query :
  string → list value → pool_state → (string + QueryResult) * pool_state.

(** An instance of [Query]. [fields] and [oid] are [None] while they
    hold the empty string they start with; [rowCount] is [None] for
    [null]. *)
Record Query := mkQuery {
  query : string;
  variables : list value;
  rowCount : option nat;
  rows : list value;
  command : string;
  fields : option value;
  oid : option value;
  error : option string;
}.

(** [new Query(query, variables, pool)] *)
Definition new_Query (query : string) (variables : list value) : Query :=
  mkQuery query variables (Some 0) [] EmptyString None None None.

(** [Query.execute()]: what the pool throws is caught and kept. *)
Definition Query_execute (q : Query) (p : pool_state) : Query * pool_state :=
  match pool_query (query q) (variables q) p with
  | (inr res, p') =>
      (mkQuery (query q) (variables q) (res_rowCount res) (res_rows res)
         (res_command res) (Some (res_fields res)) (Some (res_oid res)) None, p')
  | (inl e, p') =>
      (mkQuery (query q) (variables q) (rowCount q) (rows q) (command q)
         (fields q) (oid q) (Some e), p')
  end.

Definition Query_ok (q : Query) : bool :=
  match error q with
  | None => true
  | Some _ => false
  end.

Definition Query_length (q : Query) : nat := length (rows q).

Definition Query_toString (q : Query) : string := query q.

(** An instance of [Database]: the counter and the pool. *)
Record Database := mkDatabase {
  commandsExecuted : nat;
  pool : pool_state;
}.

(** The [forEach] of [Database.execute] from element [index] on, with
    [query] and [variables] as the pair [acc]; [values !! index] is
    [Some] exactly when [index < values.length]. *)
Fixpoint build_query (strings : list string) (index : nat) (values : list value)
    (acc : string * list value) : string * list value :=
  match strings with
  | [] => acc
  | s :: strings' =>
      let query := fst acc +:+ s in
      build_query strings' (S index) values
        match values !! index with
        | Some v => (query +:+ "$" +:+ pretty (index + 1), snd acc ++ [v])
        | None => (query, snd acc)
        end
  end.

Definition Database_execute (db : Database) (strings : list string)
    (values : list value) : Query * Database :=
  let built := build_query strings 0 values (EmptyString, []) in
  let r := Query_execute (new_Query (fst built) (snd built)) (pool db) in
  (fst r, mkDatabase (S (commandsExecuted db)) (snd r)).

(** [#testPool()]: [inr None] for [true], [inr (Some msg)] for the
    [Error] object it returns; a rejection of the pool is not caught. *)
Definition Database_testPool (db : Database)
    : (string + option string) * Database :=
  match pool_query "SELECT 1;" [] (pool db) with
  | (inr testQuery, p') =>
      (inr (if bool_decide (res_rowCount testQuery = Some 1) then None
            else Some "Database pool test query failed"),
       mkDatabase (commandsExecuted db) p')
  | (inl e, p') => (inl e, mkDatabase (commandsExecuted db) p')
  end.

Definition Database_isQueryable (db : Database) : (string + bool) * Database :=
  match Database_testPool db with
  | (inr None, db') => (inr true, db')
  | (inr (Some _), db') => (inr false, db')
  | (inl e, db') => (inl e, db')
  end.

End WithPool.

(** The text [Database.execute] builds, from the strings and the number
    of values alone. *)
Fixpoint template_text (strings : list string) (index n : nat) : string :=
  match strings with
  | [] => EmptyString
  | s :: strings' =>
      s +:+ (if index <? n then "$" +:+ pretty (index + 1) else EmptyString)
        +:+ template_text strings' (S index) n
  end.

End Pg.

(** ** Reading objects, and what the registry keeps *)

Module ExtraSpec.
Import Js Edit Sys Manager.

(** [obj[k]] on an object kept as its entries ([None] for [undefined]). *)
Fixpoint obj_get {V} (k : string) (obj : list (string * V)) : option V :=
  match obj with
  | [] => None
  | (k', v) :: obj' => if String.eqb k' k then Some v else obj_get k obj'
  end.

(** Every set of the registry has a member and holds no client twice. *)
Definition registry_ok (w : world) : Prop :=
  ∀ e cs, clientsMap w !! e = Some cs → cs ≠ [] ∧ NoDup cs.

Definition keeps_registry_ok (w w' : world) : Prop :=
  registry_ok w → registry_ok w'.

(** The content [buildFileObject] gives a requested file. *)
Definition built_content `{!Platform} (environmentId fileName : string) (w : world)
    : value :=
  let stored := parsed (redis w !! (environmentId +:+ "_" +:+ fileName)) in
  if falsy stored
  then VStr (if String.eqb fileName "main.py" then default_main_py else EmptyString)
  else stored.

(** The object [buildFileObject] builds from the requested names. *)
Definition built_files `{!Platform} (environmentId : string) (fileNames : list string)
    (w : world) : list (string * value) :=
  fold_left (fun acc r => obj_set (fst r) (snd r) acc)
    (map (fun n => (n, built_content environmentId n w)) fileNames) [].

(** The entry file [startSession] passes to the interpreter. *)
Definition entry_file (fileNames : list string) : option string :=
  if bool_decide ("main.py" ∈ fileNames) then Some "main.py" else head fileNames.

(** The world a start leaves, for an environment without a session, when
    no call out of the process throws. *)
Definition started `{!Platform} (baseTmpDir environmentId : string)
    (fileNames : list string) (w : world) : world :=
  let dir := path_join baseTmpDir environmentId in
  let name := "nixpackpy_" +:+ environmentId in
  with_sessions (insert environmentId (Session (next_pty w) dir name))
    (with_listeners (insert (next_pty w) environmentId)
       (add_trace [ESpawn (next_pty w) "docker"
                     (dockerArgs name dir (entry_file fileNames))]
          (with_next_pty S
             (with_fs_files
                (fold_left
                   (fun m en => <[path_join dir (fst en) := written (snd en)]> m)
                   (built_files environmentId fileNames w))
                (with_fs_dirs (fun d => {[dir]} ∪ d) w))))).

(** The message with which [handleWebSocketMessage] refuses a request
    for what the request itself lacks, [None] when it does not. *)
Definition rejected (data : Dispatcher.request) : option string :=
  match data with
  | Dispatcher.ReqGetFiles environmentId =>
      match Dispatcher.truthy environmentId with
      | None => Some "environmentId is required"
      | Some _ => None
      end
  | Dispatcher.ReqDiffLine environmentId fileName op lineNumber _ _ =>
      match Dispatcher.truthy environmentId, Dispatcher.truthy fileName, lineNumber,
            op ≫= parse_op with
      | Some _, Some _, Some _, Some _ => None
      | _, _, _, _ => Some "environmentId, fileName, op, and lineNumber are required"
      end
  | Dispatcher.ReqRun fileNames environmentId _ _ =>
      match fileNames, Dispatcher.truthy environmentId with
      | Some _, Some _ => None
      | _, _ => Some "fileNames (array) and environmentId are required"
      end
  | Dispatcher.ReqInput None => Some "Input data is required"
  | Dispatcher.ReqRenameFile environmentId oldName newName =>
      match Dispatcher.truthy environmentId, Dispatcher.truthy oldName,
            Dispatcher.truthy newName with
      | Some _, Some _, Some _ => None
      | _, _, _ => Some "environmentId, oldName, and newName are required"
      end
  | Dispatcher.ReqDeleteFile environmentId fileName
  | Dispatcher.ReqDuplicateFile environmentId fileName =>
      match Dispatcher.truthy environmentId, Dispatcher.truthy fileName with
      | Some _, Some _ => None
      | _, _ => Some "environmentId and fileName are required"
      end
  | Dispatcher.ReqUnknown event => Some ("Unknown event: " +:+ event)
  | _ => None
  end.

(** The error event the [message] listener sends for a handler that
    threw. *)
Definition processing_error (ws : client) (msg : string) : effect :=
  ESend ws (MError "Error processing request" (Some msg)).

(** The idle world with one more stored file, of environment [env1_b]. *)
Definition two_environments : world :=
  with_redis (insert "env1_b_notes.txt" "secret") Scenario.idle.

End ExtraSpec.

(** * Properties *)

(** ** Strings and arrays *)

Module JsFacts.
Import Js.

Lemma split_nl_nonempty (s : string) : split_nl s ≠ [].
Proof.
  destruct s as [|c s]; simpl; [done|].
  destruct (Ascii.eqb c newline); [done|].
  by destruct (split_nl s).
Qed.

Lemma split_nl_free (s : string) : Forall (fun x => nl_free x = true) (split_nl s).
Proof.
  induction s as [|c s IH]; simpl.
  - by constructor.
  - destruct (Ascii.eqb c newline) eqn:Hc.
    + by constructor.
    + destruct (split_nl s) as [|x r]; simpl.
      * constructor; [simpl; by rewrite Hc | done].
      * inversion IH; subst. constructor; [simpl; by rewrite Hc | done].
Qed.

Lemma join_split (s : string) : join_nl (split_nl s) = s.
Proof.
  induction s as [|c s IH]; simpl; [done|].
  destruct (Ascii.eqb c newline) eqn:Hc.
  - apply Ascii.eqb_eq in Hc. subst c.
    pose proof (split_nl_nonempty s) as Hne.
    destruct (split_nl s) as [|x r] eqn:Hs; [done|].
    simpl in *. by rewrite IH.
  - destruct (split_nl s) as [|x r] eqn:Hs; simpl in *.
    + by subst s.
    + destruct r; simpl in *; by subst s.
Qed.

Lemma split_single (x : string) : nl_free x = true → split_nl x = [x].
Proof.
  induction x as [|c x IH]; simpl; [done|].
  intros [Hc Hx]%andb_true_iff. apply negb_true_iff in Hc. rewrite Hc.
  by rewrite IH.
Qed.

Lemma split_app_nl (x s : string) :
  nl_free x = true → split_nl (x +:+ String newline s) = x :: split_nl s.
Proof.
  induction x as [|c x IH]; simpl.
  - intros _. reflexivity.
  - intros [Hc Hx]%andb_true_iff. apply negb_true_iff in Hc. rewrite Hc.
    by rewrite IH.
Qed.

Lemma split_join (l : list string) :
  l ≠ [] → Forall (fun x => nl_free x = true) l → split_nl (join_nl l) = l.
Proof.
  induction l as [|x l IH]; [done|]. intros _ Hall.
  inversion Hall as [|? ? Hx Hl]; subst.
  destruct l as [|y l].
  - by apply split_single.
  - change (join_nl (x :: y :: l))
      with (x +:+ String newline (join_nl (y :: l))).
    rewrite split_app_nl; [|done]. f_equal. by apply IH.
Qed.


Lemma slice_from_app (p q : string) : slice_from (String.length p) (p +:+ q) = q.
Proof. induction p as [|c p IH]; simpl; [by destruct q | done]. Qed.


End JsFacts.

(** ** The edit engine *)

Module EditFacts.
Import Js Edit EditSpec.

Lemma splice_length {A} (start dc : nat) (items l : list A) :
  length (splice start dc items l)
  = min start (length l) + length items + (length l - (start + dc)).
Proof. unfold splice. rewrite !length_app, length_take, length_drop. lia. Qed.

Lemma splice_beyond {A} (start : nat) (items l : list A) :
  length l ≤ start → splice start 0 items l = l ++ items.
Proof.
  intros H. unfold splice.
  rewrite take_ge by lia. rewrite drop_ge by lia. by rewrite app_nil_r.
Qed.

Lemma replace_updates_insert fileName n (vs : list string) : ∀ i len,
  len ≤ n + i → replace_updates fileName n i vs len = insert_updates fileName n i vs.
Proof.
  induction vs as [|x vs IH]; intros i len Hle; simpl; [done|].
  destruct (Nat.ltb_spec (n + i) len); [lia|].
  f_equal. apply IH. lia.
Qed.

Lemma replace_updates_lookup fileName n (vs : list string) len : ∀ i j v,
  vs !! j = Some v →
  replace_updates fileName n i vs len !! j
  = Some (Update fileName (if n + (i + j) <? len then Replace else Insert)
                 (n + (i + j)) (Some v)).
Proof.
  induction vs as [|x vs IH]; intros i j v Hj; [done|].
  destruct j as [|j]; simpl in *.
  - inversion Hj; subst. by replace (n + (i + 0)) with (n + i) by lia.
  - rewrite (IH (S i) j v Hj). by replace (n + (S i + j)) with (n + (i + S j)) by lia.
Qed.

(** The loop of the replace branch in closed form. *)
Lemma replace_loop_closed fileName n (vs : list string) : ∀ i lines ups,
  replace_loop fileName n i vs lines ups
  = (replace_result (n + i) vs lines,
     ups ++ replace_updates fileName n i vs (length lines)).
Proof.
  induction vs as [|v vs IH]; intros i lines ups; simpl.
  - unfold replace_result. f_equal; [|by rewrite app_nil_r].
    destruct (Nat.leb_spec (n + i) (length lines)); simpl.
    + rewrite Nat.add_0_r. by rewrite take_drop.
    + by rewrite app_nil_r.
  - destruct (Nat.ltb_spec (n + i) (length lines)) as [Hlt|Hge].
    + rewrite IH. rewrite length_insert. rewrite <- app_assoc. simpl. f_equal.
      unfold replace_result. rewrite length_insert.
      destruct (Nat.leb_spec (n + S i) (length lines)); [|lia].
      destruct (Nat.leb_spec (n + i) (length lines)); [|lia].
      replace (n + S i) with (S (n + i)) by lia.
      rewrite take_S_r with (x := v) by (by apply list_lookup_insert_eq).
      rewrite take_insert_ge by lia.
      rewrite drop_insert_lt by lia.
      rewrite <- app_assoc. simpl.
      by replace (n + i + S (length vs)) with (S (n + i + length vs)) by lia.
    + rewrite IH. rewrite splice_beyond by lia.
      rewrite <- app_assoc. simpl. f_equal.
      * unfold replace_result. rewrite length_app. simpl.
        destruct (Nat.leb_spec (n + S i) (length lines + 1));
          destruct (Nat.leb_spec (n + i) (length lines)); try lia.
        -- assert (n + i = length lines) as Heq by lia.
           rewrite take_ge by (rewrite length_app; simpl; lia).
           rewrite drop_ge by (rewrite length_app; simpl; lia).
           rewrite Heq, take_ge by lia. rewrite drop_ge by lia.
           rewrite !app_nil_r. by rewrite <- app_assoc.
        -- by rewrite <- app_assoc.
      * f_equal. f_equal.
        rewrite !replace_updates_insert; [done | lia | rewrite length_app; simpl; lia].
Qed.

Lemma replace_result_length n (vs lines : list string) :
  length (replace_result n vs lines)
  = if n <=? length lines then max (length lines) (n + length vs)
    else length lines + length vs.
Proof.
  unfold replace_result. destruct (Nat.leb_spec n (length lines)).
  - rewrite !length_app, length_take, length_drop. lia.
  - by rewrite length_app.
Qed.

(** Where the values of a replace end up. *)
Lemma replace_result_lookup n (vs lines : list string) i v :
  vs !! i = Some v →
  replace_result n vs lines !! (min n (length lines) + i) = Some v.
Proof.
  intros Hi. unfold replace_result.
  destruct (Nat.leb_spec n (length lines)).
  - rewrite Nat.min_l by lia.
    rewrite lookup_app_r by (rewrite length_take; lia).
    rewrite length_take. replace (n + i - n `min` length lines) with i by lia.
    by rewrite lookup_app_l by (by eapply lookup_lt_Some).
  - rewrite Nat.min_r by lia.
    rewrite lookup_app_r by lia.
    by replace (length lines + i - length lines) with i by lia.
Qed.

(** The loop over [vs1 ++ vs2] is the loop over [vs2] resumed where the
    loop over [vs1] stops. *)
Lemma replace_loop_app fileName n (vs1 vs2 : list string) : ∀ i lines ups,
  replace_loop fileName n i (vs1 ++ vs2) lines ups
  = replace_loop fileName n (i + length vs1) vs2
      (fst (replace_loop fileName n i vs1 lines ups))
      (snd (replace_loop fileName n i vs1 lines ups)).
Proof.
  induction vs1 as [|v vs1 IH]; intros i lines ups; simpl.
  - by rewrite Nat.add_0_r.
  - replace (i + S (length vs1)) with (S i + length vs1) by lia.
    destruct (n + i <? length lines); apply IH.
Qed.



(** C4, as the code has it. In a [replace] with values [vs], iteration
    [i] starts from the array [before] left by the first [i] values.
    While [lineNumber + i] is inside [before], line [lineNumber + i] is
    overwritten with the value and a [replace] update at that index is
    pushed. From there on the value is appended at the end of the array,
    at index [length before], and an [insert] update carrying
    [lineNumber + i] is pushed; the two indices agree when [lineNumber]
    is at most the length the array had before the operation, and
    otherwise the value sits at that length plus [i]. *)
Theorem replace_overwrites_or_appends
    (fileName : string) (lineNumber : nat) (lineContent : line_arg)
    (count : option Z) (lines : list string) (i : nat) (v : string) :
  to_array lineContent !! i = Some v →
  let vs := to_array lineContent in
  let r := edit_lines fileName Replace lineNumber lineContent count lines in
  let started := replace_loop fileName lineNumber 0 (take i vs) lines [] in
  let before := fst started in
  replace_loop fileName lineNumber 0 vs lines []
    = replace_loop fileName lineNumber i (drop i vs) before (snd started)
  ∧ (lineNumber + i < length before →
       length before = length lines
       ∧ fst r !! (lineNumber + i) = Some v
       ∧ snd r !! i = Some (Update fileName Replace (lineNumber + i) (Some v)))
  ∧ (length before ≤ lineNumber + i →
       fst r !! length before = Some v
       ∧ snd r !! i = Some (Update fileName Insert (lineNumber + i) (Some v))
       ∧ (lineNumber ≤ length lines → length before = lineNumber + i)
       ∧ (length lines < lineNumber → length before = length lines + i)).
Proof.
  intros Hi vs r started before.
  assert (i < length vs) as Hlt by (by eapply lookup_lt_Some).
  assert (length before
          = if lineNumber <=? length lines
            then max (length lines) (lineNumber + i)
            else length lines + i) as Hbefore.
  { subst before started. rewrite replace_loop_closed. simpl.
    rewrite Nat.add_0_r, replace_result_length, length_take.
    by replace (i `min` length vs) with i by lia. }
  assert (fst r = replace_result lineNumber vs lines) as Hfst.
  { subst r. simpl. fold vs. rewrite replace_loop_closed. simpl.
    by rewrite Nat.add_0_r. }
  assert (snd r !! i
          = Some (Update fileName
                    (if lineNumber + i <? length lines then Replace else Insert)
                    (lineNumber + i) (Some v))) as Hsnd.
  { subst r. simpl. fold vs. rewrite replace_loop_closed. simpl.
    by rewrite (replace_updates_lookup _ _ _ _ 0 i v Hi). }
  pose proof (replace_result_lookup lineNumber vs lines i v Hi) as Hat.
  split_and!.
  - subst before started.
    rewrite <- (take_drop i vs) at 1. rewrite replace_loop_app.
    rewrite length_take. by replace (0 + i `min` length vs) with i by lia.
  - intros Hin. destruct (Nat.leb_spec lineNumber (length lines)); [|lia].
    split_and!.
    + lia.
    + rewrite Hfst. by rewrite Nat.min_l in Hat by lia.
    + rewrite Hsnd. destruct (Nat.ltb_spec (lineNumber + i) (length lines)); [done|lia].
  - intros Hout. split_and!.
    + rewrite Hfst, Hbefore.
      destruct (Nat.leb_spec lineNumber (length lines)).
      * rewrite Nat.min_l in Hat by lia.
        by replace (length lines `max` (lineNumber + i)) with (lineNumber + i) by lia.
      * by rewrite Nat.min_r in Hat by lia.
    + rewrite Hsnd. destruct (Nat.ltb_spec (lineNumber + i) (length lines)); [|done].
      destruct (Nat.leb_spec lineNumber (length lines)); lia.
    + intros Hle. destruct (Nat.leb_spec lineNumber (length lines)); lia.
    + intros Hgt. destruct (Nat.leb_spec lineNumber (length lines)); lia.
Qed.

(** A [replace] of two values at line 1 of a two-line file: the first
    overwrites line 1, the second is appended at index 2. *)
Lemma replace_two_at_line_one :
  let r := edit_lines "main.py" Replace 1 (LineMany ["x"; "y"]) None ["a"; "b"] in
  fst r = ["a"; "x"; "y"]
  ∧ fst r !! 2 = Some "y"
  ∧ snd r !! 1 = Some (Update "main.py" Insert 2 (Some "y")).
Proof.
  intros r. split; [reflexivity|].
  pose proof (replace_overwrites_or_appends "main.py" 1 (LineMany ["x"; "y"]) None
                ["a"; "b"] 1 "y" eq_refl) as H.
  simpl in H. destruct H as (_ & _ & H). specialize (H ltac:(lia)).
  destruct H as (Hat & Hup & _). split; [exact Hat | exact Hup].
Defined.

(** C4, as the claim words it, fails when [lineNumber] lies beyond the
    end: a [replace] at line 5 of a one-line file reaches the insert
    case ([1 <= 5 + 0]) and pushes an [insert] update at index 5, but the
    value is appended at index 1 and index 5 of the array holds nothing. *)
Lemma replace_beyond_end_appends :
  let r := edit_lines "main.py" Replace 5 (LineOne "x") None ["a"] in
  length ["a"] ≤ 5 + 0
  ∧ snd r = [Update "main.py" Insert 5 (Some "x")]
  ∧ fst r = ["a"; "x"]
  ∧ fst r !! (5 + 0) ≠ Some "x".
Proof.
  intros r. vm_compute. split_and!; [lia | done | done | done].
Qed.

End EditFacts.

(** ** Update-stream fidelity of the edit engine *)

Module ReplayFacts.
Import Js Edit Sys Replay JsFacts EditFacts.

Lemma splice_single_lines n k (items l : list string) :
  single_lines items → single_lines l → single_lines (splice n k items l).
Proof.
  intros Hi Hl. unfold splice, single_lines.
  rewrite !Forall_app. split_and!; [by apply Forall_take | done | by apply Forall_drop].
Qed.

Lemma insert_single_lines n v (l : list string) :
  nl_free v = true → single_lines l → single_lines (<[n:=v]> l).
Proof. intros Hv Hl. by apply Forall_insert. Qed.

Lemma splice_insert_nonempty n (items l : list string) :
  l ≠ [] → splice n 0 items l ≠ [].
Proof.
  intros Hl Heq. apply (f_equal length) in Heq.
  rewrite splice_length in Heq. simpl in Heq.
  destruct l; [done|]. simpl in Heq. lia.
Qed.

Lemma insert_nonempty n v (l : list string) : l ≠ [] → <[n:=v]> l ≠ [].
Proof.
  intros Hl Heq. apply (f_equal length) in Heq. rewrite length_insert in Heq.
  by destruct l.
Qed.

(** Inserting [v] at [n] and then [vs] one place further is inserting
    [v :: vs] at [n]; removing one line and then [k] more at the same
    place is removing [S k]. *)
Lemma splice_insert_cons n v (vs l : list string) :
  splice (S n) 0 vs (splice n 0 [v] l) = splice n 0 (v :: vs) l.
Proof.
  unfold splice. rewrite !Nat.add_0_r.
  destruct (decide (n ≤ length l)) as [Hle|Hgt].
  - rewrite take_app_ge by (rewrite length_take; lia).
    rewrite length_take. replace (S n - n `min` length l) with 1 by lia.
    rewrite drop_app_ge by (rewrite length_take; lia).
    rewrite length_take. replace (S n - n `min` length l) with 1 by lia.
    simpl. rewrite drop_0. by rewrite <- app_assoc.
  - rewrite (take_ge l n) by lia. rewrite (drop_ge l n) by lia.
    rewrite take_ge by (rewrite length_app; simpl; lia).
    rewrite drop_ge by (rewrite length_app; simpl; lia).
    simpl. rewrite !app_nil_r. by rewrite <- app_assoc.
Qed.

Lemma splice_delete_succ n k (l : list string) :
  splice n k [] (splice n 1 [] l) = splice n (S k) [] l.
Proof.
  unfold splice. simpl.
  destruct (decide (n ≤ length l)) as [Hle|Hgt].
  - rewrite take_app_ge by (rewrite length_take; lia).
    rewrite length_take. replace (n - n `min` length l) with 0 by lia.
    rewrite take_0, app_nil_r. f_equal.
    rewrite drop_app_ge by (rewrite length_take; lia).
    rewrite length_take, drop_drop. f_equal. lia.
  - rewrite !(take_ge l n) by lia. rewrite (drop_ge l (n + 1)) by lia.
    rewrite app_nil_r. rewrite (take_ge l n) by lia. by rewrite !drop_ge by lia.
Qed.

(** Replaying one event on the joined content is replaying it on the
    array, as long as the array is not empty ... *)
Lemma replay_update_join (u : update) (l : list string) :
  l ≠ [] → single_lines l →
  replay_update (join_nl l) u = join_nl (replay_lines u l).
Proof. intros Hne Hl. unfold replay_update. by rewrite split_join. Qed.

(** ... and a [delete] event does not even need that. *)
Lemma replay_delete_join (u : update) (l : list string) :
  u_op u = Delete → single_lines l →
  replay_update (join_nl l) u = join_nl (replay_lines u l).
Proof.
  intros Hop Hl. destruct l as [|x l]; [|by apply replay_update_join].
  unfold replay_update, replay_lines. rewrite Hop. simpl.
  unfold splice. destruct (u_lineNumber u) as [|m]; simpl; [done|].
  by rewrite ?take_nil, ?drop_nil.
Qed.

Lemma replay_app (us1 us2 : list update) (c : string) :
  replay (us1 ++ us2) c = replay us2 (replay us1 c).
Proof. unfold replay. apply fold_left_app. Qed.

(** The three branches, one after the other. *)
Lemma replay_insert_updates fileName n (vs : list string) : ∀ i l,
  l ≠ [] → single_lines l → single_lines vs →
  replay (insert_updates fileName n i vs) (join_nl l)
  = join_nl (splice (n + i) 0 vs l).
Proof.
  induction vs as [|v vs IH]; intros i l Hne Hl Hvs.
  - simpl. unfold splice. by rewrite app_nil_l, Nat.add_0_r, take_drop.
  - inversion Hvs as [|? ? Hv Hvs']; subst.
    simpl. rewrite replay_update_join by done.
    unfold replay_lines. simpl.
    fold (replay (insert_updates fileName n (S i) vs)
            (join_nl (splice (n + i) 0 [v] l))).
    rewrite IH; [| by apply splice_insert_nonempty
                 | apply splice_single_lines; [by repeat constructor | done]
                 | done].
    replace (n + S i) with (S (n + i)) by lia.
    by rewrite splice_insert_cons.
Qed.

Lemma replay_delete_updates fileName n k : ∀ l,
  single_lines l →
  replay (replicate k (Update fileName Delete n None)) (join_nl l)
  = join_nl (splice n k [] l).
Proof.
  induction k as [|k IH]; intros l Hl.
  - simpl. unfold splice. by rewrite app_nil_l, Nat.add_0_r, take_drop.
  - simpl. rewrite replay_delete_join by done.
    unfold replay_lines. simpl.
    fold (replay (replicate k (Update fileName Delete n None))
            (join_nl (splice n 1 [] l))).
    rewrite IH by (apply splice_single_lines; [constructor | done]).
    by rewrite splice_delete_succ.
Qed.

Lemma replay_replace_loop fileName n (vs : list string) : ∀ i l ups,
  l ≠ [] → single_lines l → single_lines vs →
  ∃ new,
    snd (replace_loop fileName n i vs l ups) = ups ++ new
    ∧ replay new (join_nl l) = join_nl (fst (replace_loop fileName n i vs l ups)).
Proof.
  induction vs as [|v vs IH]; intros i l ups Hne Hl Hvs.
  - exists []. simpl. by rewrite app_nil_r.
  - inversion Hvs as [|? ? Hv Hvs']; subst. simpl.
    destruct (n + i <? length l).
    + destruct (IH (S i) (<[n + i:=v]> l)
                  (ups ++ [Update fileName Replace (n + i) (Some v)]))
        as (new & Hsnd & Hrep);
        [by apply insert_nonempty | by apply insert_single_lines | done |].
      exists (Update fileName Replace (n + i) (Some v) :: new). split.
      * by rewrite Hsnd, <- app_assoc.
      * simpl. rewrite replay_update_join by done. exact Hrep.
    + destruct (IH (S i) (splice (n + i) 0 [v] l)
                  (ups ++ [Update fileName Insert (n + i) (Some v)]))
        as (new & Hsnd & Hrep);
        [ by apply splice_insert_nonempty
        | apply splice_single_lines; [by repeat constructor | done]
        | done |].
      exists (Update fileName Insert (n + i) (Some v) :: new). split.
      * by rewrite Hsnd, <- app_assoc.
      * simpl. rewrite replay_update_join by done. exact Hrep.
Qed.

(** One valid edit, on the array and on the content: replaying its
    updates on what it read gives what it wrote. *)
Lemma replay_edit_lines fileName (e : edit) (l : list string) :
  valid_edit e → l ≠ [] → single_lines l →
  let r := edit_lines fileName (e_op e) (e_lineNumber e) (e_lineContent e)
             (e_count e) l in
  replay (snd r) (join_nl l) = join_nl (fst r).
Proof.
  intros Hvalid Hne Hl r. subst r. unfold valid_edit in *.
  destruct (e_op e); simpl.
  - rewrite replay_insert_updates by done. by rewrite Nat.add_0_r.
  - by rewrite replay_delete_updates.
  - destruct (replay_replace_loop fileName (e_lineNumber e)
                (to_array (e_lineContent e)) 0 l [] Hne Hl Hvalid)
      as (new & Hsnd & Hrep).
    rewrite Hsnd. exact Hrep.
Qed.

Lemma replay_edit_content fileName (e : edit) (content : string) :
  valid_edit e →
  let r := edit_content fileName (e_op e) (e_lineNumber e) (e_lineContent e)
             (e_count e) content in
  replay (snd r) content = fst r.
Proof.
  intros Hvalid r. subst r. unfold edit_content.
  pose proof (replay_edit_lines fileName e (split_nl content) Hvalid
                (split_nl_nonempty content) (split_nl_free content)) as H.
  simpl in H. rewrite join_split in H.
  by destruct (edit_lines _ _ _ _ _ _).
Qed.

(** A sequence of valid edits. *)
Lemma replay_run_steps fileName (es : list edit) : ∀ c0 us0,
  Forall valid_edit es →
  ∃ us,
    snd (fold_left (run_step fileName) es (c0, us0)) = us0 ++ us
    ∧ replay us c0 = fst (fold_left (run_step fileName) es (c0, us0)).
Proof.
  induction es as [|e es IH]; intros c0 us0 Hall.
  - exists []. simpl. by rewrite app_nil_r.
  - inversion Hall as [|? ? He Hes]; subst.
    pose proof (replay_edit_content fileName e c0 He) as Hone. simpl in Hone.
    change (fold_left (run_step fileName) (e :: es) (c0, us0))
      with (fold_left (run_step fileName) es (run_step fileName (c0, us0) e)).
    unfold run_step at 2 4. simpl fst. simpl snd.
    set (r := edit_content fileName (e_op e) (e_lineNumber e)
                (e_lineContent e) (e_count e) c0) in *.
    destruct (IH (fst r) (us0 ++ snd r) Hes) as (us & Hsnd & Hrep).
    exists (snd r ++ us). split.
    + by rewrite Hsnd, <- app_assoc.
    + rewrite replay_app. by rewrite Hone.
Qed.

Lemma replay_run_edits fileName (es : list edit) (content : string) :
  Forall valid_edit es →
  replay (snd (run_edits fileName es content)) content
  = fst (run_edits fileName es content).
Proof.
  intros Hall. unfold run_edits.
  destruct (replay_run_steps fileName es content [] Hall) as (us & Hsnd & Hrep).
  rewrite Hsnd. simpl. exact Hrep.
Qed.

End ReplayFacts.

(** ** Computations on the world *)

Module SysFacts.
Import Js Edit Sys.
Open Scope js_scope.

Lemma bind_inr {A B} (m : M A) (k : A → M B) w a w' :
  m w = (inr a, w') → bind m k w = k a w'.
Proof. intros H. unfold bind. by rewrite H. Qed.

Lemma bind_inl {A B} (m : M A) (k : A → M B) w e w' :
  m w = (inl e, w') → bind m k w = (inl e, w').
Proof. intros H. unfold bind. by rewrite H. Qed.

Lemma try_catch_inr {A} (m : M A) (h : string → M A) w a w' :
  m w = (inr a, w') → try_catch m h w = (inr a, w').
Proof. intros H. unfold try_catch. by rewrite H. Qed.


Lemma add_trace_nil w : add_trace [] w = w.
Proof. destruct w. unfold add_trace, with_trace. simpl. by rewrite app_nil_r. Qed.

Lemma add_trace_app w t1 t2 :
  add_trace t2 (add_trace t1 w) = add_trace (t1 ++ t2) w.
Proof. unfold add_trace, with_trace. simpl. by rewrite app_assoc. Qed.

(** A loop that sends [m] to the elements that pass a test which does
    not read the trace: it sends to the elements that pass the test in
    the world the loop starts from, in order. *)
Lemma for_each_sends (cond : client → world → bool) (m : message) (cs : list client) :
  (∀ c t w, cond c (add_trace t w) = cond c w) →
  ∀ w,
    for_each cs (fun c =>
      ok <- gets (cond c) ;; if ok then emit (ESend c m) else ret tt) w
    = (inr tt,
       add_trace (map (fun c => ESend c m) (List.filter (fun c => cond c w) cs)) w).
Proof.
  intros Hcond. induction cs as [|c cs IH]; intros w.
  - simpl. unfold ret. by rewrite add_trace_nil.
  - simpl. unfold bind at 1. unfold bind at 1. unfold gets at 1.
    destruct (cond c w) eqn:Hc.
    + unfold emit, modify. rewrite IH.
      rewrite add_trace_app. simpl.
      do 4 f_equal. apply List.filter_ext. intros c'. apply Hcond.
    + unfold ret at 1. apply IH.
Qed.

(** *** Relations every step of a computation keeps *)

Section Preserves.

Context (R : world → world → Prop) `{!Reflexive R} `{!Transitive R}.

Definition preserves {A} (m : M A) : Prop := ∀ w, R w (snd (m w)).

Lemma preserves_ret {A} (a : A) : preserves (ret a).
Proof. intros w. simpl. reflexivity. Qed.

Lemma preserves_throw {A} (e : string) : preserves (@throw A e).
Proof. intros w. simpl. reflexivity. Qed.

Lemma preserves_gets {A} (f : world → A) : preserves (gets f).
Proof. intros w. simpl. reflexivity. Qed.

Lemma preserves_modify (f : world → world) :
  (∀ w, R w (f w)) → preserves (modify f).
Proof. intros H w. simpl. apply H. Qed.

Lemma preserves_bind {A B} (m : M A) (k : A → M B) :
  preserves m → (∀ a, preserves (k a)) → preserves (bind m k).
Proof.
  intros Hm Hk w. unfold bind. specialize (Hm w).
  destruct (m w) as [[e|a] w1]; simpl in *; [done|].
  etrans; [exact Hm | apply Hk].
Qed.

Lemma preserves_try_catch {A} (m : M A) (h : string → M A) :
  preserves m → (∀ e, preserves (h e)) → preserves (try_catch m h).
Proof.
  intros Hm Hh w. unfold try_catch. specialize (Hm w).
  destruct (m w) as [[e|a] w1]; simpl in *; [|done].
  etrans; [exact Hm | apply Hh].
Qed.

Lemma preserves_for_each {A} (l : list A) (f : A → M unit) :
  (∀ x, preserves (f x)) → preserves (for_each l f).
Proof.
  intros Hf. induction l as [|x l IH]; simpl.
  - apply preserves_ret.
  - apply preserves_bind; [apply Hf | intros _; apply IH].
Qed.

Lemma preserves_map_all {A B} (l : list A) (f : A → M B) :
  (∀ x, preserves (f x)) → preserves (map_all l f).
Proof.
  intros Hf. induction l as [|x l IH]; simpl.
  - apply preserves_ret.
  - apply preserves_bind; [apply Hf | intros y].
    apply preserves_bind; [apply IH | intros ys; apply preserves_ret].
Qed.

End Preserves.

(** The head symbol of an application. *)
Ltac head_of t :=
  lazymatch t with
  | ?f _ => head_of f
  | _ => t
  end.

(** One step of a proof that a computation keeps a relation: through the
    combinators, into the branches, and by unfolding what is left. *)
Ltac preserves_step leaf :=
  lazymatch goal with
  | |- preserves _ (bind _ _) =>
      apply preserves_bind; try apply _; [|intros ?]
  | |- preserves _ (try_catch _ _) =>
      apply preserves_try_catch; try apply _; [|intros ?]
  | |- preserves _ (for_each _ _) =>
      apply preserves_for_each; try apply _; intros ?
  | |- preserves _ (map_all _ _) =>
      apply preserves_map_all; try apply _; intros ?
  | |- preserves _ (ret _) => apply preserves_ret; apply _
  | |- preserves _ (throw _) => apply preserves_throw; apply _
  | |- preserves _ (gets _) => apply preserves_gets; apply _
  | |- preserves _ (modify _) => apply preserves_modify; intros ?; leaf
  | |- preserves _ (match ?x with _ => _ end) => destruct x
  | |- preserves _ (let _ := _ in _) => cbv zeta
  | |- preserves _ ?m => let h := head_of m in unfold h
  end.

End SysFacts.

(** ** The session manager *)

Module ManagerFacts.
Import Js Edit Sys Manager ManagerSpec JsFacts SysFacts.
Open Scope js_scope.

#[export] Instance extends_with_refl P : Reflexive (extends_with P).
Proof. intros w. exists []. by rewrite app_nil_r. Qed.

#[export] Instance extends_with_trans P : Transitive (extends_with P).
Proof.
  intros w1 w2 w3 (t1 & H1 & F1) (t2 & H2 & F2). exists (t1 ++ t2). split.
  - by rewrite H2, H1, app_assoc.
  - by apply Forall_app.
Qed.

#[export] Instance same_sessions_refl : Reflexive same_sessions.
Proof. by intros w. Qed.

#[export] Instance same_sessions_trans : Transitive same_sessions.
Proof. unfold same_sessions. intros w1 w2 w3 H1 H2. by rewrite H2. Qed.

#[export] Instance same_registry_refl : Reflexive same_registry.
Proof. intros w. unfold same_registry. by split_and!. Qed.

#[export] Instance same_registry_trans : Transitive same_registry.
Proof.
  unfold same_registry. intros w1 w2 w3 (H1 & H2 & H3) (H4 & H5 & H6).
  split_and!; congruence.
Qed.

#[export] Instance keeps_client_refl e c : Reflexive (keeps_client e c).
Proof. intros w H. exact H. Qed.

#[export] Instance keeps_client_trans e c : Transitive (keeps_client e c).
Proof. unfold keeps_client. intros w1 w2 w3 H1 H2 H. auto. Qed.

Lemma extends_with_emit P e w : P e → extends_with P w (add_trace [e] w).
Proof. intros H. exists [e]. split; [done | by constructor]. Qed.

Lemma extends_with_same P w w' : trace w' = trace w → extends_with P w w'.
Proof. intros H. exists []. by rewrite H, app_nil_r. Qed.

Lemma extends_with_mono (P Q : effect → Prop) w w' :
  (∀ e, P e → Q e) → extends_with P w w' → extends_with Q w w'.
Proof.
  intros HPQ (t & Ht & Hall). exists t. split; [done|].
  eapply Forall_impl; eauto.
Qed.

Lemma all_before_app (P Q : effect → Prop) (t1 t2 : list effect) :
  Forall (fun e => ¬ Q e) t1 → Forall (fun e => ¬ P e) t2 →
  all_before P Q (t1 ++ t2).
Proof.
  intros H1 H2 i j e1 e2 Hi Hj HP HQ.
  destruct (decide (i < length t1)) as [Hi1|Hi1].
  - destruct (decide (j < length t1)) as [Hj1|Hj1]; [|lia].
    rewrite lookup_app_l in Hj by done.
    rewrite Forall_forall in H1. exfalso. eapply H1; [|exact HQ].
    by eapply list_elem_of_lookup_2.
  - rewrite lookup_app_r in Hi by lia.
    rewrite Forall_forall in H2. exfalso. eapply H2; [|exact HP].
    by eapply list_elem_of_lookup_2.
Qed.

Section WithEnvironment.

Context {platform : Platform}.

Variable throws : world → call → option string.
Variable sha256_json : list (string * value) → string.
Variable baseTmpDir : string.

Lemma broadcast_spec environmentId m w :
  broadcastToEnvironment environmentId m w
  = (inr tt, add_trace (broadcast_sends environmentId m w) w).
Proof.
  unfold broadcastToEnvironment, broadcast_sends, clients_of.
  unfold bind at 1. unfold gets at 1.
  destruct (clientsMap w !! environmentId) as [cs|] eqn:Hcs; simpl.
  - unfold ws_send. by rewrite (for_each_sends is_open m cs).
  - unfold ret. by rewrite add_trace_nil.
Qed.

Lemma stopSession_none environmentId w :
  sessions w !! environmentId = None →
  stopSession throws environmentId w = (inr false, w).
Proof. intros H. unfold stopSession, bind, gets. by rewrite H. Qed.

Lemma stopSession_spawn_throws environmentId w s msg :
  sessions w !! environmentId = Some s →
  throws w (PtySpawn "docker" (docker_kill_args s)) = Some msg →
  stopSession throws environmentId w
  = (inr false, with_sessions (delete environmentId) w).
Proof.
  intros H Hthrow. unfold stopSession, bind at 1, gets at 1. rewrite H.
  unfold try_catch, pty_spawn, bind, ext. unfold docker_kill_args in Hthrow.
  by rewrite Hthrow.
Qed.

Lemma stopSession_spawn_ok environmentId w s :
  sessions w !! environmentId = Some s →
  throws w (PtySpawn "docker" (docker_kill_args s)) = None →
  ∃ b, stopSession throws environmentId w
       = (inr b,
          with_sessions (delete environmentId)
            (add_trace [ESpawn (next_pty w) "docker" (docker_kill_args s);
                        EKill (ptyProcess s)]
               (with_next_pty S w))).
Proof.
  intros H Hok. unfold stopSession, bind at 1, gets at 1. rewrite H.
  unfold try_catch, pty_spawn, pty_kill, bind, ext, gets, modify, emit, ret.
  unfold docker_kill_args in *. rewrite Hok. simpl.
  destruct (throws _ (PtyKill (ptyProcess s))); eexists;
    by rewrite add_trace_app.
Qed.

(** [stopSession] never throws and always clears the record. *)
Lemma stopSession_total environmentId w :
  ∃ b, fst (stopSession throws environmentId w) = inr b.
Proof.
  destruct (sessions w !! environmentId) as [s|] eqn:Hs.
  - destruct (throws w (PtySpawn "docker" (docker_kill_args s))) as [msg|] eqn:Ht.
    + rewrite (stopSession_spawn_throws _ _ _ _ Hs Ht). by eexists.
    + destruct (stopSession_spawn_ok _ _ _ Hs Ht) as [b ->]. by eexists.
  - rewrite stopSession_none by done. by eexists.
Qed.

Lemma stopSession_clears environmentId w :
  sessions (snd (stopSession throws environmentId w)) !! environmentId = None.
Proof.
  destruct (sessions w !! environmentId) as [s|] eqn:Hs.
  - destruct (throws w (PtySpawn "docker" (docker_kill_args s))) as [msg|] eqn:Ht.
    + rewrite (stopSession_spawn_throws _ _ _ _ Hs Ht). simpl. apply lookup_delete_eq.
    + destruct (stopSession_spawn_ok _ _ _ Hs Ht) as [b ->]. simpl.
      apply lookup_delete_eq.
  - by rewrite stopSession_none.
Qed.

Lemma set_delete_not_elem c (cs : list client) : c ∉ set_delete c cs.
Proof.
  unfold set_delete. rewrite list_elem_of_In, List.filter_In.
  intros [_ H]. by rewrite Nat.eqb_refl in H.
Qed.

Lemma set_delete_elem c c' (cs : list client) :
  c' ∈ cs → c' ≠ c → c' ∈ set_delete c cs.
Proof.
  intros Hin Hne. unfold set_delete. rewrite list_elem_of_In, List.filter_In.
  split; [by apply list_elem_of_In|].
  apply negb_true_iff. by apply Nat.eqb_neq.
Qed.

Lemma unregisterClient_unfold environmentId c cs w :
  clientsMap w !! environmentId = Some cs →
  unregisterClient throws environmentId c w
  = if Nat.eqb (length (set_delete c cs)) 0
    then (detached (stopSession throws environmentId) >>
          modify (with_clientsMap (delete environmentId)))
           (unregistered environmentId c cs w)
    else (inr tt, unregistered environmentId c cs w).
Proof.
  intros Hcs. unfold unregisterClient.
  unfold bind at 1, gets at 1. rewrite Hcs.
  rewrite bool_decide_eq_true_2 by eauto.
  unfold bind at 1, modify at 1. unfold bind at 1, gets at 1.
  assert (with_clientsMap
            (fun m => match m !! environmentId with
                      | Some cs0 => <[environmentId:=set_delete c cs0]> m
                      | None => m
                      end) w
          = unregistered environmentId c cs w) as ->.
  { unfold unregistered, with_clientsMap. by rewrite Hcs. }
  assert (clientsMap (unregistered environmentId c cs w) !! environmentId
          = Some (set_delete c cs)) as ->.
  { unfold unregistered. simpl. apply lookup_insert_eq. }
  change (default [] (Some (set_delete c cs))) with (set_delete c cs).
  by destruct (Nat.eqb (length (set_delete c cs)) 0).
Qed.

Lemma detached_then {A} (m : M A) (f : world → world) w a w' :
  m w = (inr a, w') → (detached m >> modify f) w = (inr tt, f w').
Proof.
  intros H. unfold detached, try_catch, bind, ret, modify. by rewrite H.
Qed.

(** C6, as the code has it. Unregistering removes the client from the
    set of its environment and never throws. When that leaves the set
    empty, the entry is dropped from the registry and the session record
    of the environment is cleared; the session's process handle receives
    a kill, after the launch of [docker kill] for its container, provided
    that launch does not throw. When another client remains, the
    session, the trace and the other entries are as before. *)
Theorem unregister_last_client_stops_session
    (environmentId : string) (c : client) (cs : list client) (w : world) :
  clientsMap w !! environmentId = Some cs →
  let r := unregisterClient throws environmentId c w in
  let w' := snd r in
  fst r = inr tt
  ∧ (c ∉ clients_of environmentId w')
  ∧ (set_delete c cs = [] →
       clientsMap w' !! environmentId = None
       ∧ sessions w' !! environmentId = None
       ∧ (∀ s, sessions w !! environmentId = Some s →
              (∀ w1, throws w1 (PtySpawn "docker" (docker_kill_args s)) = None) →
              trace w' = trace w ++ [ESpawn (next_pty w) "docker" (docker_kill_args s);
                                     EKill (ptyProcess s)]))
  ∧ (set_delete c cs ≠ [] →
       clientsMap w' !! environmentId = Some (set_delete c cs)
       ∧ sessions w' = sessions w
       ∧ trace w' = trace w).
Proof.
  intros Hcs r w'. subst w' r. rewrite (unregisterClient_unfold _ _ _ _ Hcs).
  destruct (set_delete c cs) as [|c0 rest] eqn:Hdel; simpl Nat.eqb; cbv iota.
  - set (w1 := unregistered environmentId c cs w).
    destruct (stopSession_total environmentId w1) as [b Hb].
    pose proof (stopSession_clears environmentId w1) as Hclear.
    destruct (stopSession throws environmentId w1) as [res w2] eqn:Hstop.
    simpl in Hb, Hclear. subst res.
    rewrite (detached_then _ _ _ _ _ Hstop). simpl.
    split_and!; try done.
    + unfold clients_of. simpl. rewrite lookup_delete_eq. simpl. apply not_elem_of_nil.
    + intros _. split_and!; [apply lookup_delete_eq | done |].
      intros s Hs Hok.
      assert (sessions w1 !! environmentId = Some s) as Hs1 by done.
      destruct (stopSession_spawn_ok environmentId w1 s Hs1 (Hok w1)) as [b' Heq].
      rewrite Heq in Hstop. by inversion Hstop; subst.
  - simpl. split_and!; try done.
    + unfold clients_of. simpl. rewrite lookup_insert_eq. simpl.
      apply set_delete_not_elem.
    + intros _. split_and!; [|done|done]. rewrite <- Hdel. apply lookup_insert_eq.
Qed.

Lemma preserves_ext (R : world → world → Prop) `{!Reflexive R} (c : call) :
  preserves R (ext throws c).
Proof. intros w. unfold ext. destruct (throws w c); simpl; reflexivity. Qed.

Ltac manager_preserves leaf :=
  repeat first [ apply preserves_ext; apply _ | preserves_step leaf ].

(** What the [try] block of [startSession] does before it registers the
    session leaves the sessions alone, and all it adds to the trace is
    the spawn of [docker run]. *)
Lemma buildFileObject_sessions fileNames environmentId :
  preserves same_sessions (buildFileObject throws sha256_json fileNames environmentId).
Proof. manager_preserves ltac:(done). Qed.

Lemma writeFilesToDir_sessions environmentId files :
  preserves same_sessions (writeFilesToDir throws baseTmpDir environmentId files).
Proof. manager_preserves ltac:(done). Qed.

Lemma pty_spawn_sessions file args :
  preserves same_sessions (pty_spawn throws file args).
Proof. manager_preserves ltac:(done). Qed.

Lemma startSession_try_trace environmentId fileNames hash clientFiles :
  preserves (extends_with is_run_spawn)
    (startSession_try throws sha256_json baseTmpDir environmentId fileNames hash
       clientFiles).
Proof.
  manager_preserves ltac:(first [ by apply extends_with_same
                                | apply extends_with_emit; by eexists _, _ ]).
Qed.

Lemma broadcast_trace P environmentId m :
  (∀ c, P (ESend c m)) →
  preserves (extends_with P) (broadcastToEnvironment environmentId m).
Proof.
  intros HP w. rewrite broadcast_spec. simpl.
  exists (broadcast_sends environmentId m w). split; [done|].
  unfold broadcast_sends. apply Forall_forall. intros e He.
  apply list_elem_of_fmap in He as (c & -> & _). apply HP.
Qed.

(** A [try] block that throws has not touched the sessions. *)
Lemma startSession_try_throws environmentId fileNames hash clientFiles w error w' :
  startSession_try throws sha256_json baseTmpDir environmentId fileNames hash
    clientFiles w = (inl error, w') →
  sessions w' = sessions w.
Proof.
  unfold startSession_try. unfold bind at 1.
  pose proof (buildFileObject_sessions fileNames environmentId w) as H1.
  destruct (buildFileObject _ _ _ _ w) as [[e1|filesObj] w1]; simpl in H1.
  { intros [= <- <-]. exact H1. }
  unfold bind at 1.
  pose proof (writeFilesToDir_sessions environmentId (fst filesObj) w1) as H2.
  destruct (writeFilesToDir _ _ _ _ w1) as [[e2|dir] w2]; simpl in H2.
  { intros [= <- <-]. unfold same_sessions in *. congruence. }
  unfold bind at 1.
  match goal with |- context [pty_spawn throws ?f ?a w2] =>
    pose proof (pty_spawn_sessions f a w2) as H3;
    destruct (pty_spawn throws f a w2) as [[e3|h] w3]; simpl in H3
  end.
  { intros [= <- <-]. unfold same_sessions in *. congruence. }
  unfold bind, modify, ret. simpl. intros [=].
Qed.

Lemma startSession_restart_none environmentId w :
  sessions w !! environmentId = None →
  startSession_restart throws environmentId w = (inr tt, w).
Proof.
  intros H. unfold startSession_restart, bind, gets. rewrite H.
  by rewrite bool_decide_eq_false_2 by (by intros [? ?]).
Qed.

Lemma startSession_restart_some environmentId w old :
  sessions w !! environmentId = Some old →
  let w1 := snd (stopSession throws environmentId w) in
  startSession_restart throws environmentId w
  = (inr tt,
     add_trace
       (broadcast_sends environmentId
          (MStopped environmentId true (Some "restarted")) w1) w1).
Proof.
  intros H w1. unfold startSession_restart. unfold bind at 1, gets at 1. rewrite H.
  rewrite bool_decide_eq_true_2 by eauto.
  destruct (stopSession_total environmentId w) as [b Hb].
  unfold bind. subst w1.
  destruct (stopSession throws environmentId w) as [res w1]. simpl in *. subst res.
  by rewrite broadcast_spec.
Qed.

(** After the restart block the environment has no session. *)
Lemma startSession_restart_clears environmentId w :
  fst (startSession_restart throws environmentId w) = inr tt
  ∧ sessions (snd (startSession_restart throws environmentId w)) !! environmentId = None.
Proof.
  destruct (sessions w !! environmentId) as [old|] eqn:Hs.
  - rewrite (startSession_restart_some _ _ _ Hs). simpl. split; [done|].
    apply stopSession_clears.
  - by rewrite startSession_restart_none.
Qed.

(** C7. When the [try] block of [startSession] throws, whichever of its
    steps did, every open client of the environment is sent an [output]
    event with the error text and then an [exit] event with code 1,
    [startSession] returns [false], and the environment has no session
    record. *)
Theorem start_failure_is_broadcast
    (environmentId : string) (fileNames : list string) (hash : option string)
    (clientFiles : option (list (string * value))) (w : world)
    (error : string) (w2 : world) :
  let w1 := snd (startSession_restart throws environmentId w) in
  startSession_try throws sha256_json baseTmpDir environmentId fileNames hash
    clientFiles w1 = (inl error, w2) →
  let r := startSession throws sha256_json baseTmpDir environmentId fileNames hash
             clientFiles w in
  let output := MOutput ("Error starting session: " +:+ error) in
  fst r = inr false
  ∧ trace (snd r)
    = trace w2 ++ map (fun c => ESend c output)
                      (List.filter (fun c => is_open c w2) (clients_of environmentId w2))
               ++ map (fun c => ESend c (MExit 1))
                      (List.filter (fun c => is_open c w2) (clients_of environmentId w2))
  ∧ sessions (snd r) !! environmentId = None.
Proof.
  intros w1 Htry r output.
  destruct (startSession_restart_clears environmentId w) as [Hok Hclear].
  fold w1 in Hclear.
  assert (r = (inr false,
               add_trace (broadcast_sends environmentId (MExit 1) w2)
                 (add_trace (broadcast_sends environmentId output w2) w2))) as ->.
  { subst r. unfold startSession.
    destruct (startSession_restart throws environmentId w) as [res w1'] eqn:Hre.
    simpl in Hok. subst res. simpl in w1. subst w1.
    rewrite (bind_inr _ _ _ _ _ Hre). unfold try_catch. rewrite Htry.
    unfold startSession_catch.
    rewrite (bind_inr _ _ _ _ _ (broadcast_spec _ _ _)).
    by rewrite (bind_inr _ _ _ _ _ (broadcast_spec _ _ _)). }
  simpl. split_and!.
  - done.
  - by rewrite <- app_assoc.
  - rewrite (startSession_try_throws _ _ _ _ _ _ _ Htry). exact Hclear.
Qed.

(** What [stopSession] does to an existing session, as seen from outside. *)
Lemma stopSession_observed environmentId w old :
  sessions w !! environmentId = Some old →
  let w1 := snd (stopSession throws environmentId w) in
  let stop := [ESpawn (next_pty w) "docker" (docker_kill_args old);
               EKill (ptyProcess old)] in
  ∃ t_stop,
    trace w1 = trace w ++ t_stop
    ∧ (t_stop = [] ∨ t_stop = stop)
    ∧ ((∀ w0, throws w0 (PtySpawn "docker" (docker_kill_args old)) = None) →
       t_stop = stop)
    ∧ clientsMap w1 = clientsMap w
    ∧ sockets w1 = sockets w.
Proof.
  intros Hs w1 stop. subst w1.
  destruct (throws w (PtySpawn "docker" (docker_kill_args old))) as [msg|] eqn:Ht.
  - rewrite (stopSession_spawn_throws _ _ _ _ Hs Ht). simpl.
    exists []. rewrite app_nil_r. split_and!; try done; [by left|].
    intros Hok. by rewrite Hok in Ht.
  - destruct (stopSession_spawn_ok _ _ _ Hs Ht) as [b ->]. simpl.
    exists stop. split_and!; try done. by right.
Qed.

Lemma startSession_body_trace environmentId fileNames hash clientFiles :
  preserves (extends_with (fun e => is_run_spawn e ∨ is_output e ∨ is_exit e))
    (try_catch
       (startSession_try throws sha256_json baseTmpDir environmentId fileNames hash
          clientFiles)
       (startSession_catch environmentId)).
Proof.
  apply preserves_try_catch; [apply _ | | intros error].
  - intros w. eapply extends_with_mono; [|apply startSession_try_trace]. tauto.
  - unfold startSession_catch.
    apply preserves_bind; [apply _ | | intros _].
    { apply broadcast_trace. intros c. right. left. by eexists _, _. }
    apply preserves_bind; [apply _ | | intros _; apply preserves_ret; apply _].
    apply broadcast_trace. intros c. right. right. by eexists _, _.
Qed.

(** C3, as the code has it. When [startSession] finds a session for the
    environment, the trace it produces starts with the stop of that
    session (the launch of [docker kill] and the kill of the old handle,
    when the launch does not throw, and nothing when it throws), whose
    record is cleared at that point either way; next come the
    [stopped] events with reason [restarted], one to every open client of
    the environment; everything else follows, and only there [docker run]
    is spawned and [output] events are sent. *)
Theorem restart_stops_old_session_first
    (environmentId : string) (fileNames : list string) (hash : option string)
    (clientFiles : option (list (string * value))) (w : world) (old : session) :
  sessions w !! environmentId = Some old →
  let r := startSession throws sha256_json baseTmpDir environmentId fileNames hash
             clientFiles w in
  let w1 := snd (stopSession throws environmentId w) in
  let notice := MStopped environmentId true (Some "restarted") in
  let told := broadcast_sends environmentId notice w1 in
  ∃ t_stop t_rest,
    trace w1 = trace w ++ t_stop
    ∧ sessions w1 !! environmentId = None
    ∧ ((∀ w0, throws w0 (PtySpawn "docker" (docker_kill_args old)) = None) →
       t_stop = [ESpawn (next_pty w) "docker" (docker_kill_args old);
                 EKill (ptyProcess old)])
    ∧ trace (snd r) = trace w ++ t_stop ++ told ++ t_rest
    ∧ (∀ c, c ∈ clients_of environmentId w → is_open c w = true →
            ESend c notice ∈ told)
    ∧ all_before (fun e => e = EKill (ptyProcess old)) is_run_spawn
        (t_stop ++ told ++ t_rest)
    ∧ all_before (is_restarted environmentId) is_run_spawn (t_stop ++ told ++ t_rest)
    ∧ all_before (is_restarted environmentId) is_output (t_stop ++ told ++ t_rest).
Proof.
  intros Hs r w1 notice told.
  destruct (stopSession_observed environmentId w old Hs)
    as (t_stop & Htrace & Hcases & Hok & Hcm & Hsock).
  fold w1 in Htrace, Hcm, Hsock.
  pose proof (startSession_restart_some environmentId w old Hs) as Hre.
  simpl in Hre. fold w1 notice told in Hre.
  destruct (startSession_body_trace environmentId fileNames hash clientFiles
              (add_trace told w1)) as (t_rest & Hrest & Hall).
  assert (snd r
          = snd (try_catch
                   (startSession_try throws sha256_json baseTmpDir environmentId
                      fileNames hash clientFiles)
                   (startSession_catch environmentId) (add_trace told w1))) as Hr.
  { subst r. unfold startSession. by rewrite (bind_inr _ _ _ _ _ Hre). }
  assert (Forall (fun e => ¬ is_run_spawn e ∧ ¬ is_output e) (t_stop ++ told)) as Hpre.
  { apply Forall_app. split.
    - destruct Hcases as [-> | ->]; [constructor|].
      repeat constructor; intros (? & ? & [=]).
    - subst told. unfold broadcast_sends. apply Forall_forall. intros e He.
      apply list_elem_of_fmap in He as (c & -> & _).
      split; intros (? & ? & [=]). }
  exists t_stop, t_rest. split_and!.
  - done.
  - apply stopSession_clears.
  - done.
  - rewrite Hr, Hrest. simpl. rewrite Htrace. by rewrite <- !app_assoc.
  - intros c Hc Hopen. subst told. unfold broadcast_sends.
    apply list_elem_of_fmap. exists c. split; [done|].
    apply list_elem_of_In, List.filter_In. split.
    + apply list_elem_of_In. unfold clients_of in *. by rewrite Hcm.
    + unfold is_open in *. by rewrite Hsock.
  - rewrite app_assoc. apply all_before_app.
    + eapply Forall_impl; [exact Hpre|]. tauto.
    + eapply Forall_impl; [exact Hall|].
      intros e [(? & ? & ->) | [(? & ? & ->) | (? & ? & ->)]]; done.
  - rewrite app_assoc. apply all_before_app.
    + eapply Forall_impl; [exact Hpre|]. tauto.
    + eapply Forall_impl; [exact Hall|].
      intros e [(? & ? & ->) | [(? & ? & ->) | (? & ? & ->)]]; intros (? & [=]).
  - rewrite app_assoc. apply all_before_app.
    + eapply Forall_impl; [exact Hpre|]. tauto.
    + eapply Forall_impl; [exact Hall|].
      intros e [(? & ? & ->) | [(? & ? & ->) | (? & ? & ->)]]; intros (? & [=]).
Qed.

(** *** File operations *)



Lemma get_ok key w :
  throws w (RedisGet key) = None →
  get throws key w = (inr (parsed (redis w !! key)), w).
Proof. intros H. unfold get, bind, ext, gets. by rewrite H. Qed.

Lemma set_ok key value w :
  throws w (RedisSet key (store_text value)) = None →
  set throws key value w = (inr tt, with_redis (insert key (store_text value)) w).
Proof. intros H. unfold set, bind, ext, modify. cbv zeta. by rewrite H. Qed.

(** Text that is not JSON is read as it is stored. *)
Lemma parsed_plain (text : string) :
  JSON_parse text = None → parsed (Some text) = VStr text.
Proof. intros H. unfold parsed. by rewrite H. Qed.

(** [duplicateFile] on a key the adapter's [get] does not return [null]
    for. *)
Lemma duplicateFile_of_value environmentId fileName w :
  throws w (RedisGet (environmentId +:+ "_" +:+ fileName)) = None →
  parsed (redis w !! (environmentId +:+ "_" +:+ fileName)) ≠ VNull →
  duplicateFile throws environmentId fileName w
  = (set throws (environmentId +:+ "_" +:+ copy_name fileName)
       (parsed (redis w !! (environmentId +:+ "_" +:+ fileName))) >>
     ret (copy_name fileName)) w.
Proof.
  intros Hget Hv. unfold duplicateFile.
  rewrite (bind_inr _ _ _ _ _ (get_ok _ w Hget)).
  by destruct (parsed (redis w !! (environmentId +:+ "_" +:+ fileName))).
Qed.





(** C10. [deleteFile] fails only when the store's [del] itself throws,
    and otherwise returns [true], whether or not the file exists; for a
    file the store does not have, the store is left as it was, while
    [renameFile] and [duplicateFile] throw [File does not exist]. *)
Theorem deleteFile_of_missing_file
    (environmentId fileName : string) (w : world) :
  redis w !! (environmentId +:+ "_" +:+ fileName) = None →
  let fileKey := environmentId +:+ "_" +:+ fileName in
  let r := deleteFile throws environmentId fileName w in
  fst r = match throws w (RedisDel fileKey) with
          | Some msg => inl msg
          | None => inr true
          end
  ∧ redis (snd r) = redis w
  ∧ (throws w (RedisGet fileKey) = None →
       (∀ newName, fst (renameFile throws environmentId fileName newName w)
                   = inl "File does not exist")
       ∧ fst (duplicateFile throws environmentId fileName w)
         = inl "File does not exist").
Proof.
  intros Hmissing fileKey r. subst r fileKey.
  split_and!.
  - unfold deleteFile, redis_del, bind, ext, modify, ret.
    by destruct (throws w (RedisDel _)).
  - unfold deleteFile, redis_del, bind, ext, modify, ret.
    destruct (throws w (RedisDel _)); simpl; [done | by apply delete_id].
  - intros Hget.
    pose proof (get_ok _ _ Hget) as Hread. rewrite Hmissing in Hread.
    split; [intros newName; unfold renameFile | unfold duplicateFile];
      by rewrite (bind_inr _ _ _ _ _ Hread).
Qed.

(** [startSession] never reads its [hash] and [clientFiles] arguments. *)
Lemma startSession_ignores_client_files environmentId fileNames
    hash hash' clientFiles clientFiles' w :
  startSession throws sha256_json baseTmpDir environmentId fileNames hash clientFiles w
  = startSession throws sha256_json baseTmpDir environmentId fileNames hash'
      clientFiles' w.
Proof. reflexivity. Qed.

End WithEnvironment.
End ManagerFacts.

(** ** The manager in the scenarios *)

Module ScenarioFacts.
Import Js Edit Sys Manager ManagerSpec Scenario ManagerFacts.

(** C1 at a failing input: the store holds [print(1)] for [main.py], the
    request carries a hash that is not the server's and the client's
    [print(2)]; the run succeeds and the file in the working directory
    mounted into the container is the store's. *)
Lemma mismatched_hash_runs_store_files :
  let clientFiles := Some [("main.py", VStr "print(2)")] in
  let r := startSession never entries_digest tmp "env1" ["main.py"]
             (Some "stale") clientFiles idle in
  fst (buildFileObject never entries_digest ["main.py"] "env1" idle)
    = inr ([("main.py", VStr "print(1)")],
           entries_digest [("main.py", VStr "print(1)")])
  ∧ Some "stale" ≠ Some (entries_digest [("main.py", VStr "print(1)")])
  ∧ fst r = inr true
  ∧ fs_files (snd r) !! "/tmp/nixpackpy/env1/main.py" = Some "print(1)"
  ∧ fs_files (snd r) !! "/tmp/nixpackpy/env1/main.py" ≠ Some "print(2)"
  ∧ trace (snd r)
    = [ESpawn 0 "docker"
         (dockerArgs "nixpackpy_env1" "/tmp/nixpackpy/env1" (Some "main.py"))].
Proof.
  intros clientFiles r. vm_compute. split_and!; done.
Qed.

(** The last client of a running environment leaves: the container
    is killed by name, the handle is killed, the record and the registry
    entry are gone. *)
Lemma last_client_leaves :
  let r := unregisterClient never "env1" 1 running in
  fst r = inr tt
  ∧ clientsMap (snd r) !! "env1" = None
  ∧ sessions (snd r) !! "env1" = None
  ∧ trace (snd r)
    = [ESpawn 1 "docker" [Some "kill"; Some "nixpackpy_env1"]; EKill 0].
Proof.
  intros r.
  pose proof (unregister_last_client_stops_session never "env1" 1 [1] running
                eq_refl) as H.
  simpl in H. destruct H as (Hret & _ & Hlast & _).
  destruct (Hlast eq_refl) as (Hmap & Hsess & Hkill).
  split_and!; [exact Hret | exact Hmap | exact Hsess |].
  exact (Hkill (Session 0 "/tmp/nixpackpy/env1" "nixpackpy_env1") eq_refl
           (fun _ => eq_refl)).
Defined.

(** One of two clients leaves: the session stays and nothing is sent or
    killed. *)
Lemma one_of_two_clients_leaves :
  let r := unregisterClient never "env1" 1 shared in
  clientsMap (snd r) !! "env1" = Some [2]
  ∧ sessions (snd r) = sessions shared
  ∧ trace (snd r) = [].
Proof. intros r. vm_compute. split_and!; done. Qed.

(** C6, as the claim words it, fails when the launch of [docker kill]
    throws: client 1 is the last client of [env1], whose session runs on
    handle 0; after it is unregistered the record and the registry entry
    are gone, but the handle has received no kill. *)
Lemma failed_kill_launch_skips_handle_kill :
  let r := unregisterClient kill_launch_fails "env1" 1 running in
  clientsMap running !! "env1" = Some [1]
  ∧ sessions running !! "env1"
    = Some (Session 0 "/tmp/nixpackpy/env1" "nixpackpy_env1")
  ∧ fst r = inr tt
  ∧ clientsMap (snd r) !! "env1" = None
  ∧ sessions (snd r) !! "env1" = None
  ∧ trace (snd r) = []
  ∧ (EKill 0 ∉ trace (snd r)).
Proof.
  intros r. vm_compute. split_and!; try done. apply not_elem_of_nil.
Qed.

(** C3, as the claim words it, fails when the launch of [docker kill]
    throws: the environment is restarted, client 1 is told that the old
    session was stopped, [docker run] is launched and the new session is
    recorded, but the old handle, handle 0, has received no kill. *)
Lemma failed_kill_launch_restarts_without_kill :
  let r := startSession kill_launch_fails entries_digest tmp "env1" ["main.py"]
             None None running in
  sessions running !! "env1"
    = Some (Session 0 "/tmp/nixpackpy/env1" "nixpackpy_env1")
  ∧ fst r = inr true
  ∧ trace (snd r)
    = [ESend 1 (MStopped "env1" true (Some "restarted"));
       ESpawn 1 "docker"
         (dockerArgs "nixpackpy_env1" "/tmp/nixpackpy/env1" (Some "main.py"))]
  ∧ (EKill 0 ∉ trace (snd r))
  ∧ sessions (snd r) !! "env1"
    = Some (Session 1 "/tmp/nixpackpy/env1" "nixpackpy_env1").
Proof.
  intros r. vm_compute. split_and!; try done.
  intros [H|[H|H%elem_of_nil]%elem_of_cons]%elem_of_cons; [discriminate | discriminate | done].
Qed.

(** A restart of the running environment, client 1 watching. *)
Lemma restart_of_running_environment :
  let r := startSession never entries_digest tmp "env1" ["main.py"] None None
             running in
  let notice := MStopped "env1" true (Some "restarted") in
  ∃ t_rest,
    trace (snd r)
    = [ESpawn 1 "docker" [Some "kill"; Some "nixpackpy_env1"]; EKill 0]
      ++ [ESend 1 notice] ++ t_rest
    ∧ all_before (is_restarted "env1") is_run_spawn
        ([ESpawn 1 "docker" [Some "kill"; Some "nixpackpy_env1"]; EKill 0]
         ++ [ESend 1 notice] ++ t_rest)
    ∧ all_before (is_restarted "env1") is_output
        ([ESpawn 1 "docker" [Some "kill"; Some "nixpackpy_env1"]; EKill 0]
         ++ [ESend 1 notice] ++ t_rest).
Proof.
  intros r notice.
  destruct (restart_stops_old_session_first never entries_digest tmp "env1"
              ["main.py"] None None running
              (Session 0 "/tmp/nixpackpy/env1" "nixpackpy_env1") eq_refl)
    as (t_stop & t_rest & _ & _ & Hstop & Htrace & _ & _ & Hspawn & Hout).
  specialize (Hstop (fun _ => eq_refl)). subst t_stop.
  exists t_rest. split_and!; [exact Htrace | exact Hspawn | exact Hout].
Defined.

(** The launch of [docker run] throws: client 1 is sent the error text
    and exit code 1, and no session is recorded. *)
Lemma failed_run_launch_is_reported :
  let r := startSession run_launch_fails entries_digest tmp "env1" ["main.py"]
             None None idle in
  fst r = inr false
  ∧ trace (snd r)
    = [ESend 1 (MOutput "Error starting session: spawn failed");
       ESend 1 (MExit 1)]
  ∧ sessions (snd r) !! "env1" = None.
Proof.
  intros r.
  pose proof (start_failure_is_broadcast run_launch_fails entries_digest tmp "env1"
                ["main.py"] None None idle "spawn failed"
                (snd (startSession_try run_launch_fails entries_digest tmp "env1"
                        ["main.py"] None None idle)) eq_refl) as H.
  simpl in H. destruct H as (Hret & Htrace & Hsess).
  split_and!; [exact Hret | exact Htrace | exact Hsess].
Defined.



Example copy_name_of_a_py : copy_name "a.py" = "a_copy.py".
Proof. reflexivity. Qed.

Example copy_name_of_Makefile : copy_name "Makefile" = "Makefile_copy".
Proof. reflexivity. Qed.

Example copy_name_of_bashrc : copy_name ".bashrc" = ".bashrc_copy".
Proof. reflexivity. Qed.

(** [deleteFile] on a file the store does not have. *)
Lemma delete_of_missing_file :
  deleteFile never "env1" "gone.py" idle = (inr true, idle)
  ∧ fst (renameFile never "env1" "gone.py" "new.py" idle) = inl "File does not exist"
  ∧ fst (duplicateFile never "env1" "gone.py" idle) = inl "File does not exist".
Proof.
  pose proof (deleteFile_of_missing_file never "env1" "gone.py" idle eq_refl) as H.
  simpl in H. destruct H as (Hret & Hstore & Hothers).
  destruct (Hothers eq_refl) as (Hrename & Hdup).
  split_and!; [| exact (Hrename "new.py") | exact Hdup].
  vm_compute. reflexivity.
Defined.

End ScenarioFacts.

(** ** The dispatcher *)

Module DispatcherFacts.
Import Js Edit Sys Manager ManagerSpec Dispatcher DispatcherSpec Replay.
Import JsFacts SysFacts ManagerFacts ReplayFacts.
Open Scope js_scope.

Section WithEnvironment.

Context {platform : Platform}.

Variable throws : world → call → option string.
Variable sha256_json : list (string * value) → string.
Variable baseTmpDir : string.

Local Abbreviation handle := (handleWebSocketMessage throws sha256_json baseTmpDir).

Lemma truthy_nonempty (e : string) : e ≠ EmptyString → truthy (Some e) = Some e.
Proof. intros H. unfold truthy. by destruct e. Qed.

Lemma send_to_others_spec ws envId m w :
  send_to_others ws envId m w
  = (inr tt, add_trace (map (fun c => ESend c m) (others ws envId w)) w).
Proof.
  unfold send_to_others, others. unfold bind at 1, gets at 1.
  unfold ws_send. by rewrite (for_each_sends (is_other ws envId) m).
Qed.

Lemma registerClient_spec e c w :
  registerClient e c w
  = (inr tt, with_clientsMap (insert e (set_add c (clients_of e w))) w).
Proof.
  unfold registerClient, clients_of, bind, gets, modify, ret.
  destruct (clientsMap w !! e) as [cs|] eqn:Hcs; simpl.
  - unfold with_clientsMap. simpl. by rewrite Hcs.
  - unfold with_clientsMap. simpl. rewrite lookup_insert_eq.
    by rewrite insert_insert_eq.
Qed.

Lemma set_add_elem c (cs : list client) : c ∈ set_add c cs.
Proof.
  unfold set_add. case_bool_decide; [done|]. apply elem_of_app. right.
  apply list_elem_of_singleton. done.
Qed.

Lemma set_add_keeps c c' (cs : list client) : c' ∈ cs → c' ∈ set_add c cs.
Proof.
  intros H. unfold set_add. case_bool_decide; [done|].
  apply elem_of_app. by left.
Qed.

Lemma registerClient_keeps e0 c0 e c :
  preserves (keeps_client e0 c0) (registerClient e c).
Proof.
  intros w. rewrite registerClient_spec. simpl. unfold keeps_client, clients_of.
  simpl. intros Hin. destruct (decide (e = e0)) as [->|Hne].
  - rewrite lookup_insert_eq. simpl. by apply set_add_keeps.
  - by rewrite lookup_insert_ne.
Qed.

Ltac dispatcher_preserves leaf :=
  repeat first [ apply preserves_ext; apply _
               | apply registerClient_keeps
               | preserves_step leaf ].

Ltac keeps_leaf := unfold keeps_client, clients_of; simpl; tauto.

Ltac registry_leaf := unfold same_registry; simpl; by split_and!.

(** No message takes a client out of a set of the registry. *)
Lemma handle_keeps_client e0 c0 ws data :
  preserves (keeps_client e0 c0) (handle ws data).
Proof. dispatcher_preserves keeps_leaf. Qed.

Lemma getAllFiles_registry e :
  preserves same_registry (getAllFilesForEnvironment throws e).
Proof. dispatcher_preserves registry_leaf. Qed.

Lemma startSession_registry e fileNames hash clientFiles :
  preserves same_registry
    (startSession throws sha256_json baseTmpDir e fileNames hash clientFiles).
Proof. dispatcher_preserves registry_leaf. Qed.

Lemma send_to_others_registry ws envId m :
  preserves same_registry (send_to_others ws envId m).
Proof. dispatcher_preserves registry_leaf. Qed.

Lemma ws_send_registry c m : preserves same_registry (ws_send c m).
Proof. dispatcher_preserves registry_leaf. Qed.

(** The world after [ws.environmentId = e] and [registerClient(e, ws)]. *)
Lemma bound_and_registered ws e w sock :
  sockets w !! ws = Some sock →
  let w1 := snd ((set_environmentId ws e >> registerClient e ws) w) in
  fst ((set_environmentId ws e >> registerClient e ws) w) = inr tt
  ∧ ws_environmentId ws w1 = Some e
  ∧ ws ∈ clients_of e w1.
Proof.
  intros Hsock w1. subst w1. unfold bind, set_environmentId, modify.
  rewrite registerClient_spec. simpl. split_and!.
  - done.
  - unfold ws_environmentId. simpl. rewrite lookup_alter_eq, Hsock. done.
  - unfold clients_of. simpl. rewrite lookup_insert_eq. simpl. apply set_add_elem.
Qed.

Lemma registry_keeps_binding ws e w w' :
  same_registry w w' →
  ws_environmentId ws w = Some e → ws ∈ clients_of e w →
  ws_environmentId ws w' = Some e ∧ ws ∈ clients_of e w'.
Proof.
  intros (Hs & _ & Hc) Hb Hr. unfold ws_environmentId, clients_of in *.
  by rewrite Hs, Hc.
Qed.

Lemma after_binding {A} ws e (rest : M A) w sock :
  sockets w !! ws = Some sock →
  preserves same_registry rest →
  let w' := snd (((set_environmentId ws e >> registerClient e ws) >> rest) w) in
  ws_environmentId ws w' = Some e ∧ ws ∈ clients_of e w'.
Proof.
  intros Hsock Hrest w'. subst w'.
  destruct (bound_and_registered ws e w sock Hsock) as (Hok & Hb & Hr).
  destruct ((set_environmentId ws e >> registerClient e ws) w) as [res w1] eqn:H1.
  simpl in Hok, Hb, Hr. subst res.
  rewrite (bind_inr _ _ _ _ _ H1).
  by apply (registry_keeps_binding ws e w1 _ (Hrest w1)).
Qed.

(** C8, as the code has it. A client bound and registered to [E1] that
    sends [getFiles] or [run] naming another environment [E2] is bound
    to [E2] and added to the set of [E2], and stays in the set of [E1];
    a [cursorMove] naming [E2] rebinds it and leaves the registry as it
    was; and no message of any kind takes it out of the set of [E1]. *)
Theorem rebinding_keeps_old_registration
    (ws : client) (sock : socket) (E1 E2 : string) (w : world) :
  sockets w !! ws = Some sock →
  environmentId sock = Some E1 →
  ws ∈ clients_of E1 w →
  E2 ≠ EmptyString → E1 ≠ E2 →
  (∀ data, ws ∈ clients_of E1 (snd (handle ws data w)))
  ∧ (let w' := snd (handle ws (ReqGetFiles (Some E2)) w) in
     ws_environmentId ws w' = Some E2
     ∧ ws ∈ clients_of E2 w' ∧ ws ∈ clients_of E1 w')
  ∧ (∀ fileNames hash files,
       let w' := snd (handle ws (ReqRun (Some fileNames) (Some E2) hash files) w) in
       ws_environmentId ws w' = Some E2
       ∧ ws ∈ clients_of E2 w' ∧ ws ∈ clients_of E1 w')
  ∧ (∀ line ch file,
       let w' := snd (handle ws (ReqCursorMove line ch file (Some E2)) w) in
       ws_environmentId ws w' = Some E2
       ∧ clientsMap w' = clientsMap w).
Proof.
  intros Hsock Hbound Hreg HE2 Hne.
  assert (∀ data, ws ∈ clients_of E1 (snd (handle ws data w))) as Hkeeps.
  { intros data. by apply (handle_keeps_client E1 ws ws data w). }
  split_and!.
  - exact Hkeeps.
  - split_and!; [| | apply Hkeeps].
    all: unfold handleWebSocketMessage, handle_getFiles;
      rewrite truthy_nonempty by done.
    all: eapply (after_binding ws E2 _ w sock Hsock).
    all: apply preserves_bind; [apply _ | apply getAllFiles_registry | intros ?].
    all: apply ws_send_registry.
  - intros fileNames hash files. split_and!; [| | apply Hkeeps].
    all: unfold handleWebSocketMessage, handle_run; rewrite truthy_nonempty by done.
    all: rewrite (bind_inr (gets _) _ w _ w eq_refl).
    all: rewrite (bind_inr _ _ _ _ _ (send_to_others_spec _ _ _ _)).
    all: rewrite (bind_inr (gets _) _ _ _ _ eq_refl).
    all: assert (ws_environmentId ws
                   (add_trace (map (fun c => ESend c MRunRan)
                                 (others ws (ws_environmentId ws w) w)) w)
                 = Some E1) as -> by (unfold ws_environmentId; simpl;
                                      by rewrite Hsock).
    all: rewrite bool_decide_eq_true_2 by congruence.
    all: eapply (after_binding ws E2 _
                   (add_trace (map (fun c => ESend c MRunRan)
                                 (others ws (ws_environmentId ws w) w)) w)
                   sock Hsock).
    all: apply preserves_bind; [apply _ | apply startSession_registry | intros ?].
    all: apply ws_send_registry.
  - intros line ch file. unfold handleWebSocketMessage, handle_cursorMove.
    rewrite truthy_nonempty by done.
    rewrite (bind_inr (gets _) _ w _ w eq_refl).
    unfold set_environmentId.
    rewrite (bind_inr (modify _) _ w _ _ eq_refl).
    rewrite (bind_inr (gets _) _ _ _ _ eq_refl).
    rewrite send_to_others_spec. simpl.
    split; [|done]. unfold ws_environmentId. simpl.
    by rewrite lookup_alter_eq, Hsock.
Qed.

(** *** What an observer of [diffLine] receives *)















End WithEnvironment.
End DispatcherFacts.

(** ** The dispatcher in the scenarios *)

Module DispatcherScenarios.
Import Js Edit Sys Manager ManagerSpec Dispatcher DispatcherSpec Replay Scenario.
Import ReplayFacts DispatcherFacts.



(** A value that holds a newline is not a valid line: replaying the two
    [insert] events of one such edit, each on the content rejoined after
    the one before, does not give the content the server persisted. *)
Lemma multi_line_value_breaks_replay :
  let v := "a" +:+ nl +:+ "b" in
  let r := edit_content "main.py" Insert 0 (LineMany [v; "c"]) None "x" in
  fst r = join_nl ["a"; "b"; "c"; "x"]
  ∧ replay (snd r) "x" = join_nl ["a"; "c"; "b"; "x"]
  ∧ replay (snd r) "x" ≠ fst r.
Proof. intros v r. vm_compute. split_and!; done. Qed.

(** The server splits the stored content again for every edit, and the
    empty content is one empty line: after a delete of the only line, an
    insert persists the line followed by an empty one. A receiver that
    rejoins after every event follows; one that keeps its array between
    events does not. *)
Lemma kept_array_diverges_after_emptying :
  let es := [Edit Delete 0 (LineOne "") None; Edit Insert 0 (LineOne "x") None] in
  let r := run_edits "main.py" es "a" in
  fst r = "x" +:+ nl
  ∧ replay (snd r) "a" = fst r
  ∧ replay_kept (snd r) "a" = "x".
Proof. intros es r. vm_compute. split_and!; done. Qed.

(** Client 1, bound and registered to [env1], asks for the files of
    [env2]: it is bound to [env2] and in both sets. *)
Lemma getFiles_of_second_environment :
  let w' := snd (handleWebSocketMessage never entries_digest tmp 1
                   (ReqGetFiles (Some "env2")) idle) in
  ws_environmentId 1 w' = Some "env2"
  ∧ 1 ∈ clients_of "env2" w'
  ∧ 1 ∈ clients_of "env1" w'.
Proof.
  intros w'.
  assert (1 ∈ clients_of "env1" idle) as Hreg by left.
  assert ("env2" ≠ EmptyString) as HE2 by discriminate.
  assert ("env1" ≠ "env2") as Hne by discriminate.
  exact (proj1 (proj2 (rebinding_keeps_old_registration never entries_digest tmp 1
                         (Socket "s1" (Some "env1") true) "env1" "env2" idle
                         eq_refl eq_refl Hreg HE2 Hne))).
Defined.

(** C8, as the claim words it, fails for environment-scoped messages
    other than [getFiles] and [run]. Client 1 is bound and registered to
    [env1]. A [cursorMove] naming [env2] overwrites its binding and does
    not add it to the set of [env2]; a [diffLine] naming [env2] does not
    even change its binding. *)
Lemma cursorMove_rebinds_without_registering :
  let moved := snd (handleWebSocketMessage never entries_digest tmp 1
                      (ReqCursorMove "3" "0" "main.py" (Some "env2")) idle) in
  let edited := snd (handleWebSocketMessage never entries_digest tmp 1
                       (ReqDiffLine (Some "env2") (Some "main.py") (Some "insert")
                          (Some 0) (LineOne "x") None) idle) in
  ws_environmentId 1 idle = Some "env1"
  ∧ clients_of "env1" idle = [1]
  ∧ ws_environmentId 1 moved = Some "env2"
  ∧ clients_of "env2" moved = []
  ∧ (1 ∉ clients_of "env2" moved)
  ∧ ws_environmentId 1 edited = Some "env1"
  ∧ (1 ∉ clients_of "env2" edited).
Proof.
  intros moved edited. vm_compute. split_and!; try done; apply not_elem_of_nil.
Qed.

End DispatcherScenarios.

(** ** More of the edit engine: inserts, deletes past the end, empty edits *)

Module EditMore.
Import Js Edit Replay JsFacts EditFacts ReplayFacts.








End EditMore.

(** ** More of the session manager *)

Module ManagerMore.
Import Js Edit Sys Manager ManagerSpec ExtraSpec JsFacts SysFacts ManagerFacts.
Open Scope js_scope.

#[export] Instance keeps_registry_ok_refl : Reflexive keeps_registry_ok.
Proof. intros w H. exact H. Qed.

#[export] Instance keeps_registry_ok_trans : Transitive keeps_registry_ok.
Proof. unfold keeps_registry_ok. intros w1 w2 w3 H1 H2 H. auto. Qed.

Lemma same_registry_ok w w' : clientsMap w' = clientsMap w → keeps_registry_ok w w'.
Proof. intros Heq Hok e cs Hcs. rewrite Heq in Hcs. exact (Hok e cs Hcs). Qed.

Lemma set_add_NoDup c (cs : list client) : NoDup cs → NoDup (set_add c cs).
Proof.
  intros Hnd. unfold set_add. case_bool_decide as Hin; [done|].
  apply NoDup_app. split_and!; [done | | apply NoDup_singleton].
  intros x Hx Hx'%list_elem_of_singleton. by subst.
Qed.

Lemma set_add_nonempty c (cs : list client) : set_add c cs ≠ [].
Proof.
  unfold set_add. case_bool_decide as Hin.
  - intros ->. by apply elem_of_nil in Hin.
  - by destruct cs.
Qed.

Lemma set_add_again c (cs : list client) : set_add c (set_add c cs) = set_add c cs.
Proof.
  unfold set_add at 1. rewrite bool_decide_eq_true_2; [done|].
  unfold set_add. case_bool_decide; [done|].
  apply elem_of_app. right. by apply list_elem_of_singleton.
Qed.

Lemma set_delete_NoDup c (cs : list client) : NoDup cs → NoDup (set_delete c cs).
Proof.
  intros Hnd. unfold set_delete.
  apply NoDup_ListNoDup, List.NoDup_filter. by apply NoDup_ListNoDup.
Qed.

(** Objects. *)

Lemma obj_get_put {V} (k k' : string) (v : V) obj :
  obj_get k (obj_put k' v obj) = if String.eqb k' k then Some v else obj_get k obj.
Proof.
  induction obj as [|[k0 v0] obj IH]; simpl; [done|].
  destruct (String.eqb_spec k0 k') as [->|Hne]; simpl.
  - by destruct (String.eqb k' k).
  - rewrite IH. destruct (String.eqb_spec k0 k) as [->|Hne']; [|done].
    by rewrite (proj2 (String.eqb_neq k' k)).
Qed.

Lemma obj_get_set {V} (k k' : string) (v : V) obj :
  obj_get k (obj_set k' v obj)
  = if negb (String.eqb k' "__proto__") && String.eqb k' k then Some v
    else obj_get k obj.
Proof.
  unfold obj_set. destruct (String.eqb k' "__proto__"); [done|].
  apply obj_get_put.
Qed.

(** The object built from the names [ns], each with the value [g] gives
    it: an entry for every name but [__proto__]. *)
Lemma obj_get_fold {V} (g : string → V) (name : string) (ns : list string) :
  ∀ acc,
    obj_get name
      (fold_left (fun acc r => obj_set (fst r) (snd r) acc)
         (map (fun n => (n, g n)) ns) acc)
    = if bool_decide (name ∈ ns) && negb (String.eqb name "__proto__")
      then Some (g name) else obj_get name acc.
Proof.
  induction ns as [|n ns IH]; intros acc; simpl; [done|].
  rewrite IH. simpl. rewrite obj_get_set.
  destruct (String.eqb_spec name "__proto__") as [->|Hproto].
  - rewrite !andb_false_r.
    by destruct (String.eqb_spec n "__proto__") as [->|Hn].
  - rewrite !andb_true_r.
    destruct (decide (name ∈ ns)) as [Hin|Hin].
    + rewrite !bool_decide_eq_true_2; [done | by right | done].
    + rewrite (bool_decide_eq_false_2 _ Hin).
      destruct (String.eqb_spec n name) as [->|Hne].
      * rewrite bool_decide_eq_true_2 by (by left).
        by rewrite (proj2 (String.eqb_neq name "__proto__")).
      * rewrite andb_false_r. rewrite bool_decide_eq_false_2; [done|].
        intros [->|?]%elem_of_cons; [done | done].
Qed.

Lemma obj_put_keys {V} (k : string) (v : V) obj :
  map fst (obj_put k v obj)
  = if bool_decide (k ∈ map fst obj) then map fst obj else map fst obj ++ [k].
Proof.
  induction obj as [|[k0 v0] obj IH]; simpl; [done|].
  destruct (String.eqb_spec k0 k) as [->|Hne]; simpl.
  - rewrite bool_decide_eq_true_2; [done | by left].
  - rewrite IH. destruct (decide (k ∈ map fst obj)) as [Hin|Hin].
    + rewrite !bool_decide_eq_true_2; [done | by right | done].
    + rewrite !bool_decide_eq_false_2; [done | | done].
      intros [->|?]%elem_of_cons; done.
Qed.

Lemma obj_set_NoDup {V} (k : string) (v : V) obj :
  NoDup (map fst obj) → NoDup (map fst (obj_set k v obj)).
Proof.
  intros Hnd. unfold obj_set. destruct (String.eqb k "__proto__"); [done|].
  rewrite obj_put_keys. case_bool_decide as Hin; [done|].
  apply NoDup_app. split_and!; [done | | apply NoDup_singleton].
  intros x Hx Hx'%list_elem_of_singleton. by subst.
Qed.

Lemma obj_fold_NoDup {V} (rs : list (string * V)) :
  ∀ acc, NoDup (map fst acc) →
    NoDup (map fst (fold_left (fun acc r => obj_set (fst r) (snd r) acc) rs acc)).
Proof.
  induction rs as [|r rs IH]; intros acc Hacc; simpl; [done|].
  apply IH. by apply obj_set_NoDup.
Qed.

Lemma obj_get_elem_of {V} (k : string) (v : V) obj :
  obj_get k obj = Some v → (k, v) ∈ obj.
Proof.
  induction obj as [|[k0 v0] obj IH]; simpl; [done|].
  destruct (String.eqb_spec k0 k) as [->|Hne].
  - intros [= ->]. by left.
  - intros H. right. by apply IH.
Qed.

Lemma obj_elem_of_get {V} (k : string) (v : V) obj :
  NoDup (map fst obj) → (k, v) ∈ obj → obj_get k obj = Some v.
Proof.
  induction obj as [|[k0 v0] obj IH]; simpl; intros Hnd Hin.
  - by apply elem_of_nil in Hin.
  - apply NoDup_cons in Hnd as [Hk0 Hnd].
    apply elem_of_cons in Hin as [[= -> ->]|Hin].
    + by rewrite String.eqb_refl.
    + destruct (String.eqb_spec k0 k) as [->|Hne]; [|by apply IH].
      exfalso. apply Hk0. apply list_elem_of_fmap. by exists (k, v).
Qed.

(** Strings. *)

Lemma append_inj_r (p a b : string) : p +:+ a = p +:+ b → a = b.
Proof. induction p as [|c p IH]; simpl; [done|]. intros [= H]. by apply IH. Qed.

Lemma key_inj (e a b : string) : e +:+ "_" +:+ a = e +:+ "_" +:+ b → a = b.
Proof. intros H%append_inj_r. by injection H. Qed.

Lemma length_append (a b : string) :
  String.length (a +:+ b) = String.length a + String.length b.
Proof. induction a as [|c a IH]; simpl; [done | by rewrite IH]. Qed.

Lemma slice_to_from (n : nat) (s : string) : slice_to n s +:+ slice_from n s = s.
Proof.
  revert s. induction n as [|n IH]; intros [|c s]; try done.
  change (String c (slice_to n s +:+ slice_from n s) = String c s). by rewrite IH.
Qed.

Lemma endsWith_nl_append (s : string) : endsWith_nl (s +:+ nl) = true.
Proof.
  induction s as [|c s IH]; [done|].
  change (String c s +:+ nl) with (String c (s +:+ nl)).
  destruct (s +:+ nl) as [|d r] eqn:Hs; [by destruct s | exact IH].
Qed.

Lemma prefix_append (p s : string) : String.prefix p (p +:+ s) = true.
Proof.
  induction p as [|c p IH]; simpl; [by destruct s|].
  by destruct (Ascii.ascii_dec c c).
Qed.

Lemma prefix_slice (p k : string) :
  String.prefix p k = true → k = p +:+ slice_from (String.length p) k.
Proof.
  revert k. induction p as [|c p IH]; intros k; simpl; [by destruct k|].
  destruct k as [|d k]; [done|]. simpl.
  destruct (Ascii.ascii_dec c d) as [->|]; [|done].
  intros H.
  change (String d k = String d (p +:+ slice_from (String.length p) k)).
  f_equal. by apply IH.
Qed.

Lemma append_assoc_r (a b c : string) : (a +:+ b) +:+ c = a +:+ b +:+ c.
Proof.
  induction a as [|x a IH]; [done|].
  change (String x ((a +:+ b) +:+ c) = String x (a +:+ b +:+ c)). by rewrite IH.
Qed.

Lemma copy_name_length (fileName : string) :
  String.length (copy_name fileName) = String.length fileName + 5.
Proof.
  unfold copy_name.
  assert (∀ n, String.length (slice_to n fileName +:+ "_copy" +:+ slice_from n fileName)
               = String.length fileName + 5) as Hn.
  { intros n.
    transitivity (String.length (slice_to n fileName +:+ slice_from n fileName) + 5);
      [|by rewrite slice_to_from].
    rewrite !length_append. simpl. lia. }
  destruct (lastIndexOf dot fileName) as [[|i]|]; [| apply Hn |];
    rewrite length_append; simpl; lia.
Qed.

Lemma copy_name_fresh (fileName : string) : copy_name fileName ≠ fileName.
Proof.
  intros H. pose proof (copy_name_length fileName) as Hlen. rewrite H in Hlen. lia.
Qed.

Section WithEnvironment.

Context {platform : Platform}.

Variable throws : world → call → option string.
Variable sha256_json : list (string * value) → string.
Variable baseTmpDir : string.

Ltac more_preserves leaf :=
  repeat first [ apply preserves_ext; apply _ | preserves_step leaf ].

Lemma registerClient_world e c w :
  registerClient e c w
  = (inr tt, with_clientsMap (insert e (set_add c (clients_of e w))) w).
Proof.
  unfold registerClient, clients_of, bind, gets, modify, ret.
  destruct (clientsMap w !! e) as [cs|] eqn:Hcs; simpl.
  - unfold with_clientsMap. simpl. by rewrite Hcs.
  - unfold with_clientsMap. simpl. rewrite lookup_insert_eq.
    by rewrite insert_insert_eq.
Qed.

(** X4. Registering a client that is registered changes nothing: the second
    of two [registerClient] calls leaves the world of the first. *)
Theorem registerClient_idempotent (e : string) (c : client) (w : world) :
  let w1 := snd (registerClient e c w) in
  registerClient e c w1 = (inr tt, w1)
  ∧ c ∈ clients_of e w1
  ∧ (c ∈ clients_of e w → clientsMap w1 = clientsMap w).
Proof.
  intros w1. subst w1. rewrite !registerClient_world. simpl. split_and!.
  - f_equal. unfold with_clientsMap, clients_of. simpl.
    rewrite lookup_insert_eq. simpl. rewrite set_add_again.
    by rewrite insert_insert_eq.
  - unfold clients_of. simpl. rewrite lookup_insert_eq. simpl.
    unfold set_add. case_bool_decide; [done|].
    apply elem_of_app. right. by apply list_elem_of_singleton.
  - intros Hin. unfold clients_of in *.
    destruct (clientsMap w !! e) as [cs|] eqn:Hcs; simpl in *.
    + unfold set_add. rewrite bool_decide_eq_true_2 by done. by apply insert_id.
    + by apply elem_of_nil in Hin.
Qed.

Lemma stopSession_registry e : preserves same_registry (stopSession throws e).
Proof. more_preserves ltac:(unfold same_registry; simpl; by split_and!). Qed.

Lemma registerClient_registry_ok e c :
  preserves keeps_registry_ok (registerClient e c).
Proof.
  intros w. rewrite registerClient_world. simpl. intros Hok e' cs'. simpl.
  destruct (decide (e = e')) as [->|Hne].
  - rewrite lookup_insert_eq. intros [= <-]. split; [apply set_add_nonempty|].
    apply set_add_NoDup. unfold clients_of.
    destruct (clientsMap w !! e') as [cs|] eqn:Hcs; simpl; [|apply NoDup_nil_2].
    by apply (Hok e' cs).
  - rewrite lookup_insert_ne by done. apply Hok.
Qed.

Lemma unregisterClient_registry_ok e c :
  preserves keeps_registry_ok (unregisterClient throws e c).
Proof.
  intros w Hok.
  destruct (clientsMap w !! e) as [cs|] eqn:Hcs.
  - rewrite (unregisterClient_unfold throws e c cs w Hcs).
    destruct (set_delete c cs) as [|c0 rest] eqn:Hdel; simpl Nat.eqb; cbv iota.
    + destruct (stopSession_total throws e (unregistered e c cs w)) as [b Hb].
      pose proof (stopSession_registry e (unregistered e c cs w)) as (_ & _ & Hcm).
      destruct (stopSession throws e (unregistered e c cs w)) as [res w2] eqn:Hstop.
      simpl in Hb, Hcm. subst res. rewrite (detached_then _ _ _ _ _ Hstop). simpl.
      intros e' cs'. unfold with_clientsMap. simpl. rewrite Hcm.
      destruct (decide (e = e')) as [->|Hne].
      * by rewrite lookup_delete_eq.
      * rewrite lookup_delete_ne, lookup_insert_ne by done. apply Hok.
    + simpl. intros e' cs'. unfold unregistered. simpl.
      destruct (decide (e = e')) as [->|Hne].
      * rewrite lookup_insert_eq. intros [= <-]. rewrite Hdel. split; [done|].
        rewrite <- Hdel. apply set_delete_NoDup. by apply (Hok e' cs).
      * rewrite lookup_insert_ne by done. apply Hok.
  - unfold unregisterClient, bind, gets. rewrite Hcs.
    rewrite bool_decide_eq_false_2 by (by intros [? ?]). done.
Qed.

(** X6. A broadcast never throws and changes nothing but the trace, to which
    it adds one send of the message for each registered client of the
    environment whose socket is open, and nothing else. *)
Theorem broadcast_reaches_open_members (e : string) (m : message) (w : world) :
  ∃ sends,
    broadcastToEnvironment e m w = (inr tt, add_trace sends w)
    ∧ (∀ ev, ev ∈ sends
         ↔ ∃ c, ev = ESend c m ∧ c ∈ clients_of e w ∧ is_open c w = true)
    ∧ (NoDup (clients_of e w) → NoDup sends)
    ∧ (clientsMap w !! e = None → sends = []).
Proof.
  exists (broadcast_sends e m w). split_and!.
  - apply broadcast_spec.
  - intros ev. unfold broadcast_sends. rewrite list_elem_of_fmap. split.
    + intros (c & -> & Hc). apply list_elem_of_In, List.filter_In in Hc.
      destruct Hc as [Hc Hopen]. exists c. split_and!; [done| |done].
      by apply list_elem_of_In.
    + intros (c & -> & Hc & Hopen). exists c. split; [done|].
      apply list_elem_of_In, List.filter_In. split; [|done]. by apply list_elem_of_In.
  - intros Hnd. unfold broadcast_sends. apply NoDup_fmap_2.
    + by intros c c' [= ->].
    + apply NoDup_ListNoDup, List.NoDup_filter. by apply NoDup_ListNoDup.
  - intros Hnone. unfold broadcast_sends, clients_of. by rewrite Hnone.
Qed.

(** X7. What [sendInput] writes ends in a newline: the input itself when it
    ends in one, the input and a newline otherwise. Without a session it
    returns [false] and writes nothing; with one, the handle receives
    the write and the result is [false] exactly when the write throws. *)
Theorem sendInput_writes_one_line (e input : string) (w : world) :
  let data := if endsWith_nl input then input else input +:+ nl in
  endsWith_nl data = true
  ∧ (sessions w !! e = None → sendInput throws e input w = (inr false, w))
  ∧ (∀ s, sessions w !! e = Some s →
       let w1 := add_trace [EWrite (ptyProcess s) data] w in
       sendInput throws e input w
       = (inr match throws w1 (PtyWrite (ptyProcess s) data) with
              | Some _ => false
              | None => true
              end, w1)).
Proof.
  intros data. split_and!.
  - subst data. destruct (endsWith_nl input) eqn:H; [done|]. apply endsWith_nl_append.
  - intros H. unfold sendInput, bind, gets. by rewrite H.
  - intros s H w1. unfold sendInput. unfold bind at 1, gets at 1. rewrite H.
    fold data. unfold try_catch, pty_write, emit, bind, modify, ext, ret.
    fold w1. by destruct (throws w1 (PtyWrite (ptyProcess s) data)).
Qed.

(** X8. After [stopSession], whatever it did, the environment has no session:
    a second [stopSession] returns [false] and a [sendInput] returns
    [false], and neither touches the world. *)
Theorem stopSession_then_nothing_runs (e input : string) (w : world) :
  let w1 := snd (stopSession throws e w) in
  stopSession throws e w1 = (inr false, w1)
  ∧ sendInput throws e input w1 = (inr false, w1).
Proof.
  intros w1. pose proof (stopSession_clears throws e w) as Hnone. fold w1 in Hnone.
  split; [by apply stopSession_none|].
  unfold sendInput, bind, gets. by rewrite Hnone.
Qed.

(** The file operations on what the adapter reads. *)

Lemma renameFile_of_value e oldName newName w :
  throws w (RedisGet (e +:+ "_" +:+ oldName)) = None →
  parsed (redis w !! (e +:+ "_" +:+ oldName)) ≠ VNull →
  renameFile throws e oldName newName w
  = (set throws (e +:+ "_" +:+ newName) (parsed (redis w !! (e +:+ "_" +:+ oldName))) >>
     redis_del throws (e +:+ "_" +:+ oldName) >>
     ret true) w.
Proof.
  intros Hget Hv. unfold renameFile.
  rewrite (bind_inr _ _ _ _ _ (get_ok throws _ w Hget)).
  by destruct (parsed (redis w !! (e +:+ "_" +:+ oldName))).
Qed.

(** X9. [renameFile] on a key for which the adapter's [get] returns a
    value other than [null] writes the text of that value under the new
    name (the stored text itself when [JSON.parse] throws on it) and then
    deletes the old key, and touches no other key. With the new name
    equal to the old one the file is gone afterwards. When the delete
    throws after the write, the error is passed on, the new name holds
    the text and the old key is as it was. *)
Theorem renameFile_moves_content (e oldName newName : string) (v : value) (w : world) :
  let oldKey := e +:+ "_" +:+ oldName in
  let newKey := e +:+ "_" +:+ newName in
  let w1 := with_redis (insert newKey (store_text v)) w in
  throws w (RedisGet oldKey) = None →
  parsed (redis w !! oldKey) = v →
  v ≠ VNull →
  throws w (RedisSet newKey (store_text v)) = None →
  (throws w1 (RedisDel oldKey) = None →
     let w2 := with_redis (delete oldKey) w1 in
     renameFile throws e oldName newName w = (inr true, w2)
     ∧ redis w2 !! oldKey = None
     ∧ (oldName ≠ newName → redis w2 !! newKey = Some (store_text v))
     ∧ (oldName = newName → redis w2 !! newKey = None)
     ∧ (∀ k, k ≠ oldKey → k ≠ newKey → redis w2 !! k = redis w !! k))
  ∧ (∀ msg, throws w1 (RedisDel oldKey) = Some msg →
       renameFile throws e oldName newName w = (inl msg, w1)
       ∧ redis w1 !! newKey = Some (store_text v)
       ∧ (oldName ≠ newName → redis w1 !! oldKey = redis w !! oldKey))
  ∧ (∀ content, redis w !! oldKey = Some content → JSON_parse content = None →
       store_text v = content).
Proof.
  intros oldKey newKey w1 Hget Hv Hnull Hset.
  assert (renameFile throws e oldName newName w
          = (redis_del throws oldKey >> ret true) w1) as Hren.
  { rewrite (renameFile_of_value e oldName newName w Hget) by (fold oldKey; by rewrite Hv).
    fold oldKey newKey. rewrite Hv.
    by rewrite (bind_inr _ _ _ _ _ (set_ok throws newKey v w Hset)). }
  assert (oldName ≠ newName → newKey ≠ oldKey) as Hkeys.
  { intros Hne Heq. apply Hne. symmetry. by apply (key_inj e). }
  split_and!.
  - intros Hdel w2. split_and!.
    + rewrite Hren. unfold redis_del, bind, ext, modify, ret. by rewrite Hdel.
    + simpl. by rewrite lookup_delete_eq.
    + intros Hne. simpl. rewrite lookup_delete_ne, lookup_insert_eq; [done|].
      intros Heq. by apply (Hkeys Hne).
    + intros ->. simpl. by rewrite lookup_delete_eq.
    + intros k Hk Hk'. simpl. by rewrite lookup_delete_ne, lookup_insert_ne.
  - intros msg Hdel. split_and!.
    + rewrite Hren. unfold redis_del, bind, ext. by rewrite Hdel.
    + simpl. by rewrite lookup_insert_eq.
    + intros Hne. simpl. rewrite lookup_insert_ne; [done|]. by apply Hkeys.
  - intros content Hc Hplain. rewrite <- Hv, Hc. by rewrite (parsed_plain content Hplain).
Qed.

(** The file operations when no call out of the process throws. *)

Lemma with_redis_id (f : gmap string string → gmap string string) w :
  f (redis w) = redis w → with_redis f w = w.
Proof. intros H. destruct w. unfold with_redis. simpl in *. by rewrite H. Qed.

Lemma with_redis_twice (f g : gmap string string → gmap string string) w :
  with_redis g (with_redis f w) = with_redis (fun m => g (f m)) w.
Proof. done. Qed.

Lemma set_quiet key v w :
  (∀ w0 c, throws w0 c = None) →
  set throws key v w = (inr tt, with_redis (insert key (store_text v)) w).
Proof. intros Hq. apply set_ok, Hq. Qed.

Lemma del_quiet key w :
  (∀ w0 c, throws w0 c = None) →
  redis_del throws key w = (inr tt, with_redis (delete key) w).
Proof. intros Hq. unfold redis_del, bind, ext, modify. by rewrite Hq. Qed.

Lemma renameFile_quiet e oldName newName w :
  (∀ w0 c, throws w0 c = None) →
  parsed (redis w !! (e +:+ "_" +:+ oldName)) ≠ VNull →
  renameFile throws e oldName newName w
  = (inr true,
     with_redis
       (fun m => delete (e +:+ "_" +:+ oldName)
                   (<[e +:+ "_" +:+ newName
                      := store_text (parsed (redis w !! (e +:+ "_" +:+ oldName)))]> m))
       w).
Proof.
  intros Hq Hv. rewrite (renameFile_of_value e oldName newName w (Hq _ _) Hv).
  rewrite (bind_inr _ _ _ _ _ (set_quiet _ _ w Hq)).
  by rewrite (bind_inr _ _ _ _ _ (del_quiet _ _ Hq)).
Qed.

Lemma duplicateFile_quiet e fileName w :
  (∀ w0 c, throws w0 c = None) →
  parsed (redis w !! (e +:+ "_" +:+ fileName)) ≠ VNull →
  duplicateFile throws e fileName w
  = (inr (copy_name fileName),
     with_redis
       (insert (e +:+ "_" +:+ copy_name fileName)
          (store_text (parsed (redis w !! (e +:+ "_" +:+ fileName))))) w).
Proof.
  intros Hq Hv. rewrite (duplicateFile_of_value throws e fileName w (Hq _ _) Hv).
  by rewrite (bind_inr _ _ _ _ _ (set_quiet _ _ w Hq)).
Qed.

Lemma deleteFile_quiet e fileName w :
  (∀ w0 c, throws w0 c = None) →
  deleteFile throws e fileName w
  = (inr true, with_redis (delete (e +:+ "_" +:+ fileName)) w).
Proof.
  intros Hq. unfold deleteFile. by rewrite (bind_inr _ _ _ _ _ (del_quiet _ w Hq)).
Qed.

(** X10. Renaming a file whose text is not JSON to a name the store does
    not have and back again leaves the world as it was. *)
Theorem rename_there_and_back (e a b content : string) (w : world) :
  (∀ w0 c, throws w0 c = None) →
  a ≠ b →
  redis w !! (e +:+ "_" +:+ a) = Some content →
  JSON_parse content = None →
  redis w !! (e +:+ "_" +:+ b) = None →
  (renameFile throws e a b >> renameFile throws e b a) w = (inr true, w).
Proof.
  intros Hq Hne Ha Hplain Hb.
  assert (e +:+ "_" +:+ a ≠ e +:+ "_" +:+ b) as Hkeys.
  { intros H. apply Hne. by apply (key_inj e). }
  assert (parsed (Some content) = VStr content) as Hread by by apply parsed_plain.
  rewrite (bind_inr _ _ _ _ _ (renameFile_quiet e a b w Hq
                                 ltac:(by rewrite Ha, Hread))).
  rewrite Ha, Hread. simpl store_text.
  set (w1 := with_redis _ w).
  assert (redis w1 !! (e +:+ "_" +:+ b) = Some content) as Hb1.
  { unfold w1. simpl. by rewrite lookup_delete_ne, lookup_insert_eq. }
  rewrite (renameFile_quiet e b a w1 Hq ltac:(by rewrite Hb1, Hread)).
  rewrite Hb1, Hread. simpl store_text. unfold w1.
  rewrite with_redis_twice. f_equal. apply with_redis_id. apply map_eq. intros k.
  destruct (decide (k = e +:+ "_" +:+ b)) as [->|Hkb].
  - by rewrite lookup_delete_eq.
  - rewrite lookup_delete_ne by done.
    destruct (decide (k = e +:+ "_" +:+ a)) as [->|Hka].
    + by rewrite lookup_insert_eq.
    + by rewrite lookup_insert_ne, lookup_delete_ne, lookup_insert_ne.
Qed.

(** X11. The name of the copy is never the name of the file (it is five
    characters longer), so [duplicateFile] leaves the original as it is.
    For a file the adapter's [get] does not return [null] for, the key of
    the copy holds the text of the value read (the stored text itself
    when [JSON.parse] throws on it), whatever it held before, and a
    second [duplicateFile] of the same file changes nothing. *)
Theorem duplicateFile_keeps_original (e fileName content : string) (w : world) :
  (∀ w0 c, throws w0 c = None) →
  redis w !! (e +:+ "_" +:+ fileName) = Some content →
  parsed (Some content) ≠ VNull →
  let w1 := snd (duplicateFile throws e fileName w) in
  String.length (copy_name fileName) = String.length fileName + 5
  ∧ redis w1 !! (e +:+ "_" +:+ fileName) = Some content
  ∧ redis w1 !! (e +:+ "_" +:+ copy_name fileName)
    = Some (store_text (parsed (Some content)))
  ∧ (JSON_parse content = None →
     redis w1 !! (e +:+ "_" +:+ copy_name fileName) = Some content)
  ∧ duplicateFile throws e fileName w1 = (inr (copy_name fileName), w1).
Proof.
  intros Hq Hold Hv w1. subst w1.
  assert (e +:+ "_" +:+ copy_name fileName ≠ e +:+ "_" +:+ fileName) as Hkeys.
  { intros H%key_inj. by apply (copy_name_fresh fileName). }
  rewrite (duplicateFile_quiet e fileName w Hq ltac:(by rewrite Hold)).
  rewrite Hold. simpl snd.
  set (w1 := with_redis _ w).
  assert (redis w1 !! (e +:+ "_" +:+ fileName) = Some content) as Hkept.
  { unfold w1. simpl. by rewrite lookup_insert_ne. }
  assert (redis w1 !! (e +:+ "_" +:+ copy_name fileName)
          = Some (store_text (parsed (Some content)))) as Hcopy.
  { unfold w1. simpl. by rewrite lookup_insert_eq. }
  split_and!.
  - apply copy_name_length.
  - exact Hkept.
  - exact Hcopy.
  - intros Hplain. rewrite Hcopy. by rewrite (parsed_plain content Hplain).
  - rewrite (duplicateFile_quiet e fileName w1 Hq ltac:(by rewrite Hkept)).
    rewrite Hkept. f_equal. unfold w1.
    rewrite with_redis_twice. unfold with_redis. simpl. by rewrite insert_insert_eq.
Qed.

(** X12. Duplicating a file and then deleting the original is renaming it to
    the name of the copy. *)
Theorem duplicate_then_delete_is_rename (e fileName content : string) (w : world) :
  (∀ w0 c, throws w0 c = None) →
  redis w !! (e +:+ "_" +:+ fileName) = Some content →
  (duplicateFile throws e fileName >> deleteFile throws e fileName) w
  = renameFile throws e fileName (copy_name fileName) w.
Proof.
  intros Hq Hold.
  assert (parsed (redis w !! (e +:+ "_" +:+ fileName)) = VNull
          ∨ parsed (redis w !! (e +:+ "_" +:+ fileName)) ≠ VNull) as [Hv|Hv].
  { destruct (parsed (redis w !! (e +:+ "_" +:+ fileName)));
      first [by left | by right]. }
  - unfold duplicateFile, renameFile.
    rewrite (bind_inr _ _ _ _ _ (get_ok throws _ w (Hq _ _))).
    rewrite (bind_inl _ _ w "File does not exist" w).
    + by rewrite Hv.
    + rewrite (bind_inr _ _ _ _ _ (get_ok throws _ w (Hq _ _))). by rewrite Hv.
  - rewrite (bind_inr _ _ _ _ _ (duplicateFile_quiet e fileName w Hq Hv)).
    rewrite (deleteFile_quiet e fileName _ Hq).
    by rewrite (renameFile_quiet e fileName (copy_name fileName) w Hq Hv).
Qed.

Lemma map_all_reads {A B} (f : A → M B) (g : A → B) (w : world) (l : list A) :
  (∀ x, f x w = (inr (g x), w)) → map_all l f w = (inr (map g l), w).
Proof.
  intros Hf. induction l as [|x l IH]; simpl; [done|].
  unfold bind. rewrite Hf, IH. done.
Qed.

(** The listing of an environment whose pattern matches the keys with
    its prefix and no others. *)
Lemma listing_quiet (e : string) (w : world) :
  (∀ w0 c, throws w0 c = None) →
  (∀ key, scan_match (e +:+ "_*") key = String.prefix (e +:+ "_") key) →
  ∃ files,
    getAllFilesForEnvironment throws e w = (inr files, w)
    ∧ NoDup (map fst files)
    ∧ (∀ name, obj_get name files
               = if String.eqb name "__proto__" then None
                 else match redis w !! (e +:+ "_" +:+ name) with
                      | Some text => Some (parsed (Some text))
                      | None => None
                      end).
Proof.
  intros Hq Hmatch.
  set (p := e +:+ "_").
  set (keys := List.filter (String.prefix p) (map fst (map_to_list (redis w)))).
  set (slice := slice_from (String.length e + 1)).
  assert (String.length e + 1 = String.length p) as Hlen.
  { unfold p. rewrite length_append. simpl. lia. }
  assert (∀ name, slice (p +:+ name) = name) as Hslice.
  { intros name. unfold slice. rewrite Hlen. apply slice_from_app. }
  assert (∀ k, k ∈ keys → k = p +:+ slice k) as Hkeys.
  { intros k [_ Hk]%list_elem_of_In%List.filter_In.
    apply prefix_slice in Hk. unfold slice. by rewrite Hlen. }
  assert (∀ name, name ∈ map slice keys ↔ is_Some (redis w !! (p +:+ name))) as Hin.
  { intros name. rewrite list_elem_of_fmap. split.
    - intros (k & -> & Hk). rewrite <- (Hkeys k Hk).
      apply list_elem_of_In, List.filter_In in Hk as [Hk _].
      apply list_elem_of_In, list_elem_of_fmap in Hk as ([k' v] & -> & Hkv).
      apply elem_of_map_to_list in Hkv. simpl. by rewrite Hkv.
    - intros [v Hv]. exists (p +:+ name). split; [by rewrite Hslice|].
      apply list_elem_of_In, List.filter_In. split; [|apply prefix_append].
      apply list_elem_of_In, list_elem_of_fmap. exists (p +:+ name, v).
      split; [done|]. by apply elem_of_map_to_list. }
  set (files := fold_left (fun acc r => obj_set (fst r) (snd r) acc)
                  (map (fun n => (n, parsed (redis w !! (p +:+ n)))) (map slice keys))
                  []).
  exists files. split_and!.
  - unfold getAllFilesForEnvironment, redis_scan.
    unfold bind at 1. unfold bind at 1, ext at 1. rewrite Hq.
    unfold gets at 1.
    rewrite (List.filter_ext _ _ Hmatch). fold p keys slice.
    assert (∀ key, (v <- get throws key ;; ret (slice key, v)) w
                   = (inr (slice key, parsed (redis w !! key)), w)) as Hread.
    { intros key. by rewrite (bind_inr _ _ _ _ _ (get_ok throws key w (Hq _ _))). }
    rewrite (bind_inr _ _ _ _ _ (map_all_reads _ _ w keys Hread)).
    unfold ret. f_equal. f_equal. unfold files. f_equal.
    rewrite map_map. apply map_ext_in. intros k Hk%list_elem_of_In.
    by rewrite <- (Hkeys k Hk).
  - apply obj_fold_NoDup. apply NoDup_nil_2.
  - intros name. unfold files. rewrite obj_get_fold. simpl.
    replace (e +:+ "_" +:+ name) with (p +:+ name)
      by (unfold p; by rewrite append_assoc_r).
    destruct (String.eqb name "__proto__"); [by rewrite andb_false_r|].
    rewrite andb_true_r.
    destruct (redis w !! (p +:+ name)) as [v|] eqn:Hv.
    + rewrite bool_decide_eq_true_2; [done|]. apply Hin. by rewrite Hv.
    + rewrite bool_decide_eq_false_2; [done|]. intros [v Hv']%Hin. congruence.
Qed.

(** X13. For an environment whose scan pattern matches the keys that
    start with its identifier and an underscore and no others,
    [getAllFilesForEnvironment] lists every such key but the one for the
    name [__proto__], under the part of the key after the prefix and
    with what the adapter's [get] returns for it, and nothing else; it
    changes nothing. The keys of an environment whose identifier starts
    with this one and an underscore are among them. *)
Theorem listing_is_every_key_with_the_prefix (e : string) (w : world) :
  (∀ w0 c, throws w0 c = None) →
  (∀ key, scan_match (e +:+ "_*") key = String.prefix (e +:+ "_") key) →
  ∃ files,
    getAllFilesForEnvironment throws e w = (inr files, w)
    ∧ NoDup (map fst files)
    ∧ (∀ name, obj_get name files
               = if String.eqb name "__proto__" then None
                 else match redis w !! (e +:+ "_" +:+ name) with
                      | Some text => Some (parsed (Some text))
                      | None => None
                      end)
    ∧ (∀ e' name text,
         redis w !! ((e +:+ "_" +:+ e') +:+ "_" +:+ name) = Some text →
         e' +:+ "_" +:+ name ≠ "__proto__" →
         obj_get (e' +:+ "_" +:+ name) files = Some (parsed (Some text))).
Proof.
  intros Hq Hmatch.
  destruct (listing_quiet e w Hq Hmatch) as (files & Hlist & Hnd & Hget).
  exists files. split_and!; [done | done | done |].
  intros e' name text Hv Hproto. rewrite Hget.
  rewrite (proj2 (String.eqb_neq _ _) Hproto).
  rewrite !append_assoc_r in Hv. simpl in Hv. simpl. by rewrite Hv.
Qed.

(** X14. For an environment whose scan pattern matches the keys with its
    prefix and no others, and a file name other than [__proto__]: a file
    saved with text that is not JSON is listed with that text, a deleted
    file is not listed, and neither changes how any other name is
    listed. *)
Theorem listing_follows_save_and_delete (e fileName content : string) (w : world) :
  (∀ w0 c, throws w0 c = None) →
  (∀ key, scan_match (e +:+ "_*") key = String.prefix (e +:+ "_") key) →
  fileName ≠ "__proto__" →
  JSON_parse content = None →
  ∃ before saved deleted,
    getAllFilesForEnvironment throws e w = (inr before, w)
    ∧ (saveFile throws e fileName (VStr content) >> getAllFilesForEnvironment throws e) w
      = (inr saved, snd (saveFile throws e fileName (VStr content) w))
    ∧ (deleteFile throws e fileName >> getAllFilesForEnvironment throws e) w
      = (inr deleted, snd (deleteFile throws e fileName w))
    ∧ obj_get fileName saved = Some (VStr content)
    ∧ obj_get fileName deleted = None
    ∧ (∀ name, name ≠ fileName →
         obj_get name saved = obj_get name before
         ∧ obj_get name deleted = obj_get name before).
Proof.
  intros Hq Hmatch Hproto Hplain.
  assert (saveFile throws e fileName (VStr content) w
          = (inr true, with_redis (insert (e +:+ "_" +:+ fileName) content) w)) as Hsave.
  { unfold saveFile. by rewrite (bind_inr _ _ _ _ _ (set_quiet _ (VStr content) w Hq)). }
  pose proof (deleteFile_quiet e fileName w Hq) as Hdel.
  destruct (listing_quiet e w Hq Hmatch) as (before & H0 & _ & Hb).
  destruct (listing_quiet e (with_redis (insert (e +:+ "_" +:+ fileName) content) w)
              Hq Hmatch) as (saved & H1 & _ & Hs).
  destruct (listing_quiet e (with_redis (delete (e +:+ "_" +:+ fileName)) w) Hq Hmatch)
    as (deleted & H2 & _ & Hd).
  exists before, saved, deleted. split_and!.
  - done.
  - rewrite (bind_inr _ _ _ _ _ Hsave). by rewrite Hsave.
  - rewrite (bind_inr _ _ _ _ _ Hdel). by rewrite Hdel.
  - rewrite Hs. rewrite (proj2 (String.eqb_neq _ _) Hproto). simpl.
    rewrite lookup_insert_eq. unfold parsed. by rewrite Hplain.
  - rewrite Hd. rewrite (proj2 (String.eqb_neq _ _) Hproto). simpl.
    by rewrite lookup_delete_eq.
  - intros name Hne.
    assert (e +:+ "_" +:+ fileName ≠ e +:+ "_" +:+ name) as Hkeys.
    { intros H. apply Hne. symmetry. by apply (key_inj e). }
    rewrite Hs, Hd, Hb. simpl.
    by rewrite lookup_insert_ne, lookup_delete_ne.
Qed.

Lemma buildFileObject_quiet (fileNames : list string) (e : string) (w : world) :
  (∀ w0 c, throws w0 c = None) →
  buildFileObject throws sha256_json fileNames e w
  = (inr (built_files e fileNames w, sha256_json (built_files e fileNames w)), w).
Proof.
  intros Hq. unfold buildFileObject.
  assert (∀ fileName,
            (fileContent <- get throws (e +:+ "_" +:+ fileName) ;;
             let fileContent :=
               if falsy fileContent && String.eqb fileName "main.py"
               then VStr default_main_py else fileContent in
             ret (fileName,
                  if falsy fileContent then VStr EmptyString else fileContent)) w
            = (inr (fileName, built_content e fileName w), w)) as Hread.
  { intros fileName.
    rewrite (bind_inr _ _ _ _ _ (get_ok throws _ w (Hq _ _))).
    unfold ret, built_content. cbv zeta.
    destruct (falsy (parsed (redis w !! (e +:+ "_" +:+ fileName)))) eqn:Hf;
      cbn [andb].
    - destruct (String.eqb fileName "main.py"); [done | by rewrite Hf].
    - by rewrite Hf. }
  by rewrite (bind_inr _ _ _ _ _ (map_all_reads _ _ w fileNames Hread)).
Qed.

Lemma built_files_NoDup e fileNames w : NoDup (map fst (built_files e fileNames w)).
Proof. apply obj_fold_NoDup. apply NoDup_nil_2. Qed.

Lemma built_files_get e fileNames w name :
  obj_get name (built_files e fileNames w)
  = if bool_decide (name ∈ fileNames) && negb (String.eqb name "__proto__")
    then Some (built_content e name w) else None.
Proof. unfold built_files. by rewrite obj_get_fold. Qed.

(** X15. [buildFileObject] gives each requested name but [__proto__] one
    entry, whichever way the names repeat, and no other entry. The entry
    holds what the adapter's [get] returns for the file when that is
    truthy (the stored text itself when it is not empty and [JSON.parse]
    throws on it); otherwise the default body for [main.py] and the
    empty string for any other name. The digest is taken of these
    entries, and nothing changes. *)
Theorem buildFileObject_contents (fileNames : list string) (e : string) (w : world) :
  (∀ w0 c, throws w0 c = None) →
  ∃ files,
    buildFileObject throws sha256_json fileNames e w = (inr (files, sha256_json files), w)
    ∧ NoDup (map fst files)
    ∧ (∀ name, obj_get name files
               = if bool_decide (name ∈ fileNames) && negb (String.eqb name "__proto__")
                 then Some (built_content e name w) else None)
    ∧ (∀ name, falsy (parsed (redis w !! (e +:+ "_" +:+ name))) = true →
         built_content e name w
         = VStr (if String.eqb name "main.py" then default_main_py else EmptyString))
    ∧ (∀ name, falsy (parsed (redis w !! (e +:+ "_" +:+ name))) = false →
         built_content e name w = parsed (redis w !! (e +:+ "_" +:+ name)))
    ∧ (∀ name content, content ≠ EmptyString →
         redis w !! (e +:+ "_" +:+ name) = Some content → JSON_parse content = None →
         built_content e name w = VStr content).
Proof.
  intros Hq. exists (built_files e fileNames w). split_and!.
  - by apply buildFileObject_quiet.
  - apply built_files_NoDup.
  - intros name. apply built_files_get.
  - intros name Hfalsy. unfold built_content. cbv zeta. by rewrite Hfalsy.
  - intros name Hfalsy. unfold built_content. cbv zeta. by rewrite Hfalsy.
  - intros name content Hne Hsome Hplain. unfold built_content. cbv zeta.
    rewrite Hsome, (parsed_plain content Hplain). simpl.
    by rewrite (proj2 (String.eqb_neq content EmptyString)).
Qed.

(** The files [writeFilesToDir] leaves in the directory. *)

Lemma written_other (dir p : string) (files : list (string * value)) :
  ∀ m : gmap string string,
    (∀ name c, (name, c) ∈ files → p ≠ path_join dir name) →
    fold_left (fun m en => <[path_join dir (fst en) := written (snd en)]> m) files m !! p
    = m !! p.
Proof.
  induction files as [|[n c] files IH]; intros m Hp; simpl; [done|].
  rewrite IH.
  - rewrite lookup_insert_ne; [done|]. intros H. apply (Hp n c); [by left | done].
  - intros name c' Hin. apply (Hp name c'). by right.
Qed.

Lemma written_entry (dir : string) (files : list (string * value)) :
  ∀ (m : gmap string string) name c,
    NoDup (map fst files) → (name, c) ∈ files →
    (∀ name' c', (name', c') ∈ files →
       path_join dir name' = path_join dir name → name' = name) →
    fold_left (fun m en => <[path_join dir (fst en) := written (snd en)]> m) files m
      !! path_join dir name = Some (written c).
Proof.
  induction files as [|[n c0] files IH]; intros m name c Hnd Hin Hinj; simpl.
  - by apply elem_of_nil in Hin.
  - simpl in Hnd. apply NoDup_cons in Hnd as [Hn Hnd].
    apply elem_of_cons in Hin as [[= -> ->]|Hin].
    + rewrite written_other; [by rewrite lookup_insert_eq|].
      intros name c' Hin' Hpath. apply Hn.
      rewrite <- (Hinj name c' ltac:(by right) ltac:(done)).
      apply list_elem_of_fmap. by exists (name, c').
    + apply IH; [done | done |]. intros name' c' Hin'. apply (Hinj name' c'). by right.
Qed.

Lemma for_each_writes (dir : string) (files : list (string * value)) :
  (∀ w0 c, throws w0 c = None) →
  ∀ w,
    for_each files (fun entry =>
      ext throws (FsWriteFile (path_join dir (fst entry)) (snd entry)) >>
      modify (with_fs_files (insert (path_join dir (fst entry)) (written (snd entry))))) w
    = (inr tt,
       with_fs_files
         (fold_left (fun m en => <[path_join dir (fst en) := written (snd en)]> m) files)
         w).
Proof.
  intros Hq. induction files as [|en files IH]; intros w; simpl.
  - unfold ret. f_equal. by destruct w.
  - unfold bind at 1. unfold bind at 1, ext at 1. rewrite Hq.
    unfold modify at 1. by rewrite IH.
Qed.

Lemma writeFilesToDir_quiet (e : string) (files : list (string * value)) (w : world) :
  (∀ w0 c, throws w0 c = None) →
  writeFilesToDir throws baseTmpDir e files w
  = (inr (path_join baseTmpDir e),
     with_fs_files
       (fold_left
          (fun m en => <[path_join (path_join baseTmpDir e) (fst en) := written (snd en)]> m)
          files)
       (with_fs_dirs (fun d => {[path_join baseTmpDir e]} ∪ d) w)).
Proof.
  intros Hq. unfold writeFilesToDir. cbv zeta.
  unfold bind at 1, gets at 1.
  assert (∀ (k : M string),
            ((if bool_decide (path_join baseTmpDir e ∈ fs_dirs w) then ret tt
              else ext throws (FsMkdir (path_join baseTmpDir e)) >>
                   modify (with_fs_dirs (fun d => {[path_join baseTmpDir e]} ∪ d))) >> k) w
            = k (with_fs_dirs (fun d => {[path_join baseTmpDir e]} ∪ d) w)) as Hdir.
  { intros k. case_bool_decide as Hin.
    - unfold bind, ret. f_equal. destruct w. unfold with_fs_dirs. simpl in *.
      f_equal. symmetry. apply subseteq_union_1_L. by apply singleton_subseteq_l.
    - unfold bind, ext, modify. by rewrite Hq. }
  rewrite Hdir.
  by rewrite (bind_inr _ _ _ _ _ (for_each_writes _ files Hq _)).
Qed.

Lemma pty_spawn_quiet file args w :
  (∀ w0 c, throws w0 c = None) →
  pty_spawn throws file args w
  = (inr (next_pty w), add_trace [ESpawn (next_pty w) file args] (with_next_pty S w)).
Proof.
  intros Hq. unfold pty_spawn, bind, ext, gets, modify, emit, ret. by rewrite Hq.
Qed.

Lemma startSession_fresh e fileNames hash clientFiles w :
  (∀ w0 c, throws w0 c = None) →
  sessions w !! e = None →
  startSession throws sha256_json baseTmpDir e fileNames hash clientFiles w
  = (inr true, started baseTmpDir e fileNames w).
Proof.
  intros Hq Hnone. unfold startSession.
  rewrite (bind_inr _ _ _ _ _ (startSession_restart_none throws e w Hnone)).
  apply try_catch_inr. unfold startSession_try.
  rewrite (bind_inr _ _ _ _ _ (buildFileObject_quiet fileNames e w Hq)).
  cbv zeta. simpl fst.
  rewrite (bind_inr _ _ _ _ _ (writeFilesToDir_quiet e _ w Hq)).
  by rewrite (bind_inr _ _ _ _ _ (pty_spawn_quiet "docker" _ _ Hq)).
Qed.

(** X16. A start for an environment that has no session, when no call out
    of the process throws: the result is [true]; the session is recorded
    with a fresh handle, the working directory of the environment and the
    container name; the only effect is the launch of [docker run] on the
    entry file, [main.py] when it is requested and the first requested
    name otherwise. For a requested name other than [__proto__] whose
    path in the directory no other requested name shares, the file at
    that path holds what [buildFileObject] gives the name, whatever hash
    and files the request carries; a path that is the path of no
    requested name is left as it was; the store and the registry are
    unchanged. *)
Theorem startSession_runs_the_stored_files
    (e : string) (fileNames : list string) (hash : option string)
    (clientFiles : option (list (string * value))) (w : world) :
  (∀ w0 c, throws w0 c = None) →
  sessions w !! e = None →
  let dir := path_join baseTmpDir e in
  let name := "nixpackpy_" +:+ e in
  let r := startSession throws sha256_json baseTmpDir e fileNames hash clientFiles w in
  fst r = inr true
  ∧ sessions (snd r) !! e = Some (Session (next_pty w) dir name)
  ∧ listeners (snd r) !! next_pty w = Some e
  ∧ trace (snd r)
    = trace w ++ [ESpawn (next_pty w) "docker" (dockerArgs name dir (entry_file fileNames))]
  ∧ dir ∈ fs_dirs (snd r)
  ∧ (∀ f, f ∈ fileNames → f ≠ "__proto__" →
       (∀ g, g ∈ fileNames → g ≠ "__proto__" →
          path_join dir g = path_join dir f → g = f) →
       fs_files (snd r) !! path_join dir f = Some (written (built_content e f w)))
  ∧ (∀ p, (∀ f, f ∈ fileNames → f ≠ "__proto__" → p ≠ path_join dir f) →
       fs_files (snd r) !! p = fs_files w !! p)
  ∧ redis (snd r) = redis w
  ∧ clientsMap (snd r) = clientsMap w.
Proof.
  intros Hq Hnone dir name r. subst r.
  rewrite (startSession_fresh e fileNames hash clientFiles w Hq Hnone).
  assert (∀ f c, (f, c) ∈ built_files e fileNames w →
            f ∈ fileNames ∧ f ≠ "__proto__" ∧ c = built_content e f w) as Hentry.
  { intros f c Hin. apply (obj_elem_of_get f c) in Hin; [|apply built_files_NoDup].
    rewrite built_files_get in Hin.
    destruct (decide (f ∈ fileNames)) as [Hf|Hf].
    - rewrite bool_decide_eq_true_2 in Hin by done.
      destruct (String.eqb_spec f "__proto__"); [done|].
      simpl in Hin. by injection Hin as <-.
    - by rewrite bool_decide_eq_false_2 in Hin. }
  unfold started. fold dir name. simpl. split_and!; try done.
  - by rewrite lookup_insert_eq.
  - by rewrite lookup_insert_eq.
  - apply elem_of_union_l. by apply elem_of_singleton.
  - intros f Hf Hproto Hinj. apply written_entry; [apply built_files_NoDup | |].
    + apply obj_get_elem_of. rewrite built_files_get.
      rewrite bool_decide_eq_true_2 by done.
      by rewrite (proj2 (String.eqb_neq _ _) Hproto).
    + intros g c Hin Hpath. destruct (Hentry g c Hin) as (Hg & Hgp & _).
      by apply Hinj.
  - intros p Hp. apply written_other. intros f c Hin.
    destruct (Hentry f c Hin) as (Hf & Hfp & _). by apply Hp.
Qed.

Lemma broadcast_sends_same e m w w' :
  clientsMap w' = clientsMap w → sockets w' = sockets w →
  broadcast_sends e m w' = broadcast_sends e m w.
Proof.
  intros Hcm Hsock. unfold broadcast_sends, clients_of, is_open.
  by rewrite Hcm, Hsock.
Qed.

(** X17. A restart, and then the [exit] event of the handle the restart
    killed: the listener attached to the old handle deletes the record of
    the environment, which by then is the record of the new session. The
    new handle is never killed, and from then on [stopSession] returns
    [false] and does nothing. *)
Theorem late_exit_drops_the_new_session
    (e : string) (fileNames : list string) (hash : option string)
    (clientFiles : option (list (string * value))) (code : Z) (old : session)
    (w : world) :
  (∀ w0 c, throws w0 c = None) →
  sessions w !! e = Some old →
  listeners w !! ptyProcess old = Some e →
  ptyProcess old < next_pty w →
  let new := S (next_pty w) in
  let dir := path_join baseTmpDir e in
  let name := "nixpackpy_" +:+ e in
  let w1 := snd (startSession throws sha256_json baseTmpDir e fileNames hash clientFiles w) in
  let w2 := snd (deliver_exit (ptyProcess old) code w1) in
  let added :=
    [ESpawn (next_pty w) "docker" (docker_kill_args old); EKill (ptyProcess old)]
    ++ broadcast_sends e (MStopped e true (Some "restarted")) w
    ++ [ESpawn new "docker" (dockerArgs name dir (entry_file fileNames))]
    ++ broadcast_sends e (MExit code) w in
  sessions w1 !! e = Some (Session new dir name)
  ∧ sessions w2 !! e = None
  ∧ trace w2 = trace w ++ added
  ∧ (EKill new ∉ added)
  ∧ stopSession throws e w2 = (inr false, w2).
Proof.
  intros Hq Hold Hlis Hlt new dir name w1 w2 added.
  destruct (stopSession_spawn_ok throws e w old Hold (Hq _ _)) as [b Hstop].
  set (w0 := with_sessions (delete e)
               (add_trace [ESpawn (next_pty w) "docker" (docker_kill_args old);
                           EKill (ptyProcess old)] (with_next_pty S w))) in Hstop.
  set (w0' := add_trace (broadcast_sends e (MStopped e true (Some "restarted")) w0) w0).
  assert (w1 = started baseTmpDir e fileNames w0') as Hw1.
  { subst w1. unfold startSession.
    pose proof (startSession_restart_some throws e w old Hold) as Hre.
    cbv zeta in Hre. rewrite Hstop in Hre. simpl snd in Hre. fold w0 w0' in Hre.
    rewrite (bind_inr _ _ _ _ _ Hre).
    assert (sessions w0' !! e = None) as Hn by (simpl; by rewrite lookup_delete_eq).
    pose proof (startSession_fresh e fileNames hash clientFiles w0' Hq Hn) as Hfresh.
    unfold startSession in Hfresh.
    rewrite (bind_inr _ _ _ _ _ (startSession_restart_none throws e w0' Hn)) in Hfresh.
    by rewrite Hfresh. }
  assert (deliver_exit (ptyProcess old) code w1
          = (inr tt, with_sessions (delete e)
                       (add_trace (broadcast_sends e (MExit code) w1) w1))) as Hexit.
  { unfold deliver_exit. unfold bind at 1, gets at 1.
    assert (listeners w1 !! ptyProcess old = Some e) as ->.
    { rewrite Hw1. unfold started. simpl. rewrite lookup_insert_ne by lia. done. }
    unfold on_exit. by rewrite (bind_inr _ _ _ _ _ (broadcast_spec e (MExit code) w1)). }
  assert (sessions w2 !! e = None) as Hnone.
  { subst w2. rewrite Hexit. simpl. by rewrite lookup_delete_eq. }
  split_and!.
  - rewrite Hw1. unfold started. simpl. by rewrite lookup_insert_eq.
  - exact Hnone.
  - subst w2. rewrite Hexit. simpl.
    rewrite (broadcast_sends_same e (MExit code) w w1) by (by rewrite Hw1).
    rewrite Hw1. unfold started. simpl.
    rewrite (broadcast_sends_same e _ w w0) by done.
    subst added. by rewrite <- !app_assoc.
  - subst added. rewrite !elem_of_app, !elem_of_cons, !elem_of_nil.
    unfold broadcast_sends. rewrite !list_elem_of_fmap.
    intros [[?|[[= H]|[]]]|[(? & ? & _)|[[?|[]]|(? & ? & _)]]]; try done.
    subst new. lia.
  - by apply stopSession_none.
Qed.

Lemma sendInput_session e input s w :
  sessions w !! e = Some s →
  let data := if endsWith_nl input then input else input +:+ nl in
  let w1 := add_trace [EWrite (ptyProcess s) data] w in
  sendInput throws e input w
  = (inr match throws w1 (PtyWrite (ptyProcess s) data) with
         | Some _ => false
         | None => true
         end, w1).
Proof.
  intros H data w1. unfold sendInput. unfold bind at 1, gets at 1. rewrite H.
  fold data. unfold try_catch, pty_write, emit, bind, modify, ext, ret.
  fold w1. by destruct (throws w1 (PtyWrite (ptyProcess s) data)).
Qed.

Lemma unregisterClient_result e c w :
  ∃ w', unregisterClient throws e c w = (inr tt, w')
        ∧ (c ∉ clients_of e w')
        ∧ (∀ e', e' ≠ e → clientsMap w' !! e' = clientsMap w !! e')
        ∧ sockets w' = sockets w ∧ wss_clients w' = wss_clients w.
Proof.
  destruct (clientsMap w !! e) as [cs|] eqn:Hcs.
  - rewrite (unregisterClient_unfold throws e c cs w Hcs).
    destruct (set_delete c cs) as [|c0 rest] eqn:Hdel; simpl Nat.eqb; cbv iota.
    + destruct (stopSession_total throws e (unregistered e c cs w)) as [b Hb].
      pose proof (stopSession_registry e (unregistered e c cs w)) as (Hsock & Hwss & Hcm).
      destruct (stopSession throws e (unregistered e c cs w)) as [res w2] eqn:Hstop.
      simpl in Hb, Hsock, Hwss, Hcm. subst res.
      rewrite (detached_then _ _ _ _ _ Hstop).
      eexists. split; [done|]. unfold clients_of. simpl. rewrite Hcm. split_and!.
      * rewrite lookup_delete_eq. simpl. apply not_elem_of_nil.
      * intros e' Hne. unfold unregistered. simpl.
        by rewrite lookup_delete_ne, lookup_insert_ne.
      * by rewrite Hsock.
      * by rewrite Hwss.
    + eexists. split; [done|]. unfold clients_of, unregistered. simpl. split_and!.
      * rewrite lookup_insert_eq. simpl. apply set_delete_not_elem.
      * intros e' Hne. by rewrite lookup_insert_ne.
      * done.
      * done.
  - exists w. split_and!; try done.
    + unfold unregisterClient, bind, gets. rewrite Hcs.
      by rewrite bool_decide_eq_false_2 by (by intros [? ?]).
    + unfold clients_of. rewrite Hcs. simpl. apply not_elem_of_nil.
Qed.

End WithEnvironment.
End ManagerMore.

(** ** More of the dispatcher *)

Module DispatcherMore.
Import Js Edit Sys Manager Dispatcher ManagerSpec DispatcherSpec ExtraSpec.
Import JsFacts SysFacts ManagerFacts DispatcherFacts ManagerMore.
Open Scope js_scope.

Section WithEnvironment.

Context {platform : Platform}.

Variable throws : world → call → option string.
Variable sha256_json : list (string * value) → string.
Variable baseTmpDir : string.

Local Abbreviation handle := (handleWebSocketMessage throws sha256_json baseTmpDir).
Local Abbreviation on_message := (Dispatcher.on_message throws sha256_json baseTmpDir).
Local Abbreviation on_close := (Dispatcher.on_close throws).

Ltac registry_ok_leaf := apply same_registry_ok; reflexivity.

Ltac keeps_registry :=
  repeat first [ apply preserves_ext; apply _
               | apply registerClient_registry_ok
               | apply unregisterClient_registry_ok
               | preserves_step registry_ok_leaf ].

(** X5. Every listener of the server keeps the registry well formed: no set
    of the registry is empty and none holds a client twice, after a
    message of any kind, a close, a new connection, and the output or
    the exit of a process. *)
Theorem registry_stays_well_formed (w : world) :
  registry_ok w →
  (∀ ws data, registry_ok (snd (on_message ws data w)))
  ∧ (∀ ws, registry_ok (snd (on_close ws w)))
  ∧ (∀ ws sessionId, registry_ok (snd (on_connection ws sessionId w)))
  ∧ (∀ h data, registry_ok (snd (deliver_data h data w)))
  ∧ (∀ h code, registry_ok (snd (deliver_exit h code w))).
Proof.
  intros Hok. split_and!.
  - intros ws data. revert w Hok.
    change (preserves keeps_registry_ok (on_message ws data)). keeps_registry.
  - intros ws. revert w Hok.
    change (preserves keeps_registry_ok (on_close ws)). keeps_registry.
  - intros ws sessionId. revert w Hok.
    change (preserves keeps_registry_ok (on_connection ws sessionId)). keeps_registry.
  - intros h data. revert w Hok.
    change (preserves keeps_registry_ok (deliver_data h data)). keeps_registry.
  - intros h code. revert w Hok.
    change (preserves keeps_registry_ok (deliver_exit h code)). keeps_registry.
Qed.

Lemma on_message_handled ws req w :
  ws_sessionId ws w ≠ EmptyString →
  on_message ws (inr req) w
  = match handle ws req w with
    | (inr _, w') => (inr tt, w')
    | (inl msg, w') => (inr tt, add_trace [processing_error ws msg] w')
    end.
Proof.
  intros Hsid. unfold Dispatcher.on_message. unfold bind at 1, gets at 1.
  rewrite (proj2 (String.eqb_neq _ _) Hsid). unfold try_catch.
  by destruct (handle ws req w) as [[msg|[]] w'].
Qed.

(** X18. The [message] listener never throws. What the handler throws
    reaches the sender as one [error] event carrying the message, sent
    after whatever the handler had done by then, which stays done; a
    handler that returns adds nothing. Text that is not JSON and a
    socket without session identifier get their own error and nothing
    else happens. *)
Theorem on_message_reports_what_is_thrown (ws : client) (w : world) :
  (∀ data, fst (on_message ws data w) = inr tt)
  ∧ (∀ details,
       on_message ws (inl details) w
       = (inr tt, add_trace [ESend ws (MError "Invalid JSON" (Some details))] w))
  ∧ (ws_sessionId ws w = EmptyString → ∀ req,
       on_message ws (inr req) w
       = (inr tt, add_trace [ESend ws (MError "No active session" None)] w))
  ∧ (ws_sessionId ws w ≠ EmptyString → ∀ req w',
       (∀ msg, handle ws req w = (inl msg, w') →
          on_message ws (inr req) w
          = (inr tt, add_trace [processing_error ws msg] w'))
       ∧ (handle ws req w = (inr tt, w') → on_message ws (inr req) w = (inr tt, w'))).
Proof.
  split_and!.
  - intros [details|req]; [done|].
    destruct (decide (ws_sessionId ws w = EmptyString)) as [Hsid|Hsid].
    + unfold Dispatcher.on_message, bind, gets. rewrite Hsid. done.
    + rewrite (on_message_handled ws req w Hsid).
      by destruct (handle ws req w) as [[msg|[]] w'].
  - done.
  - intros Hsid req. unfold Dispatcher.on_message, bind, gets. by rewrite Hsid.
  - intros Hsid req w'. split.
    + intros msg H. rewrite (on_message_handled ws req w Hsid). by rewrite H.
    + intros H. rewrite (on_message_handled ws req w Hsid). by rewrite H.
Qed.

(** X19. A request that lacks what its handler requires, and a request with
    an event name the dispatcher does not know, change nothing: the
    handler throws before it has done anything, and all the listener
    does is send the sender one [error] event with the handler's
    message. *)
Theorem rejected_request_changes_nothing (ws : client) (req : request) (msg : string)
    (w : world) :
  rejected req = Some msg →
  handle ws req w = (inl msg, w)
  ∧ (ws_sessionId ws w ≠ EmptyString →
     on_message ws (inr req) w = (inr tt, add_trace [processing_error ws msg] w)).
Proof.
  intros Hrej.
  assert (handle ws req w = (inl msg, w)) as Hthrow.
  { destruct req as [env | env fileName op lineNumber lineContent count
                     | fileNames env hash files | input | | env oldName newName
                     | env fileName | env fileName | line ch file env | input | event];
      simpl in Hrej; unfold handleWebSocketMessage.
    - unfold handle_getFiles. destruct (truthy env); [done|]. by injection Hrej as <-.
    - unfold handle_diffLine.
      destruct (truthy env), (truthy fileName), lineNumber, (op ≫= parse_op);
        try done; by injection Hrej as <-.
    - unfold handle_run.
      destruct fileNames, (truthy env); try done; by injection Hrej as <-.
    - unfold handle_input. destruct input; [done|]. by injection Hrej as <-.
    - done.
    - unfold handle_renameFile.
      destruct (truthy env), (truthy oldName), (truthy newName);
        try done; by injection Hrej as <-.
    - unfold handle_deleteFile.
      destruct (truthy env), (truthy fileName); try done; by injection Hrej as <-.
    - unfold handle_duplicateFile.
      destruct (truthy env), (truthy fileName); try done; by injection Hrej as <-.
    - done.
    - done.
    - by injection Hrej as <-. }
  split; [done|]. intros Hsid.
  rewrite (on_message_handled ws req w Hsid). by rewrite Hthrow.
Qed.

(** X20. An [inputChange] is relayed to the clients the server still holds
    that are open, are not the sender, and are bound to the environment
    the sender is bound to; for a sender bound to none these are the
    other open clients bound to none. Nothing else happens. *)
Theorem inputChange_goes_to_the_same_binding (ws : client) (input : json) (w : world) :
  ∃ recipients,
    handle ws (ReqInputChange input) w
    = (inr tt, add_trace (map (fun c => ESend c (MInputChanged input)) recipients) w)
    ∧ (∀ c, c ∈ recipients
          ↔ c ∈ wss_clients w ∧ c ≠ ws ∧ is_open c w = true
            ∧ ws_environmentId c w = ws_environmentId ws w)
    ∧ (NoDup (wss_clients w) → NoDup recipients).
Proof.
  exists (others ws (ws_environmentId ws w) w). split_and!.
  - unfold handleWebSocketMessage, handle_inputChange.
    unfold bind at 1, gets at 1. apply send_to_others_spec.
  - intros c. unfold others. rewrite list_elem_of_In, List.filter_In, <- list_elem_of_In.
    unfold is_other. rewrite !andb_true_iff, negb_true_iff, Nat.eqb_neq.
    rewrite bool_decide_eq_true. tauto.
  - intros Hnd. unfold others.
    apply NoDup_ListNoDup, List.NoDup_filter. by apply NoDup_ListNoDup.
Qed.

(** X21. An [input] request of a client bound to no environment is refused
    with [No active environment], and so is its [stop]. For a bound
    client the input goes to the handle of the session of that
    environment, newline-terminated; without a session, and when the
    write throws, the handler throws [Failed to send input]. *)
Theorem input_goes_to_the_session_of_the_binding (ws : client) (input : string)
    (w : world) :
  (truthy (ws_environmentId ws w) = None →
     handle ws (ReqInput (Some input)) w = (inl "No active environment", w)
     ∧ handle ws ReqStop w = (inl "No active environment", w))
  ∧ (∀ e, truthy (ws_environmentId ws w) = Some e →
       (sessions w !! e = None →
          handle ws (ReqInput (Some input)) w = (inl "Failed to send input", w))
       ∧ (∀ s, sessions w !! e = Some s →
            let data := if endsWith_nl input then input else input +:+ nl in
            let w1 := add_trace [EWrite (ptyProcess s) data] w in
            handle ws (ReqInput (Some input)) w
            = match throws w1 (PtyWrite (ptyProcess s) data) with
              | Some _ => (inl "Failed to send input", w1)
              | None => (inr tt, w1)
              end)).
Proof.
  split.
  - intros Hnone. split.
    + unfold handleWebSocketMessage, handle_input. unfold bind, gets. by rewrite Hnone.
    + unfold handleWebSocketMessage, handle_stop. unfold bind, gets. by rewrite Hnone.
  - intros e He. split.
    + intros Hs. unfold handleWebSocketMessage, handle_input.
      unfold bind at 1, gets at 1. rewrite He.
      assert (sendInput throws e input w = (inr false, w)) as Hsend.
      { unfold sendInput, bind, gets. by rewrite Hs. }
      by rewrite (bind_inr _ _ _ _ _ Hsend).
    + intros s Hs data w1. unfold handleWebSocketMessage, handle_input.
      unfold bind at 1, gets at 1. rewrite He.
      rewrite (bind_inr _ _ _ _ _ (sendInput_session throws e input s w Hs)).
      fold data w1. by destruct (throws w1 (PtyWrite (ptyProcess s) data)).
Qed.

(** X22. A [stop] of a bound client stops the session of its environment and
    tells every open registered client of that environment, the sender
    among them when it is registered, with the result of the stop. The
    environment has no session afterwards; when it had none before, the
    clients are told [success: false] and nothing else changes. *)
Theorem stop_tells_the_environment (ws : client) (e : string) (w : world) :
  truthy (ws_environmentId ws w) = Some e →
  ∃ b w1,
    stopSession throws e w = (inr b, w1)
    ∧ handle ws ReqStop w
      = (inr tt, add_trace (broadcast_sends e (MStopped e b None) w) w1)
    ∧ sessions w1 !! e = None
    ∧ (sessions w !! e = None → b = false ∧ w1 = w).
Proof.
  intros He.
  destruct (stopSession_total throws e w) as [b Hb].
  pose proof (stopSession_clears throws e w) as Hclear.
  pose proof (stopSession_registry throws e w) as (Hsock & _ & Hcm).
  destruct (stopSession throws e w) as [res w1] eqn:Hstop. simpl in *. subst res.
  exists b, w1. split_and!; [done| |done|].
  - unfold handleWebSocketMessage, handle_stop.
    unfold bind at 1, gets at 1. rewrite He.
    rewrite (bind_inr _ _ _ _ _ Hstop). rewrite broadcast_spec.
    by rewrite (broadcast_sends_same e _ w w1).
  - intros Hnone. rewrite (stopSession_none throws e w Hnone) in Hstop.
    by injection Hstop as <- <-.
Qed.

(** X23. The [close] listener never throws. It takes the client out of the
    set of the environment it is bound to at that moment and touches no
    other set of the registry: a set the client entered under an earlier
    binding keeps it. For a client bound to no environment the registry
    is left as it is. *)
Theorem close_unregisters_the_current_binding_only (ws : client) (w : world) :
  let w' := snd (on_close ws w) in
  fst (on_close ws w) = inr tt
  ∧ (ws ∉ wss_clients w')
  ∧ is_open ws w' = false
  ∧ (truthy (ws_environmentId ws w) = None → clientsMap w' = clientsMap w)
  ∧ (∀ e, truthy (ws_environmentId ws w) = Some e →
       (ws ∉ clients_of e w')
       ∧ (∀ e', e' ≠ e → clientsMap w' !! e' = clientsMap w !! e')).
Proof.
  intros w'.
  set (w0 := with_wss_clients (set_delete ws)
               (with_sockets
                  (alter (fun s => Socket (sessionId s) (environmentId s) false) ws) w)).
  assert (ws_environmentId ws w0 = ws_environmentId ws w) as Henv.
  { unfold ws_environmentId. simpl. rewrite lookup_alter_eq.
    by destruct (sockets w !! ws). }
  assert (is_open ws w0 = false) as Hclosed.
  { unfold is_open. simpl. rewrite lookup_alter_eq. by destruct (sockets w !! ws). }
  assert (ws ∉ wss_clients w0) as Hgone by apply set_delete_not_elem.
  assert (on_close ws w
          = match truthy (ws_environmentId ws w) with
            | None => (inr tt, w0)
            | Some e =>
                (Manager.unregisterClient throws e ws >>
                 sessionId <- gets (ws_sessionId ws) ;;
                 send_to_others ws (ws_environmentId ws w) (MDeleteCursor sessionId)) w0
            end) as Hclose.
  { unfold Dispatcher.on_close. unfold bind at 1, modify at 1.
    unfold bind at 1, modify at 1. fold w0. unfold bind at 1, gets at 1.
    rewrite Henv. by destruct (truthy (ws_environmentId ws w)). }
  destruct (truthy (ws_environmentId ws w)) as [e|] eqn:He.
  - destruct (unregisterClient_result throws e ws w0) as (w1 & Hun & Hout & Hrest & Hsock & Hwss).
    assert (on_close ws w
            = (inr tt,
               add_trace (map (fun c => ESend c (MDeleteCursor (ws_sessionId ws w1)))
                            (others ws (ws_environmentId ws w) w1)) w1)) as Hres.
    { rewrite Hclose. rewrite (bind_inr _ _ _ _ _ Hun).
      unfold bind at 1, gets at 1. apply send_to_others_spec. }
    subst w'. rewrite Hres. simpl. split_and!.
    + done.
    + by rewrite Hwss.
    + unfold is_open in *. simpl. by rewrite Hsock.
    + done.
    + intros e0 [= <-]. split; [done|]. intros e' Hne. by rewrite Hrest.
  - subst w'. rewrite Hclose. simpl. split_and!; done.
Qed.

Lemma startSession_never_throws e fileNames hash clientFiles w :
  ∃ b w',
    startSession throws sha256_json baseTmpDir e fileNames hash clientFiles w = (inr b, w').
Proof.
  unfold startSession.
  assert (∃ w0, startSession_restart throws e w = (inr tt, w0)) as [w0 Hre].
  { destruct (sessions w !! e) as [old|] eqn:Hs.
    - eexists. by apply (startSession_restart_some throws e w old).
    - eexists. by apply startSession_restart_none. }
  rewrite (bind_inr _ _ _ _ _ Hre). unfold try_catch.
  destruct (startSession_try throws sha256_json baseTmpDir e fileNames hash clientFiles w0)
    as [[msg|b] w1]; [|eauto].
  unfold startSession_catch.
  rewrite (bind_inr _ _ _ _ _ (broadcast_spec _ _ _)).
  rewrite (bind_inr _ _ _ _ _ (broadcast_spec _ _ _)). unfold ret. eauto.
Qed.

(** X24. A [run] request with its fields present never throws: the sender is
    always answered with a [runStatus], the last thing sent. Afterwards
    the sender is bound to the environment. It is registered for it when
    it was bound to another environment or to none; a sender that was
    bound to the environment already is not registered by the request,
    and the registry is as before. *)
Theorem run_is_answered_and_registers_on_rebinding
    (ws : client) (sock : socket) (fileNames : list string) (e : string)
    (hash : option string) (files : option (list (string * value))) (w : world) :
  e ≠ EmptyString →
  sockets w !! ws = Some sock →
  ∃ b w1,
    handle ws (ReqRun (Some fileNames) (Some e) hash files) w
    = (inr tt, add_trace [ESend ws (MRunStatus b)] w1)
    ∧ ws_environmentId ws w1 = Some e
    ∧ (ws_environmentId ws w ≠ Some e → ws ∈ clients_of e w1)
    ∧ (ws_environmentId ws w = Some e → clientsMap w1 = clientsMap w).
Proof.
  intros He Hsock.
  unfold handleWebSocketMessage, handle_run. rewrite (truthy_nonempty e He).
  unfold bind at 1, gets at 1.
  rewrite (bind_inr _ _ _ _ _ (send_to_others_spec ws _ MRunRan w)).
  set (wA := add_trace _ w).
  unfold bind at 1, gets at 1.
  change (ws_environmentId ws wA) with (ws_environmentId ws w).
  destruct (decide (ws_environmentId ws w = Some e)) as [Hbound|Hbound].
  - rewrite bool_decide_eq_false_2 by (by intros H; apply H).
    unfold bind at 1, ret at 1.
    destruct (startSession_never_throws e fileNames hash files wA) as (b & wC & Hstart).
    pose proof (startSession_registry throws sha256_json baseTmpDir e fileNames hash
                  files wA) as Hreg.
    rewrite Hstart in Hreg. simpl in Hreg. destruct Hreg as (Hs & _ & Hcm).
    rewrite (bind_inr _ _ _ _ _ Hstart).
    exists b, wC. split_and!.
    + done.
    + unfold ws_environmentId in *. by rewrite Hs.
    + done.
    + intros _. by rewrite Hcm.
  - rewrite bool_decide_eq_true_2 by done.
    pose proof (bound_and_registered ws e wA sock Hsock) as Hbr. cbv zeta in Hbr.
    destruct ((set_environmentId ws e >> registerClient e ws) wA) as [res wB] eqn:HwB.
    simpl in Hbr. destruct Hbr as (-> & Henv & Hin).
    rewrite (bind_inr _ _ _ _ _ HwB).
    destruct (startSession_never_throws e fileNames hash files wB) as (b & wC & Hstart).
    pose proof (startSession_registry throws sha256_json baseTmpDir e fileNames hash
                  files wB) as Hreg.
    rewrite Hstart in Hreg. simpl in Hreg.
    destruct (registry_keeps_binding ws e wB wC Hreg Henv Hin) as [Henv' Hin'].
    rewrite (bind_inr _ _ _ _ _ Hstart).
    exists b, wC. split_and!; done.
Qed.

End WithEnvironment.
End DispatcherMore.

(** ** The database classes *)

Module PgFacts.
Import Pg ManagerMore.

Lemma append_nil_r (s : string) : s +:+ EmptyString = s.
Proof.
  induction s as [|c s IH]; [done|].
  change (String c (s +:+ EmptyString) = String c s). by rewrite IH.
Qed.

Section WithPool.

Variable value : Type.
Variable pool_state : Type.
Variable pool_query :
  string → list value → pool_state → (string + QueryResult value) * pool_state.

Lemma build_query_spec (strings : list string) :
  ∀ index (values : list value) acc,
    build_query value strings index values acc
    = (fst acc +:+ template_text strings index (length values),
       snd acc ++ take (length strings) (drop index values)).
Proof.
  induction strings as [|s strings IH]; intros index values [query variables]; simpl.
  - by rewrite append_nil_r, app_nil_r.
  - rewrite IH. destruct (values !! index) as [v|] eqn:Hv; simpl.
    + rewrite (proj2 (Nat.ltb_lt _ _)) by (by eapply lookup_lt_Some).
      rewrite (drop_S _ _ _ Hv). simpl. rewrite <- app_assoc. simpl.
      by rewrite !append_assoc_r.
    + apply lookup_ge_None in Hv.
      rewrite (proj2 (Nat.ltb_ge _ _)) by done.
      rewrite !drop_ge by lia. rewrite take_nil. simpl.
      by rewrite !append_assoc_r.
Qed.

(** X25. The text [Database.execute] sends is fixed by the strings and the
    number of values: no value is ever part of it, each of the first
    values is replaced by its numbered placeholder, and the values are
    passed beside the text in their order. Called as a template tag (one
    string more than values) it passes every value. *)
Theorem execute_text_is_fixed_by_the_template
    (strings : list string) (values : list value) :
  let built := build_query value strings 0 values (EmptyString, []) in
  fst built = template_text strings 0 (length values)
  ∧ snd built = take (length strings) values
  ∧ (length strings = S (length values) → snd built = values)
  ∧ (∀ values' : list value, length values' = length values →
       fst (build_query value strings 0 values' (EmptyString, [])) = fst built).
Proof.
  intros built. subst built. rewrite build_query_spec. simpl. split_and!.
  - done.
  - by rewrite drop_0.
  - intros Hlen. rewrite drop_0. apply take_ge. lia.
  - intros values' Hlen. rewrite build_query_spec. simpl. by rewrite Hlen.
Qed.

(** X26. [Database.execute] counts every call, also one whose query the pool
    rejects. The object it returns holds the text and the values that
    were sent; it is [ok] exactly when the pool resolved, and then holds
    the rows and the row count of the result. After a rejection it holds
    the error, no rows and the row count 0 it started with. *)
Theorem execute_counts_and_keeps_errors
    (db : Database pool_state) (strings : list string) (values : list value) :
  let built := build_query value strings 0 values (EmptyString, []) in
  let r := Database_execute value pool_state pool_query db strings values in
  commandsExecuted pool_state (snd r) = S (commandsExecuted pool_state db)
  ∧ Query_toString value (fst r) = fst built
  ∧ variables value (fst r) = snd built
  ∧ match fst (pool_query (fst built) (snd built) (pool pool_state db)) with
    | inr res =>
        Query_ok value (fst r) = true
        ∧ rows value (fst r) = res_rows value res
        ∧ rowCount value (fst r) = res_rowCount value res
    | inl e =>
        Query_ok value (fst r) = false
        ∧ error value (fst r) = Some e
        ∧ rows value (fst r) = []
        ∧ rowCount value (fst r) = Some 0
        ∧ Query_length value (fst r) = 0
    end.
Proof.
  intros built r. subst r. unfold Database_execute. fold built. cbv zeta.
  unfold Query_execute. simpl.
  destruct (pool_query (fst built) (snd built) (pool pool_state db)) as [[e|res] p'];
    simpl; split_and!; done.
Qed.

(** X27. [Database.isQueryable] throws what the pool throws: it returns
    [false] only for a test query that resolved with another row count
    than 1, and [true] for one that resolved with 1. It does not count as
    a command. *)
Theorem isQueryable_throws_what_the_pool_throws (db : Database pool_state) :
  let r := Database_isQueryable value pool_state pool_query db in
  match fst (pool_query "SELECT 1;" [] (pool pool_state db)) with
  | inl e => fst r = inl e
  | inr res => fst r = inr (bool_decide (res_rowCount value res = Some 1))
  end
  ∧ commandsExecuted pool_state (snd r) = commandsExecuted pool_state db.
Proof.
  intros r. subst r. unfold Database_isQueryable, Database_testPool.
  destruct (pool_query "SELECT 1;" [] (pool pool_state db)) as [[e|res] p']; simpl.
  - done.
  - by case_bool_decide.
Qed.

End WithPool.
End PgFacts.

(** ** The added properties in the scenarios *)

Module MoreScenarios.
Import Js Edit Sys Manager Dispatcher ManagerSpec DispatcherSpec Scenario ExtraSpec.
Import ManagerMore DispatcherMore.

Lemma never_throws : ∀ (w0 : world) (c : call), never w0 c = None.
Proof. intros w0 c. reflexivity. Defined.

Lemma env1_pattern :
  ∀ key, scan_match ("env1" +:+ "_*") key = String.prefix ("env1" +:+ "_") key.
Proof. intros key. reflexivity. Defined.

(** [main.py] of the idle environment is renamed to [app.py]. *)
Lemma rename_of_main_py :
  renameFile never "env1" "main.py" "app.py" idle
  = (inr true,
     with_redis (delete "env1_main.py")
       (with_redis (insert "env1_app.py" "print(1)") idle)).
Proof.
  pose proof (renameFile_moves_content never "env1" "main.py" "app.py"
                (VStr "print(1)") idle eq_refl eq_refl ltac:(discriminate) eq_refl)
    as [H _].
  exact (proj1 (H eq_refl)).
Defined.

(** ... and back again. *)
Lemma rename_of_main_py_and_back :
  (renameFile never "env1" "main.py" "app.py" >>
   renameFile never "env1" "app.py" "main.py")%js idle = (inr true, idle).
Proof.
  apply (rename_there_and_back never "env1" "main.py" "app.py" "print(1)" idle
           never_throws); [discriminate | reflexivity | reflexivity | reflexivity].
Defined.

(** [main.py] is duplicated twice. *)
Lemma duplicate_of_main_py_twice :
  let w1 := snd (duplicateFile never "env1" "main.py" idle) in
  redis w1 !! "env1_main.py" = Some "print(1)"
  ∧ redis w1 !! "env1_main_copy.py" = Some "print(1)"
  ∧ duplicateFile never "env1" "main.py" w1 = (inr "main_copy.py", w1).
Proof.
  intros w1.
  assert (parsed (Some "print(1)") ≠ VNull) as Hv by discriminate.
  pose proof (duplicateFile_keeps_original never "env1" "main.py" "print(1)" idle
                never_throws eq_refl Hv) as (_ & H1 & H2 & _ & H3).
  split_and!; [exact H1 | exact H2 | exact H3].
Defined.

Lemma duplicate_and_delete_of_main_py :
  (duplicateFile never "env1" "main.py" >> deleteFile never "env1" "main.py")%js idle
  = renameFile never "env1" "main.py" "main_copy.py" idle.
Proof.
  exact (duplicate_then_delete_is_rename never "env1" "main.py" "print(1)" idle
           never_throws eq_refl).
Defined.

(** The listing of [env1] holds the file of [env1_b]. *)
Lemma listing_of_env1 :
  ∃ files,
    getAllFilesForEnvironment never "env1" two_environments = (inr files, two_environments)
    ∧ obj_get "main.py" files = Some (VStr "print(1)")
    ∧ obj_get "b_notes.txt" files = Some (VStr "secret")
    ∧ obj_get "gone.py" files = None.
Proof.
  destruct (listing_is_every_key_with_the_prefix never "env1" two_environments
              never_throws env1_pattern) as (files & H1 & _ & H2 & H3).
  exists files. split_and!.
  - exact H1.
  - exact (H2 "main.py").
  - exact (H3 "b" "notes.txt" "secret" eq_refl ltac:(discriminate)).
  - exact (H2 "gone.py").
Defined.

(** The files built for an environment the store has nothing for. *)
Lemma built_for_an_empty_environment :
  ∃ files,
    buildFileObject never entries_digest ["main.py"; "util.py"; "main.py"] "env2" idle
    = (inr (files, entries_digest files), idle)
    ∧ obj_get "main.py" files = Some (VStr default_main_py)
    ∧ obj_get "util.py" files = Some (VStr EmptyString)
    ∧ obj_get "other.py" files = None.
Proof.
  destruct (buildFileObject_contents never entries_digest
              ["main.py"; "util.py"; "main.py"] "env2" idle never_throws)
    as (files & H1 & _ & H2 & _).
  exists files. split_and!.
  - exact H1.
  - exact (H2 "main.py").
  - exact (H2 "util.py").
  - exact (H2 "other.py").
Defined.

(** A start of the idle environment on two of its files. *)
Lemma start_of_idle_environment :
  let r := startSession never entries_digest tmp "env1" ["Makefile"; "main.py"]
             None None idle in
  fst r = inr true
  ∧ sessions (snd r) !! "env1"
    = Some (Session 0 "/tmp/nixpackpy/env1" "nixpackpy_env1")
  ∧ trace (snd r)
    = [ESpawn 0 "docker"
         (dockerArgs "nixpackpy_env1" "/tmp/nixpackpy/env1" (Some "main.py"))]
  ∧ fs_files (snd r) !! "/tmp/nixpackpy/env1/Makefile" = Some "all:".
Proof.
  intros r.
  pose proof (startSession_runs_the_stored_files never entries_digest tmp "env1"
                ["Makefile"; "main.py"] None None idle never_throws eq_refl)
    as (H1 & H2 & _ & H4 & _ & H6 & _).
  split_and!.
  - exact H1.
  - exact H2.
  - exact H4.
  - apply (H6 "Makefile" (list_elem_of_here _ _)); [discriminate|].
    intros g _ _ Hpath. exact (append_inj_r "/tmp/nixpackpy/env1/" g "Makefile" Hpath).
Defined.

(** The running environment is restarted, and then the handle of the
    old session exits. *)
Lemma exit_of_the_old_handle_after_a_restart :
  let w1 := snd (startSession never entries_digest tmp "env1" ["main.py"]
                   None None running) in
  let w2 := snd (deliver_exit 0 0%Z w1) in
  sessions w1 !! "env1" = Some (Session 2 "/tmp/nixpackpy/env1" "nixpackpy_env1")
  ∧ sessions w2 !! "env1" = None
  ∧ stopSession never "env1" w2 = (inr false, w2).
Proof.
  intros w1 w2.
  pose proof (late_exit_drops_the_new_session never entries_digest tmp "env1"
                ["main.py"] None None 0%Z
                (Session 0 "/tmp/nixpackpy/env1" "nixpackpy_env1") running
                never_throws eq_refl eq_refl (le_n 1))
    as (H1 & H2 & _ & _ & H5).
  split_and!; [exact H1 | exact H2 | exact H5].
Defined.

Lemma registry_ok_idle : registry_ok idle.
Proof.
  intros e cs H. unfold idle in H. simpl in H.
  apply lookup_insert_Some in H as [[<- <-]|[_ H]].
  - split; [done | apply NoDup_singleton].
  - by rewrite lookup_empty in H.
Defined.

(** The registry after client 1 asks for the files of a second
    environment, and after it closes. *)
Lemma registry_after_getFiles_and_close :
  registry_ok
    (snd (on_message never entries_digest tmp 1 (inr (ReqGetFiles (Some "env2"))) idle))
  ∧ registry_ok (snd (on_close never 1 idle)).
Proof.
  destruct (registry_stays_well_formed never entries_digest tmp idle registry_ok_idle)
    as (H1 & H2 & _).
  split; [apply H1 | apply H2].
Defined.

(** An event name the dispatcher does not know, and a [getFiles] without
    environment. *)
Lemma unknown_event_is_refused :
  on_message never entries_digest tmp 1 (inr (ReqUnknown "ping")) idle
  = (inr tt, add_trace [processing_error 1 "Unknown event: ping"] idle)
  ∧ on_message never entries_digest tmp 1 (inr (ReqGetFiles None)) idle
    = (inr tt, add_trace [processing_error 1 "environmentId is required"] idle).
Proof.
  assert (ws_sessionId 1 idle ≠ EmptyString) as Hsid by (by vm_compute).
  split.
  - exact (proj2 (rejected_request_changes_nothing never entries_digest tmp 1
                    (ReqUnknown "ping") "Unknown event: ping" idle eq_refl) Hsid).
  - exact (proj2 (rejected_request_changes_nothing never entries_digest tmp 1
                    (ReqGetFiles None) "environmentId is required" idle eq_refl) Hsid).
Defined.

(** Client 1 stops the running environment, and stops it again. *)
Lemma stop_of_the_running_environment :
  (∃ b w1,
     stopSession never "env1" running = (inr b, w1)
     ∧ handleWebSocketMessage never entries_digest tmp 1 ReqStop running
       = (inr tt, add_trace (broadcast_sends "env1" (MStopped "env1" b None) running) w1)
     ∧ sessions w1 !! "env1" = None)
  ∧ handleWebSocketMessage never entries_digest tmp 1 ReqStop idle
    = (inr tt, add_trace [ESend 1 (MStopped "env1" false None)] idle).
Proof.
  split.
  - destruct (stop_tells_the_environment never entries_digest tmp 1 "env1" running
                eq_refl) as (b & w1 & H1 & H2 & H3 & _).
    exists b, w1. split_and!; [exact H1 | exact H2 | exact H3].
  - destruct (stop_tells_the_environment never entries_digest tmp 1 "env1" idle
                eq_refl) as (b & w1 & _ & H2 & _ & H4).
    destruct (H4 eq_refl) as [-> ->]. exact H2.
Defined.

(** Client 1, bound to [env1], runs [main.py] of [env2]. *)
Lemma run_in_a_second_environment :
  ∃ b w1,
    handleWebSocketMessage never entries_digest tmp 1
      (ReqRun (Some ["main.py"]) (Some "env2") None None) idle
    = (inr tt, add_trace [ESend 1 (MRunStatus b)] w1)
    ∧ ws_environmentId 1 w1 = Some "env2"
    ∧ 1 ∈ clients_of "env2" w1.
Proof.
  destruct (run_is_answered_and_registers_on_rebinding never entries_digest tmp 1
              (Socket "s1" (Some "env1") true) ["main.py"] "env2" None None idle
              ltac:(discriminate) eq_refl) as (b & w1 & H1 & H2 & H3 & _).
  exists b, w1. split_and!; [exact H1 | exact H2 |].
  apply H3. intros H. vm_compute in H. discriminate H.
Defined.

(** A file is saved in the idle environment and listed. *)
Lemma save_in_idle_is_listed :
  ∃ saved,
    (saveFile never "env1" "new.py" (VStr "x = 1") >>
     getAllFilesForEnvironment never "env1")%js idle
    = (inr saved, snd (saveFile never "env1" "new.py" (VStr "x = 1") idle))
    ∧ obj_get "new.py" saved = Some (VStr "x = 1").
Proof.
  destruct (listing_follows_save_and_delete never "env1" "new.py" "x = 1" idle
              never_throws env1_pattern ltac:(discriminate) eq_refl)
    as (before & saved & deleted & _ & H1 & _ & H3 & _).
  exists saved. split; [exact H1 | exact H3].
Defined.

End MoreScenarios.
